(** * Coworking room reservations (src/evidencia.py): shallow embedding

    The program is an interactive console application over an SQLite file.
    The embedding keeps its shape:

    - the three tables are lists of records, in rowid order;
    - every SQL statement is a function on those lists;
    - [input] reads from a list of pending answers (running out of answers
      is Python's [EOFError]), [print] appends to a list of messages;
    - the [while True] loops recurse on the pending answers, so every
      function is total;
    - Python builtins whose Unicode behaviour is outside the repository
      ([int], [str.lower], [str.isalpha], [strptime]) are the fields of the
      class [Builtins]; the theorems hold for every instance, and
      [ascii_builtins] is one instance on which the model runs.

    The storage itself is assumed not to fail (no [sqlite3.Error]), and the
    clock is read once per operation. *)

From Stdlib Require Import Ascii String.
From Stdlib Require Import ZArith NArith List Bool Lia.
From Stdlib Require Import Sorting.Sorted Sorting.Permutation.
Import ListNotations.
Local Open Scope Z_scope.

(** ** Strings *)

(** A Python [str] is its sequence of code points. *)
Definition str := list N.

Fixpoint str_eqb (a b : str) : bool :=
  match a, b with
  | [], [] => true
  | x :: a', y :: b' => N.eqb x y && str_eqb a' b'
  | _, _ => false
  end.

(** Lexicographic order on code points; on valid text it is the order of
    the UTF-8 encodings under [memcmp], SQLite's BINARY collation. *)
Fixpoint str_leb (a b : str) : bool :=
  match a, b with
  | [], _ => true
  | _ :: _, [] => false
  | x :: a', y :: b' =>
      if N.ltb x y then true else if N.eqb x y then str_leb a' b' else false
  end.

(** [of_ascii] reads an ASCII literal as a [str]. *)
Fixpoint of_ascii (s : string) : str :=
  match s with
  | EmptyString => []
  | String c s' => N_of_ascii c :: of_ascii s'
  end.

(** The characters [str.strip()] removes: those with [str.isspace()]. *)
Definition isspace (c : N) : bool :=
  ((9 <=? c) && (c <=? 13) || (28 <=? c) && (c <=? 32)
   || (c =? 133) || (c =? 160) || (c =? 5760)
   || (8192 <=? c) && (c <=? 8202)
   || (c =? 8232) || (c =? 8233) || (c =? 8239) || (c =? 8287)
   || (c =? 12288))%N.

Fixpoint lstrip (s : str) : str :=
  match s with
  | [] => []
  | c :: s' => if isspace c then lstrip s' else s
  end.

Fixpoint rstrip (s : str) : str :=
  match s with
  | [] => []
  | c :: s' =>
      match rstrip s' with
      | [] => if isspace c then [] else [c]
      | t => c :: t
      end
  end.

(** [s.strip()] *)
Definition strip (s : str) : str := rstrip (lstrip s).

(** [s != ""] and the truth value of a string. *)
Definition no_vacio (s : str) : bool :=
  match s with [] => false | _ :: _ => true end.

(** [s.replace(" ", "")] *)
Definition quitar_espacios (s : str) : str :=
  filter (fun c => negb (N.eqb c 32)) s.

(** ** Dates *)

(** A [datetime.date] is its proleptic Gregorian ordinal, between
    [date.min] (ordinal 1) and [date.max] (9999-12-31, ordinal 3652059). *)
Definition en_rango (n : Z) : bool := (1 <=? n) && (n <=? 3652059).

Record date := mkdate { toordinal : Z; ord_ok : en_rango toordinal = true }.

(** [date.fromordinal(n)]; [None] is out of range. *)
Definition fromordinal (n : Z) : option date :=
  match bool_dec (en_rango n) true with
  | left H => Some (mkdate n H)
  | right _ => None
  end.

(** [d.weekday()]: Monday is 0, Sunday is 6. *)
Definition weekday (d : date) : Z := (toordinal d + 6) mod 7.

(** [(a - b).days] *)
Definition dias_entre (a b : date) : Z := toordinal a - toordinal b.

(** [d + datetime.timedelta(days=n)]; [None] is Python's [OverflowError]. *)
Definition mas_dias (d : date) (n : Z) : option date :=
  fromordinal (toordinal d + n).

(** A time of day, in microseconds since midnight. *)
Definition time := Z.

(** [datetime.datetime.combine(fecha, hora)] *)
Record datetime := combine { dt_fecha : date; dt_hora : time }.

(** ** Builtins *)

Class Builtins := {
  (** [int(s)]; [None] is [ValueError]. *)
  int_ : str -> option Z;
  (** [s.lower()] *)
  lower : str -> str;
  (** [s.isalpha()] *)
  isalpha : str -> bool;
  (** [datetime.datetime.strptime(s, "%m-%d-%Y").date()]; [None] is
      [ValueError]. *)
  strptime : str -> option date
}.

(** ** Tables (lines 39-64) *)

Record Cliente := mkCliente {
  id_cliente : Z; nombre : str; apellidos : str }.

Record Sala := mkSala {
  id_sala : Z; sala_nombre : str; cupo : Z }.

Record Reservacion := mkReservacion {
  folio : Z;
  res_id_cliente : Z;
  res_id_sala : Z;
  fecha_registro : datetime;
  turno : str;
  evento : str }.

Record BD := mkBD {
  clientes : list Cliente;
  salas : list Sala;
  reservaciones : list Reservacion }.

(** The tables [inicializar_bd] creates when there is no file. *)
Definition bd_vacia : BD := mkBD [] [] [].

(** The three shift labels of lines 186 and 203. *)
Definition t_manana : str := [109; 97; 241; 97; 110; 97]%N.
Definition t_tarde : str := of_ascii "tarde".
Definition t_noche : str := of_ascii "noche".
Definition TURNOS : list str := [t_manana; t_tarde; t_noche].

(** [x in lista] for strings. *)
Definition en_lista (x : str) (l : list str) : bool := existsb (str_eqb x) l.

(** ** Output and control *)

(** One row of each printed table. *)
Definition FilaCliente := (Z * str * str)%type.
Definition FilaSala := (Z * str * Z * list str)%type.
Definition FilaEvento := (Z * str * date)%type.

(** A row of the daily consultation: folio, cliente, sala, turno, evento. *)
Record Registro := mkRegistro {
  reg_folio : Z; reg_cliente : str; reg_sala : str;
  reg_turno : str; reg_evento : str }.

(** One constructor per [print] of the source (with its line). *)
Inductive Msg :=
| FormatoIncorrecto                       (* 80 *)
| Anticipacion                            (* 84 *)
| DomingoSugerido (sugerido : date)       (* 88 *)
| NombreInvalido                          (* 108, 120 *)
| ApellidosInvalidos                      (* 112 *)
| ClienteRegistrado                       (* 115 *)
| CupoInvalido                            (* 127 *)
| SalaRegistrada                          (* 130 *)
| FechaNoValida                           (* 137 *)
| AnticipacionSimple                      (* 142 *)
| DomingoNoPermitido                      (* 146 *)
| NoHayClientes                           (* 154 *)
| TablaClientes (filas : list FilaCliente) (* 157 *)
| ClaveInvalida                           (* 164 *)
| ClienteNoEncontrado                     (* 170 *)
| NoHaySalas                              (* 180 *)
| NoHaySalasDisponibles                   (* 193 *)
| TablaSalas (filas : list FilaSala)      (* 196 *)
| SalaOcupada                             (* 206 *)
| SeleccionInvalida                       (* 210 *)
| EventoVacio                             (* 216 *)
| Registrada (f : Z) (cliente sala : str) (fecha : date)
             (turno evento : str)         (* 237-243 *)
| FechasInvalidas                         (* 257 *)
| NoHayEnRango                            (* 271 *)
| TablaEventos (filas : list FilaEvento)  (* 275 *)
| IngreseFolio                            (* 283 *)
| FolioInvalido                           (* 287 *)
| OperacionCancelada                      (* 291 *)
| FolioNoEncontrado                       (* 296 *)
| EventoNoVacio                           (* 302 *)
| EventoActualizado                       (* 305 *)
| FechaInvalida                           (* 316 *)
| NoHayReservaciones                      (* 329 *)
| TablaReservaciones (filas : list Registro) (* 331 *)
| Exportado (fecha : date) (datos : list Registro). (* 336-338 *)

(** Exceptions that leave a function of the source uncaught. *)
Inductive Excepcion := EOFError | IndexError | OverflowError.

Inductive Res (A : Type) :=
| Ret (a : A)
| Raise (e : Excepcion).
Arguments Ret {A} a.
Arguments Raise {A} e.

(** An interactive computation, run on the pending answers: its result,
    the answers it left unread, and what it printed. *)
Definition IO (A : Type) := (Res A * list str * list Msg)%type.

Definition resultado {A} (x : IO A) : Res A := fst (fst x).
Definition restantes {A} (x : IO A) : list str := snd (fst x).
Definition impreso {A} (x : IO A) : list Msg := snd x.

(** [print(m)] followed by [x]. *)
Definition tras {A} (m : Msg) (x : IO A) : IO A :=
  let '(r, i, o) := x in (r, i, m :: o).

(** The same for operations that also return the tables. *)
Definition tras_bd {A} (m : Msg) (x : IO A * BD) : IO A * BD :=
  (tras m (fst x), snd x).

(** Sequencing: when [x] raises, the tables stay as [bd]; otherwise what
    [k] prints follows what [x] printed. *)
Definition luego {A B} (bd : BD) (x : IO A)
    (k : A -> list str -> IO B * BD) : IO B * BD :=
  match x with
  | (Raise e, i, o) => ((Raise e, i, o), bd)
  | (Ret a, i, o) =>
      match k a i with
      | ((r', i', o'), bd') => ((r', i', o ++ o'), bd')
      end
  end.

(** [input()] with no answer left. *)
Definition fin_entrada {A} : IO A := (Raise EOFError, [], []).

(** ** SQL *)

(** [ORDER BY]: a stable insertion sort.  SQL leaves the order of ties
    open; no theorem below depends on it. *)
Section Orden.
Context {A : Type} (leb : A -> A -> bool).

Fixpoint insertar (x : A) (l : list A) : list A :=
  match l with
  | [] => [x]
  | y :: l' => if leb x y then x :: l else y :: insertar x l'
  end.

Fixpoint ordenar (l : list A) : list A :=
  match l with
  | [] => []
  | x :: l' => insertar x (ordenar l')
  end.
End Orden.

(** SQLite's [LOWER]: ASCII letters only. *)
Definition sql_lower (s : str) : str :=
  map (fun c => if (65 <=? c) && (c <=? 90) then c + 32 else c)%N s.

(** Values SQLite stores as INTEGER; binding any other Python [int]
    raises [OverflowError] in [cursor.execute] (line 26). *)
Definition int64 (n : Z) : bool :=
  (-9223372036854775808 <=? n) && (n <=? 9223372036854775807).

(** [INTEGER PRIMARY KEY AUTOINCREMENT] on a table nothing is deleted
    from: one more than the largest key, starting at 1. *)
Definition siguiente (claves : list Z) : Z := 1 + fold_right Z.max 0 claves.

(** [DATE(fecha_registro) = ?] against [fecha.strftime("%Y-%m-%d")]. *)
Definition en_fecha (f : Z) (r : Reservacion) : bool :=
  toordinal (dt_fecha (fecha_registro r)) =? f.

(** Line 152: [SELECT * FROM clientes ORDER BY LOWER(apellidos), LOWER(nombre)] *)
Definition cliente_leb (a b : Cliente) : bool :=
  let la := sql_lower (apellidos a) in
  let lb := sql_lower (apellidos b) in
  if str_eqb la lb
  then str_leb (sql_lower (nombre a)) (sql_lower (nombre b))
  else str_leb la lb.

Definition select_clientes (bd : BD) : list Cliente :=
  ordenar cliente_leb (clientes bd).

(** Lines 99-102: the rows [sala_disponible] selects. *)
Definition coincide (id : Z) (f : date) (t : str) (r : Reservacion) : bool :=
  (res_id_sala r =? id) && en_fecha (toordinal f) r && str_eqb (turno r) t.

(** Lines 114 and 129. *)
Definition insert_cliente (bd : BD) (n a : str) : BD :=
  mkBD (clientes bd ++ [mkCliente (siguiente (map id_cliente (clientes bd))) n a])
       (salas bd) (reservaciones bd).

Definition insert_sala (bd : BD) (n : str) (c : Z) : BD :=
  mkBD (clientes bd)
       (salas bd ++ [mkSala (siguiente (map id_sala (salas bd))) n c])
       (reservaciones bd).

(** Lines 224-228: the INSERT and [lastrowid]. *)
Definition lastrowid (bd : BD) : Z := siguiente (map folio (reservaciones bd)).

Definition insert_reservacion (bd : BD) (c s : Z) (fh : datetime)
    (t e : str) : BD :=
  mkBD (clientes bd) (salas bd)
       (reservaciones bd ++ [mkReservacion (lastrowid bd) c s fh t e]).

(** Lines 230-235: the two display-name queries. *)
Definition espacio : str := of_ascii " ".

Definition select_nombre_cliente (bd : BD) (id : Z) : list str :=
  map (fun c => nombre c ++ espacio ++ apellidos c)
      (filter (fun c => id_cliente c =? id) (clientes bd)).

Definition select_nombre_sala (bd : BD) (id : Z) : list str :=
  map sala_nombre (filter (fun s => id_sala s =? id) (salas bd)).

(** Lines 263-267: [SELECT folio, evento, fecha_registro ... WHERE
    DATE(fecha_registro) = ? ORDER BY fecha_registro]. *)
Definition datetime_leb (a b : datetime) : bool :=
  if toordinal (dt_fecha a) =? toordinal (dt_fecha b)
  then dt_hora a <=? dt_hora b
  else toordinal (dt_fecha a) <? toordinal (dt_fecha b).

Definition select_eventos (bd : BD) (f : Z) : list (Z * str * datetime) :=
  map (fun r => (folio r, evento r, fecha_registro r))
      (ordenar (fun a b => datetime_leb (fecha_registro a) (fecha_registro b))
               (filter (en_fecha f) (reservaciones bd))).

(** Line 304: [UPDATE reservaciones SET evento=? WHERE folio=?] *)
Definition con_evento (e : str) (r : Reservacion) : Reservacion :=
  mkReservacion (folio r) (res_id_cliente r) (res_id_sala r)
                (fecha_registro r) (turno r) e.

Definition update_evento (bd : BD) (e : str) (f : Z) : BD :=
  mkBD (clientes bd) (salas bd)
       (map (fun r => if folio r =? f then con_evento e r else r)
            (reservaciones bd)).

(** Lines 319-327: the join of the daily consultation. *)
Definition unir (bd : BD) (r : Reservacion) : list Registro :=
  flat_map (fun c =>
    if res_id_cliente r =? id_cliente c then
      flat_map (fun s =>
        if res_id_sala r =? id_sala s then
          [mkRegistro (folio r) (nombre c ++ espacio ++ apellidos c)
                      (sala_nombre s) (turno r) (evento r)]
        else []) (salas bd)
    else []) (clientes bd).

Definition turno_leb (a b : Registro) : bool :=
  str_leb (reg_turno a) (reg_turno b).

Definition select_registros (bd : BD) (f : date) : list Registro :=
  ordenar turno_leb
    (flat_map (unir bd) (filter (en_fecha (toordinal f)) (reservaciones bd))).

(** ** The program *)

Section Programa.
Context {B : Builtins}.

(** Lines 66-67. *)
Definition validar_evento (evento : str) : bool := no_vacio (strip evento).

(** Lines 69-70. *)
Definition validar_clave_cliente (clave : Z) (cs : list Cliente) : bool :=
  existsb (fun c => id_cliente c =? clave) cs.

(** Lines 72-73. *)
Definition validar_texto (texto : str) : bool :=
  isalpha (quitar_espacios texto).

(** Lines 75-94.  The answer to the proposal is the next pending one. *)
Definition validar_fecha (hoy : date) (fecha_str : str) (ins : list str)
    : IO (option date) :=
  match strptime fecha_str with
  | None => (Ret None, ins, [FormatoIncorrecto])
  | Some fecha =>
      if dias_entre fecha hoy <? 2 then (Ret None, ins, [Anticipacion])
      else if weekday fecha =? 6 then
        match mas_dias fecha 1 with
        | None => (Raise OverflowError, ins, [])
        | Some sugerido =>
            tras (DomingoSugerido sugerido)
              match ins with
              | [] => fin_entrada
              | a :: ins' =>
                  if str_eqb (lower a) (of_ascii "s")
                  then (Ret (Some sugerido), ins', [])
                  else (Ret None, ins', [])
              end
        end
      else (Ret (Some fecha), ins, [])
  end.

(** Lines 96-103. *)
Definition sala_disponible (bd : BD) (id : Z) (fecha : date) (t : str)
    : bool :=
  (length (filter (coincide id fecha t) (reservaciones bd)) =? 0)%nat.

(** Lines 105-115. *)
Definition registrar_cliente (bd : BD) (ins : list str) : IO unit * BD :=
  match ins with
  | [] => (fin_entrada, bd)
  | a :: ins1 =>
      let n := strip a in
      if negb (validar_texto n) then ((Ret tt, ins1, [NombreInvalido]), bd)
      else
        match ins1 with
        | [] => (fin_entrada, bd)
        | b :: ins2 =>
            let ap := strip b in
            if negb (validar_texto ap)
            then ((Ret tt, ins2, [ApellidosInvalidos]), bd)
            else ((Ret tt, ins2, [ClienteRegistrado]), insert_cliente bd n ap)
        end
  end.

(** Lines 117-130. *)
Definition registrar_sala (bd : BD) (ins : list str) : IO unit * BD :=
  match ins with
  | [] => (fin_entrada, bd)
  | a :: ins1 =>
      let n := strip a in
      if negb (validar_texto n) then ((Ret tt, ins1, [NombreInvalido]), bd)
      else
        match ins1 with
        | [] => (fin_entrada, bd)
        | b :: ins2 =>
            match int_ b with
            | None => ((Ret tt, ins2, [CupoInvalido]), bd)
            | Some c =>
                if c <=? 0 then ((Ret tt, ins2, [CupoInvalido]), bd)
                else if negb (int64 c)
                then ((Raise OverflowError, ins2, []), bd)
                else ((Ret tt, ins2, [SalaRegistrada]), insert_sala bd n c)
            end
        end
  end.

(** Lines 132-149. *)
Definition validar_fecha_simple (hoy : date) (fecha_str : str)
    : option date * list Msg :=
  match strptime fecha_str with
  | None => (None, [FechaNoValida])
  | Some fecha =>
      if dias_entre fecha hoy <? 2 then (None, [AnticipacionSimple])
      else if weekday fecha =? 6 then (None, [DomingoNoPermitido])
      else (Some fecha, [])
  end.

(** *** [registrar_reservacion], lines 151-248 *)

(** Lines 160-170; [None] is the [return] of line 167. *)
Fixpoint pedir_cliente (cs : list Cliente) (ins : list str)
    : IO (option Z) :=
  match ins with
  | [] => fin_entrada
  | a :: ins' =>
      match int_ a with
      | None => tras ClaveInvalida (pedir_cliente cs ins')
      | Some id =>
          if id =? 0 then (Ret None, ins', [])
          else if validar_clave_cliente id cs then (Ret (Some id), ins', [])
          else tras ClienteNoEncontrado (pedir_cliente cs ins')
      end
  end.

(** Lines 172-176. *)
Fixpoint pedir_fecha (hoy : date) (ins : list str) : IO date :=
  match ins with
  | [] => fin_entrada
  | a :: ins' =>
      match validar_fecha_simple hoy (strip a) with
      | (Some fecha, o) => (Ret fecha, ins', o)
      | (None, o) =>
          match pedir_fecha hoy ins' with
          | (r, i, o') => (r, i, o ++ o')
          end
      end
  end.

(** Lines 185-188. *)
Definition turnos_libres (bd : BD) (id : Z) (fecha : date) : list str :=
  filter (fun t => sala_disponible bd id fecha t) TURNOS.

(** Lines 183-190. *)
Definition disponible_salas (bd : BD) (ss : list Sala) (fecha : date)
    : list FilaSala :=
  flat_map (fun s =>
    match turnos_libres bd (id_sala s) fecha with
    | [] => []
    | tl => [(id_sala s, sala_nombre s, cupo s, tl)]
    end) ss.

(** Lines 199-210.  [int] failing and a label outside the three both
    raise the [ValueError] caught at line 209. *)
Fixpoint pedir_sala (bd : BD) (fecha : date) (ins : list str)
    : IO (Z * str) :=
  match ins with
  | [] => fin_entrada
  | a :: ins1 =>
      match int_ a with
      | None => tras SeleccionInvalida (pedir_sala bd fecha ins1)
      | Some id =>
          match ins1 with
          | [] => fin_entrada
          | b :: ins2 =>
              let t := lower b in
              if negb (en_lista t TURNOS)
              then tras SeleccionInvalida (pedir_sala bd fecha ins2)
              else if negb (int64 id) then (Raise OverflowError, ins2, [])
              else if negb (sala_disponible bd id fecha t)
              then tras SalaOcupada (pedir_sala bd fecha ins2)
              else (Ret (id, t), ins2, [])
          end
      end
  end.

(** Lines 212-216. *)
Fixpoint pedir_evento (ins : list str) : IO str :=
  match ins with
  | [] => fin_entrada
  | a :: ins' =>
      let e := strip a in
      if validar_evento e then (Ret e, ins', [])
      else tras EventoVacio (pedir_evento ins')
  end.

(** Lines 218-248.  The [IndexError] of an empty name query leaves the
    [with] block, which rolls the INSERT back. *)
Definition guardar (bd : BD) (ahora : time) (c s : Z) (fecha : date)
    (t e : str) (ins : list str) : IO unit * BD :=
  let fecha_hora := combine fecha ahora in
  let bd' := insert_reservacion bd c s fecha_hora t e in
  let f := lastrowid bd in
  match select_nombre_cliente bd c with
  | [] => ((Raise IndexError, ins, []), bd)
  | cliente :: _ =>
      match select_nombre_sala bd s with
      | [] => ((Raise IndexError, ins, []), bd)
      | sala :: _ =>
          ((Ret tt, ins, [Registrada f cliente sala fecha t e]), bd')
      end
  end.

Definition registrar_reservacion (bd : BD) (hoy : date) (ahora : time)
    (ins : list str) : IO unit * BD :=
  match select_clientes bd with
  | [] => ((Ret tt, ins, [NoHayClientes]), bd)
  | cs =>
      tras_bd
        (TablaClientes
           (map (fun c => (id_cliente c, apellidos c, nombre c)) cs))
        (luego bd (pedir_cliente cs ins) (fun oc i1 =>
           match oc with
           | None => ((Ret tt, i1, []), bd)
           | Some c =>
               luego bd (pedir_fecha hoy i1) (fun fecha i2 =>
                 match salas bd with
                 | [] => ((Ret tt, i2, [NoHaySalas]), bd)
                 | ss =>
                     match disponible_salas bd ss fecha with
                     | [] => ((Ret tt, i2, [NoHaySalasDisponibles]), bd)
                     | ds =>
                         tras_bd (TablaSalas ds)
                           (luego bd (pedir_sala bd fecha i2)
                              (fun st i3 =>
                                 luego bd (pedir_evento i3) (fun e i4 =>
                                   guardar bd ahora c (fst st) fecha
                                           (snd st) e i4)))
                     end
                 end)
           end))
  end.

(** *** [editar_evento], lines 250-305 *)

(** Line 260: the ordinals of [fi], [fi + 1 day], ..., [ff]. *)
Definition rango_fechas (fi ff : date) : list Z :=
  map (fun i => toordinal fi + Z.of_nat i)
      (seq 0 (Z.to_nat (dias_entre ff fi + 1))).

(** Lines 261-268. *)
Definition reservaciones_en_rango (bd : BD) (fi ff : date)
    : list (Z * str * datetime) :=
  flat_map (select_eventos bd) (rango_fechas fi ff).

(** Lines 274-279. *)
Definition mostrar_tabla (rs : list (Z * str * datetime)) : Msg :=
  TablaEventos
    (map (fun r => (fst (fst r), snd (fst r), dt_fecha (snd r))) rs).

(** Lines 281-296; [None] is the [return] of line 292. *)
Fixpoint pedir_folio (rs : list (Z * str * datetime)) (ins : list str)
    : IO (option Z) :=
  tras (mostrar_tabla rs) (tras IngreseFolio
    match ins with
    | [] => fin_entrada
    | a :: ins' =>
        match int_ a with
        | None => tras FolioInvalido (pedir_folio rs ins')
        | Some f =>
            if f =? 0 then (Ret None, ins', [OperacionCancelada])
            else if existsb (fun r => fst (fst r) =? f) rs
            then (Ret (Some f), ins', [])
            else tras FolioNoEncontrado (pedir_folio rs ins')
        end
    end).

(** Lines 298-302. *)
Fixpoint pedir_nuevo_evento (ins : list str) : IO str :=
  match ins with
  | [] => fin_entrada
  | a :: ins' =>
      let nuevo_evento := strip a in
      if no_vacio nuevo_evento then (Ret nuevo_evento, ins', [])
      else tras EventoNoVacio (pedir_nuevo_evento ins')
  end.

Definition editar_evento (bd : BD) (ins : list str) : IO unit * BD :=
  match ins with
  | [] => (fin_entrada, bd)
  | fi_str :: ins1 =>
      match ins1 with
      | [] => (fin_entrada, bd)
      | ff_str :: ins2 =>
          match strptime fi_str, strptime ff_str with
          | Some fi, Some ff =>
              match reservaciones_en_rango bd fi ff with
              | [] => ((Ret tt, ins2, [NoHayEnRango]), bd)
              | rs =>
                  luego bd (pedir_folio rs ins2) (fun o i3 =>
                    match o with
                    | None => ((Ret tt, i3, []), bd)
                    | Some f =>
                        luego bd (pedir_nuevo_evento i3) (fun e i4 =>
                          ((Ret tt, i4, [EventoActualizado]),
                           update_evento bd e f))
                    end)
              end
          | _, _ => ((Ret tt, ins2, [FechasInvalidas]), bd)
          end
      end
  end.

(** *** [consultar_reservaciones], lines 308-338 *)

Definition consultar_reservaciones (bd : BD) (hoy : date) (ins : list str)
    : IO unit :=
  match ins with
  | [] => fin_entrada
  | a :: ins1 =>
      let fecha_str := strip a in
      match (if no_vacio fecha_str then strptime fecha_str else Some hoy) with
      | None => (Ret tt, ins1, [FechaInvalida])
      | Some fecha =>
          match select_registros bd fecha with
          | [] => (Ret tt, ins1, [NoHayReservaciones])
          | registros =>
              tras (TablaReservaciones registros)
                match ins1 with
                | [] => fin_entrada
                | b :: ins2 =>
                    if str_eqb (lower b) (of_ascii "s")
                    then (Ret tt, ins2, [Exportado fecha registros])
                    else (Ret tt, ins2, [])
                end
          end
      end
  end.

(** *** The menu, lines 340-369 *)

(** One choice of the menu that writes to the tables, run on some
    answers at some clock reading.  The tables outlive the process, so a
    run that ends in an exception is a step too. *)
Inductive paso : BD -> BD -> Prop :=
| paso_cliente bd ins :
    paso bd (snd (registrar_cliente bd ins))
| paso_sala bd ins :
    paso bd (snd (registrar_sala bd ins))
| paso_reservacion bd hoy ahora ins :
    paso bd (snd (registrar_reservacion bd hoy ahora ins))
| paso_editar bd ins :
    paso bd (snd (editar_evento bd ins)).

(** The tables the program can hold, starting from no file. *)
Inductive alcanzable : BD -> Prop :=
| alc_inicio : alcanzable bd_vacia
| alc_paso bd bd' : alcanzable bd -> paso bd bd' -> alcanzable bd'.

End Programa.

(** ** An instance of the builtins on ASCII text *)

Module Ascii7.

Definition digito (c : N) : option Z :=
  if ((48 <=? c) && (c <=? 57))%N then Some (Z.of_N c - 48) else None.

Fixpoint digitos (s : str) (acc : Z) : option Z :=
  match s with
  | [] => Some acc
  | c :: s' =>
      match digito c with
      | Some d => digitos s' (10 * acc + d)
      | None => None
      end
  end.

Definition natural (s : str) : option Z :=
  match s with [] => None | _ :: _ => digitos s 0 end.

(** [int] on an optionally signed decimal literal with blanks around. *)
Definition int_ascii (s : str) : option Z :=
  match strip s with
  | 45%N :: r => option_map Z.opp (natural r)
  | 43%N :: r => natural r
  | r => natural r
  end.

Definition lower_ascii (s : str) : str := sql_lower s.

Definition letra (c : N) : bool :=
  ((65 <=? c) && (c <=? 90) || (97 <=? c) && (c <=? 122))%N.

Definition isalpha_ascii (s : str) : bool := no_vacio s && forallb letra s.

(** The fields of a text separated by hyphens. *)
Fixpoint partir (s : str) : list str :=
  match s with
  | [] => [[]]
  | c :: s' =>
      if (c =? 45)%N then [] :: partir s'
      else match partir s' with
           | p :: ps => (c :: p) :: ps
           | [] => [[c]]
           end
  end.

Definition bisiesto (y : Z) : bool :=
  (y mod 4 =? 0) && (negb (y mod 100 =? 0) || (y mod 400 =? 0)).

Definition dias_del_mes (y m : Z) : Z :=
  if m =? 2 then (if bisiesto y then 29 else 28)
  else if (m =? 4) || (m =? 6) || (m =? 9) || (m =? 11) then 30 else 31.

Fixpoint dias_antes_del_mes (y : Z) (m : nat) : Z :=
  match m with
  | O => 0
  | S m' => dias_antes_del_mes y m' + dias_del_mes y (Z.of_nat m)
  end.

(** [date(y, m, d).toordinal()] *)
Definition ymd2ord (y m d : Z) : Z :=
  let y1 := y - 1 in
  y1 * 365 + y1 / 4 - y1 / 100 + y1 / 400
  + dias_antes_del_mes y (Z.to_nat (m - 1)) + d.

(** [strptime(s, "%m-%d-%Y").date()] on ASCII digits: one or two for the
    month and the day, four for the year. *)
Definition strptime_ascii (s : str) : option date :=
  match partir s with
  | [ms; ds; ys] =>
      match natural ms, natural ds, natural ys with
      | Some m, Some d, Some y =>
          if (Nat.leb (List.length ms) 2) && (Nat.leb (List.length ds) 2)
             && (Nat.eqb (List.length ys) 4)
             && (1 <=? m) && (m <=? 12) && (1 <=? y)
             && (1 <=? d) && (d <=? dias_del_mes y m)
          then fromordinal (ymd2ord y m d)
          else None
      | _, _, _ => None
      end
  | _ => None
  end.

End Ascii7.

Definition ascii_builtins : Builtins :=
  {| int_ := Ascii7.int_ascii;
     lower := Ascii7.lower_ascii;
     isalpha := Ascii7.isalpha_ascii;
     strptime := Ascii7.strptime_ascii |}.

(** ** The vocabulary of the specification *)

(** The error kinds of the specification (section 7). *)
Inductive ErrorKind :=
| InvalidDateFormat | DateTooSoon | SundayBlocked | ShiftOccupied
| UnknownClient | UnknownRoom | BlankEventName | FolioNotFound
| StorageFailure.

(** The error kind a printed message stands for, if any. *)
Definition clase (m : Msg) : option ErrorKind :=
  match m with
  | FormatoIncorrecto | FechaNoValida | FechasInvalidas | FechaInvalida =>
      Some InvalidDateFormat
  | Anticipacion | AnticipacionSimple => Some DateTooSoon
  | DomingoNoPermitido => Some SundayBlocked
  | SalaOcupada => Some ShiftOccupied
  | ClienteNoEncontrado => Some UnknownClient
  | EventoVacio | EventoNoVacio => Some BlankEventName
  | FolioNoEncontrado => Some FolioNotFound
  | _ => None
  end.

(** The first error a run reports. *)
Fixpoint primer_error (o : list Msg) : option ErrorKind :=
  match o with
  | [] => None
  | m :: o' =>
      match clase m with
      | Some k => Some k
      | None => primer_error o'
      end
  end.

(** [existsClient], [existsRoom] of section 6. *)
Definition existsClient (bd : BD) (c : Z) : bool :=
  existsb (fun x => id_cliente x =? c) (clientes bd).

Definition existsRoom (bd : BD) (s : Z) : bool :=
  existsb (fun x => id_sala x =? s) (salas bd).

(** The slot of a reservation: room, date, shift. *)
Definition ranura (r : Reservacion) : Z * Z * str :=
  (res_id_sala r, toordinal (dt_fecha (fecha_registro r)), turno r).

(** Some stored reservation holds the slot. *)
Definition ocupada (bd : BD) (id : Z) (fecha : date) (t : str) : Prop :=
  exists r, In r (reservaciones bd) /\ ranura r = (id, toordinal fecha, t).

(** The preconditions of [create] in the order section 4.3 gives them. *)
Definition create_segun_spec (bd : BD) (c s : Z) (fecha : date)
    (t e : str) : option ErrorKind :=
  if negb (existsClient bd c) then Some UnknownClient
  else if negb (existsRoom bd s) then Some UnknownRoom
  else if negb (no_vacio (strip e)) then Some BlankEventName
  else if negb (Nat.eqb (List.length (filter (coincide s fecha t)
                                      (reservaciones bd))) 0)
  then Some ShiftOccupied
  else None.

(** The shifts in the order of the day: morning, afternoon, evening. *)
Definition orden_del_dia (t : str) : Z :=
  if str_eqb t t_manana then 0
  else if str_eqb t t_tarde then 1
  else 2.

(** Primary keys are unique. *)
Definition claves_unicas (bd : BD) : Prop :=
  NoDup (map id_cliente (clientes bd)) /\ NoDup (map id_sala (salas bd)).

(** Every message but the confirmation of a new reservation. *)
Definition ordinario (m : Msg) : Prop :=
  match m with
  | Registrada _ _ _ _ _ _ => False
  | _ => True
  end.

(** A run printed ordinary messages and at most the confirmation [R]. *)
Definition avisos (R : option Msg) (o : list Msg) : Prop :=
  forall m, In m o -> ordinario m \/ Some m = R.

(** What a run of [registrar_reservacion] that stored a reservation did:
    one INSERT, confirmed on the screen, after every check passed. *)
Definition alta (bd : BD) (hoy : date) (ahora : time) (run : IO unit * BD)
    (c s : Z) (fecha : date) (t e cliente sala : str) : Prop :=
  snd run = insert_reservacion bd c s (combine fecha ahora) t e
  /\ resultado (fst run) = Ret tt
  /\ In (Registrada (lastrowid bd) cliente sala fecha t e) (impreso (fst run))
  /\ avisos (Some (Registrada (lastrowid bd) cliente sala fecha t e))
            (impreso (fst run))
  /\ existsClient bd c = true
  /\ 2 <= dias_entre fecha hoy /\ weekday fecha <> 6
  /\ en_lista t TURNOS = true /\ int64 s = true
  /\ sala_disponible bd s fecha t = true
  /\ validar_evento e = true
  /\ (exists l, select_nombre_cliente bd c = cliente :: l)
  /\ (exists l, select_nombre_sala bd s = sala :: l).

(** A run of [registrar_reservacion] either leaves the tables alone and
    confirms nothing, or is an [alta]. *)
Definition efecto_reserva (bd : BD) (hoy : date) (ahora : time)
    (run : IO unit * BD) : Prop :=
  (snd run = bd /\ avisos None (impreso (fst run)))
  \/ exists c s fecha t e cliente sala,
       alta bd hoy ahora run c s fecha t e cliente sala.

(** A run of [editar_evento] either leaves the tables alone or is one
    UPDATE with a stripped, non-empty name. *)
Definition efecto_edicion (bd : BD) (run : IO unit * BD) : Prop :=
  snd run = bd
  \/ exists e f, no_vacio e = true /\ strip e = e
                 /\ snd run = update_evento bd e f.

(** What the stored reservations keep true. *)
Definition integra (bd : BD) : Prop :=
  NoDup (map ranura (reservaciones bd))
  /\ NoDup (map folio (reservaciones bd))
  /\ claves_unicas bd
  /\ Forall (fun r => strip (evento r) <> []
                      /\ en_lista (turno r) TURNOS = true
                      /\ int64 (res_id_sala r) = true) (reservaciones bd).

(** An edit may change the event name of the reservation with folio [f],
    to [e], and nothing else. *)
Definition solo_cambia_evento (f : Z) (e : str) (r r' : Reservacion) : Prop :=
  folio r' = folio r
  /\ res_id_cliente r' = res_id_cliente r
  /\ res_id_sala r' = res_id_sala r
  /\ fecha_registro r' = fecha_registro r
  /\ turno r' = turno r
  /\ (folio r = f -> evento r' = e)
  /\ (folio r <> f -> r' = r).

(** A consultation listed morning first, then afternoon, then evening. *)
Definition en_orden_del_dia (l : list Registro) : Prop :=
  StronglySorted
    (fun a b => orden_del_dia (reg_turno a) <= orden_del_dia (reg_turno b)) l.

(** The checks of one pass through [registrar_reservacion], in the order
    the function makes them: the client, the slot, the event name. *)
Definition create_segun_codigo (bd : BD) (c s : Z) (fecha : date)
    (t e : str) : option ErrorKind :=
  if negb (existsClient bd c) then Some UnknownClient
  else if negb (sala_disponible bd s fecha t) then Some ShiftOccupied
  else if negb (no_vacio (strip e)) then Some BlankEventName
  else None.

(** ** A worked example: Monday 2024-06-10, one client, one room *)

Module Ejemplo.

Definition hoy : date := mkdate 739047 eq_refl.      (* 2024-06-10 *)
Definition jueves : date := mkdate 739050 eq_refl.   (* 2024-06-13 *)
Definition domingo : date := mkdate 739053 eq_refl.  (* 2024-06-16 *)
Definition lunes : date := mkdate 739054 eq_refl.    (* 2024-06-17 *)

Definition bd1 : BD :=
  snd (registrar_cliente (B := ascii_builtins) bd_vacia
         [of_ascii "Ana"; of_ascii "Lopez"]).

Definition bd2 : BD :=
  snd (registrar_sala (B := ascii_builtins) bd1
         [of_ascii "Sala A"; of_ascii "10"]).

Definition guion_tarde : list str :=
  [of_ascii "1"; of_ascii "06-13-2024"; of_ascii "1"; of_ascii "tarde";
   of_ascii "Kickoff"].

Definition bd3 : BD :=
  snd (registrar_reservacion (B := ascii_builtins) bd2 hoy 100 guion_tarde).

Definition guion_noche : list str :=
  [of_ascii "1"; of_ascii "06-13-2024"; of_ascii "1"; of_ascii "noche";
   of_ascii "Cena"].

Definition bd4 : BD :=
  snd (registrar_reservacion (B := ascii_builtins) bd3 hoy 200 guion_noche).

(** The taken slot of [bd3] again, with a blank event name. *)
Definition guion_ocupada_en_blanco : list str :=
  [of_ascii "1"; of_ascii "06-13-2024"; of_ascii "1"; of_ascii "tarde";
   of_ascii "   "].

(** A room number no room has. *)
Definition guion_sala_desconocida : list str :=
  [of_ascii "1"; of_ascii "06-13-2024"; of_ascii "7"; of_ascii "tarde";
   of_ascii "Kickoff"].

Definition guion_editar : list str :=
  [of_ascii "06-13-2024"; of_ascii "06-13-2024"; of_ascii "1";
   of_ascii "Team Sync"].

Definition guion_editar_en_blanco : list str :=
  [of_ascii "06-13-2024"; of_ascii "06-13-2024"; of_ascii "1";
   of_ascii "  "].

End Ejemplo.

(** ** The session: [inicializar_bd] and [menu], lines 36-64 and 340-369 *)

(** What a session prints: the menu's own lines, and the messages of the
    operation it runs. *)
Inductive Aviso :=
| SinBaseDeDatos            (* 38 *)
| MenuPrincipal             (* 343-351 *)
| Saliendo                  (* 366 *)
| OpcionInvalida            (* 369 *)
| De (m : Msg).

(** Lines 36-64.  [None] is no database file; [CREATE TABLE IF NOT EXISTS]
    leaves existing tables as they are. *)
Definition inicializar_bd (archivo : option BD) : list Aviso * BD :=
  match archivo with
  | None => ([SinBaseDeDatos], bd_vacia)
  | Some bd => ([], bd)
  end.

(** The outcome of a session: result, unread answers, output, tables. *)
Definition Sesion := (Res unit * list str * list Aviso * BD)%type.

(** [o] printed before the rest of the session. *)
Definition precedido (o : list Aviso) (x : option Sesion) : option Sesion :=
  match x with
  | Some (r, i, o', bd) => Some (r, i, o ++ o', bd)
  | None => None
  end.

Section Sesiones.
Context {B : Builtins}.

(** Lines 342-369.  Each turn of the loop reads at least the option, so
    one unit of [n] per turn is enough when [n] exceeds the number of
    pending answers; [None] is running out of [n].  [reloj] is the clock
    reading when that many answers are still pending.  An exception of an
    operation is not caught and ends the session. *)
Fixpoint bucle_menu (n : nat) (reloj : nat -> date * time) (bd : BD)
    (ins : list str) : option Sesion :=
  match n with
  | O => None
  | S n' =>
      match ins with
      | [] => Some (Raise EOFError, [], [MenuPrincipal], bd)
      | opcion :: ins1 =>
          let hoy := fst (reloj (List.length ins1)) in
          let ahora := snd (reloj (List.length ins1)) in
          let correr (x : IO unit * BD) : option Sesion :=
            match x with
            | ((Ret _, i, o), bd') =>
                precedido (MenuPrincipal :: map De o)
                          (bucle_menu n' reloj bd' i)
            | ((Raise e, i, o), bd') =>
                Some (Raise e, i, MenuPrincipal :: map De o, bd')
            end in
          if str_eqb opcion (of_ascii "1")
          then correr (registrar_cliente bd ins1)
          else if str_eqb opcion (of_ascii "2")
          then correr (registrar_sala bd ins1)
          else if str_eqb opcion (of_ascii "3")
          then correr (registrar_reservacion bd hoy ahora ins1)
          else if str_eqb opcion (of_ascii "4")
          then correr (editar_evento bd ins1)
          else if str_eqb opcion (of_ascii "5")
          then correr (consultar_reservaciones bd hoy ins1, bd)
          else if str_eqb opcion (of_ascii "6")
          then
            match ins1 with
            | [] => Some (Raise EOFError, [], [MenuPrincipal], bd)
            | confirmar :: ins2 =>
                if str_eqb (lower confirmar) (of_ascii "s")
                then Some (Ret tt, ins2, [MenuPrincipal; Saliendo], bd)
                else precedido [MenuPrincipal] (bucle_menu n' reloj bd ins2)
            end
          else precedido [MenuPrincipal; OpcionInvalida]
                         (bucle_menu n' reloj bd ins1)
      end
  end.

(** Lines 340-369: the whole session on the pending answers. *)
Definition menu (reloj : nat -> date * time) (archivo : option BD)
    (ins : list str) : option Sesion :=
  let '(o, bd) := inicializar_bd archivo in
  precedido o (bucle_menu (S (List.length ins)) reloj bd ins).

(** Tables reached from [bd0] by menu choices. *)
Inductive desde (bd0 : BD) : BD -> Prop :=
| desde_aqui : desde bd0 bd0
| desde_paso bd bd' : desde bd0 bd -> paso bd bd' -> desde bd0 bd'.

(** What the stored clients and rooms keep true (lines 105-130). *)
Definition fichas_validas (bd : BD) : Prop :=
  Forall (fun c => validar_texto (nombre c) = true
                   /\ validar_texto (apellidos c) = true
                   /\ strip (nombre c) = nombre c
                   /\ strip (apellidos c) = apellidos c) (clientes bd)
  /\ Forall (fun s => validar_texto (sala_nombre s) = true
                      /\ strip (sala_nombre s) = sala_nombre s
                      /\ 0 < cupo s <= 9223372036854775807) (salas bd).

End Sesiones.

(** Keys handed out one after another, from 1. *)
Definition claves_seguidas (l : list Z) : Prop :=
  l = map Z.of_nat (seq 1 (List.length l)).

(** The reservations of a date. *)
Definition del_dia (bd : BD) (f : date) : list Reservacion :=
  filter (en_fecha (toordinal f)) (reservaciones bd).

(** A second example: the same client and room, Monday 2024-06-10. *)
Module Sesion1.

(** No clock change during the session. *)
Definition reloj (_ : nat) : date * time := (Ejemplo.hoy, 100).

(** Register a client and a room, reserve Thursday afternoon, rename the
    event, and leave. *)
Definition guion : list str :=
  [of_ascii "1"; of_ascii "Ana"; of_ascii "Lopez";
   of_ascii "2"; of_ascii "Sala A"; of_ascii "10";
   of_ascii "3"; of_ascii "1"; of_ascii "06-13-2024"; of_ascii "1";
   of_ascii "tarde"; of_ascii "Kickoff";
   of_ascii "4"; of_ascii "06-13-2024"; of_ascii "06-13-2024";
   of_ascii "1"; of_ascii "Team Sync";
   of_ascii "9";
   of_ascii "6"; of_ascii "S"].

End Sesion1.

(** The room of the first example with all three shifts of Thursday
    2024-06-13 taken. *)
Module Lleno.

Definition guion_manana : list str :=
  [of_ascii "1"; of_ascii "06-13-2024"; of_ascii "1"; t_manana;
   of_ascii "Desayuno"].

Definition bd5 : BD :=
  snd (registrar_reservacion (B := ascii_builtins) Ejemplo.bd4 Ejemplo.hoy
         300 guion_manana).

Definition noche_bd4 : Reservacion :=
  mkReservacion 2 1 1 (combine Ejemplo.jueves 200) t_noche (of_ascii "Cena").

End Lleno.

(** A reservation without its event name, the one field an edit changes. *)
Definition sin_evento (r : Reservacion) : Z * Z * Z * datetime * str :=
  (folio r, res_id_cliente r, res_id_sala r, fecha_registro r, turno r).

(** [bd'] holds everything [bd] holds, in the same order, and maybe more
    rows after it; only event names may differ. *)
Definition crece (bd bd' : BD) : Prop :=
  (exists cs, clientes bd' = clientes bd ++ cs)
  /\ (exists ss, salas bd' = salas bd ++ ss)
  /\ (exists rs, map sin_evento (reservaciones bd')
                 = map sin_evento (reservaciones bd) ++ rs).

(** The tables at the end of the session of [Sesion1]. *)
Definition final_de_sesion1 : BD :=
  match menu (B := ascii_builtins) Sesion1.reloj None Sesion1.guion with
  | Some (_, _, _, bd) => bd
  | None => bd_vacia
  end.

(** * Properties *)

(** ** Strings *)

Lemma str_eqb_eq (a b : str) : str_eqb a b = true <-> a = b.
Proof.
  revert b; induction a as [|x a IH]; intros [|y b]; simpl;
    try (split; [discriminate | congruence]); try tauto.
  rewrite andb_true_iff, N.eqb_eq, IH.
  split; [intros [-> ->]; reflexivity | intros H; inversion H; auto].
Qed.

Lemma str_eqb_refl (a : str) : str_eqb a a = true.
Proof. apply str_eqb_eq; reflexivity. Qed.

Lemma str_eqb_neq (a b : str) : str_eqb a b = false <-> a <> b.
Proof.
  rewrite <- str_eqb_eq. destruct (str_eqb a b); split; congruence.
Qed.

Lemma str_leb_total (a b : str) : str_leb a b = true \/ str_leb b a = true.
Proof.
  revert b; induction a as [|x a IH]; intros [|y b]; simpl; auto.
  destruct (N.ltb_spec x y), (N.ltb_spec y x); auto; try lia.
  assert (x = y) by lia; subst. rewrite N.eqb_refl. apply IH.
Qed.

Lemma str_leb_trans (a b c : str) :
  str_leb a b = true -> str_leb b c = true -> str_leb a c = true.
Proof.
  revert b c; induction a as [|x a IH]; intros [|y b] [|z c]; simpl; auto;
    try discriminate.
  destruct (N.ltb_spec x y), (N.ltb_spec y z), (N.ltb_spec x z); auto;
    try lia.
  - destruct (N.eqb_spec y z); [lia | discriminate].
  - destruct (N.eqb_spec x y); [lia | discriminate].
  - destruct (N.eqb_spec x y), (N.eqb_spec y z), (N.eqb_spec x z);
      try discriminate; try lia.
    apply IH.
Qed.

Lemma lstrip_cabeza (s : str) :
  lstrip s = [] \/ exists c r, lstrip s = c :: r /\ isspace c = false.
Proof.
  induction s as [|c s IH]; simpl; auto.
  destruct (isspace c) eqn:E; auto.
  right; exists c, s; auto.
Qed.

Lemma rstrip_cons (c : N) (s : str) :
  isspace c = false -> rstrip (c :: s) = c :: rstrip s.
Proof. intros E; simpl. rewrite E. destruct (rstrip s); reflexivity. Qed.

Lemma rstrip_idem (s : str) : rstrip (rstrip s) = rstrip s.
Proof.
  induction s as [|c s IH]; simpl; auto.
  destruct (rstrip s) as [|d t] eqn:E.
  - destruct (isspace c) eqn:Ec; simpl; auto. rewrite Ec; reflexivity.
  - change (match rstrip (d :: t) with
            | [] => if isspace c then [] else [c]
            | u => c :: u
            end = c :: d :: t).
    rewrite IH. reflexivity.
Qed.

(** Stripping twice is stripping once. *)
Lemma strip_idem (s : str) : strip (strip s) = strip s.
Proof.
  unfold strip.
  destruct (lstrip_cabeza s) as [E | (c & r & E & Hc)]; rewrite E.
  - reflexivity.
  - rewrite (rstrip_cons c r Hc). simpl lstrip. rewrite Hc.
    rewrite (rstrip_cons _ _ Hc), rstrip_idem. reflexivity.
Qed.

Lemma no_vacio_iff (s : str) : no_vacio s = true <-> s <> [].
Proof. destruct s; simpl; split; congruence. Qed.

(** ** Dates *)

Lemma fromordinal_some (n : Z) :
  en_rango n = true -> exists d, fromordinal n = Some d /\ toordinal d = n.
Proof.
  intros H. unfold fromordinal.
  destruct (bool_dec (en_rango n) true) as [E|E]; [|contradiction].
  eexists; split; reflexivity.
Qed.

Lemma fromordinal_inv (n : Z) (d : date) :
  fromordinal n = Some d -> toordinal d = n.
Proof.
  unfold fromordinal.
  destruct (bool_dec (en_rango n) true); [|discriminate].
  intros H; inversion H; reflexivity.
Qed.

Lemma date_rango (d : date) : 1 <= toordinal d <= 3652059.
Proof.
  pose proof (ord_ok d) as H. unfold en_rango in H.
  apply andb_true_iff in H. destruct H as [H1 H2].
  apply Z.leb_le in H1, H2. lia.
Qed.

(** The day after a Sunday exists: [date.max] is a Friday. *)
Lemma domingo_mas_uno (d : date) :
  weekday d = 6 ->
  exists d', mas_dias d 1 = Some d' /\ toordinal d' = toordinal d + 1.
Proof.
  intros Hw. apply fromordinal_some.
  pose proof (date_rango d) as Hr.
  assert (toordinal d <> 3652059).
  { intros E. unfold weekday in Hw. rewrite E in Hw. discriminate Hw. }
  unfold en_rango. apply andb_true_iff; split; apply Z.leb_le; lia.
Qed.

Lemma lunes_tras_domingo (d d' : date) :
  weekday d = 6 -> toordinal d' = toordinal d + 1 -> weekday d' = 0.
Proof.
  unfold weekday. intros H E. rewrite E.
  replace (toordinal d + 1 + 6) with ((toordinal d + 6) + 1 * 7 - 6) by lia.
  pose proof (Z.mod_pos_bound (toordinal d + 6) 7 ltac:(lia)).
  pose proof (Z.div_mod (toordinal d + 6) 7 ltac:(lia)) as Hd.
  rewrite H in Hd.
  replace (toordinal d + 6 + 1 * 7 - 6)
    with (0 + (1 + (toordinal d + 6) / 7) * 7) by lia.
  rewrite Z.mod_add by lia. reflexivity.
Qed.

(** ** Sorting *)

Section OrdenLemas.
Context {A : Type} (leb : A -> A -> bool).

Lemma insertar_perm (x : A) (l : list A) :
  Permutation (x :: l) (insertar leb x l).
Proof.
  induction l as [|y l IH]; simpl; auto.
  destruct (leb x y); auto.
  apply perm_trans with (y :: x :: l); [apply perm_swap | auto].
Qed.

Lemma ordenar_perm (l : list A) : Permutation l (ordenar leb l).
Proof.
  induction l as [|x l IH]; simpl; auto.
  apply perm_trans with (x :: ordenar leb l); auto using insertar_perm.
Qed.

Lemma ordenar_in (x : A) (l : list A) : In x (ordenar leb l) <-> In x l.
Proof.
  split; apply Permutation_in;
    [apply Permutation_sym|]; apply ordenar_perm.
Qed.

Lemma ordenar_nil (l : list A) : ordenar leb l = [] -> l = [].
Proof.
  intros E. apply Permutation_nil. rewrite <- E.
  apply Permutation_sym, ordenar_perm.
Qed.

Lemma filter_perm (p : A -> bool) (l l' : list A) :
  Permutation l l' -> Permutation (filter p l) (filter p l').
Proof.
  induction 1 as [|x l l' _ IH|x y l|l l' l'' _ IH1 _ IH2]; simpl; auto.
  - destruct (p x); auto.
  - destruct (p x), (p y); auto. apply perm_swap.
  - eapply perm_trans; eauto.
Qed.

(** Selecting after sorting: one hit before is the same one hit after. *)
Lemma filter_ordenar_uno (p : A -> bool) (l : list A) (x : A) :
  filter p l = [x] -> filter p (ordenar leb l) = [x].
Proof.
  intros E. apply Permutation_length_1_inv. rewrite <- E.
  apply filter_perm, ordenar_perm.
Qed.

Hypothesis leb_total : forall a b, leb a b = true \/ leb b a = true.
Hypothesis leb_trans :
  forall a b c, leb a b = true -> leb b c = true -> leb a c = true.

Lemma insertar_sorted (x : A) (l : list A) :
  StronglySorted (fun a b => leb a b = true) l ->
  StronglySorted (fun a b => leb a b = true) (insertar leb x l).
Proof.
  induction 1 as [|y l Hs IH Hy]; simpl.
  - constructor; constructor.
  - destruct (leb x y) eqn:E.
    + constructor; [constructor; auto|].
      constructor; auto.
      rewrite Forall_forall in *; eauto.
    + constructor; auto.
      rewrite Forall_forall in *. intros z Hz.
      apply (Permutation_in _ (Permutation_sym (insertar_perm x l))) in Hz.
      destruct Hz as [<-|Hz]; auto.
      destruct (leb_total x y); congruence.
Qed.

Lemma ordenar_sorted (l : list A) :
  StronglySorted (fun a b => leb a b = true) (ordenar leb l).
Proof.
  induction l; simpl; [constructor | apply insertar_sorted; auto].
Qed.
End OrdenLemas.

(** ** Keys *)

Lemma siguiente_mayor (l : list Z) (k : Z) : In k l -> k < siguiente l.
Proof.
  unfold siguiente. induction l as [|x l IH]; cbn [fold_right In]; [tauto|].
  intros [->|H]; [lia | specialize (IH H); lia].
Qed.

Lemma siguiente_nueva (l : list Z) : ~ In (siguiente l) l.
Proof. intros H. apply siguiente_mayor in H. lia. Qed.

Lemma NoDup_snoc {A} (l : list A) (x : A) :
  NoDup l -> ~ In x l -> NoDup (l ++ [x]).
Proof.
  intros Hl Hx. apply NoDup_app; auto.
  - repeat constructor; simpl; tauto.
  - intros a Ha [<-|[]]; auto.
Qed.

(** ** Plumbing *)

Lemma resultado_tras {A} (m : Msg) (x : IO A) :
  resultado (tras m x) = resultado x.
Proof. destruct x as [[r i] o]; reflexivity. Qed.

Lemma impreso_tras {A} (m : Msg) (x : IO A) :
  impreso (tras m x) = m :: impreso x.
Proof. destruct x as [[r i] o]; reflexivity. Qed.

Lemma restantes_tras {A} (m : Msg) (x : IO A) :
  restantes (tras m x) = restantes x.
Proof. destruct x as [[r i] o]; reflexivity. Qed.

Lemma avisos_nil (R : option Msg) : avisos R [].
Proof. intros m []. Qed.

Lemma avisos_cons (R : option Msg) (m : Msg) (o : list Msg) :
  ordinario m -> avisos R o -> avisos R (m :: o).
Proof. intros Hm Ho x [<-|Hx]; auto. Qed.

Lemma avisos_app (R : option Msg) (o o' : list Msg) :
  avisos R o -> avisos R o' -> avisos R (o ++ o').
Proof. intros H H' m Hm. apply in_app_or in Hm. destruct Hm; auto. Qed.

Lemma avisos_debil (R : option Msg) (o : list Msg) :
  avisos None o -> avisos R o.
Proof.
  intros H m Hm. destruct (H m Hm) as [|E]; [auto | discriminate].
Qed.

(** ** The prompts of the program *)

#[local] Arguments en_lista : simpl never.
#[local] Arguments int64 : simpl never.
#[local] Arguments sala_disponible : simpl never.
#[local] Arguments validar_evento : simpl never.
#[local] Arguments validar_clave_cliente : simpl never.
#[local] Arguments select_clientes : simpl never.
#[local] Arguments disponible_salas : simpl never.
#[local] Arguments reservaciones_en_rango : simpl never.

Section Propiedades.
Context {B : Builtins}.

Lemma validar_fecha_simple_ok (hoy : date) (s : str) (f : date)
    (o : list Msg) :
  validar_fecha_simple hoy s = (Some f, o) ->
  o = [] /\ strptime s = Some f /\ 2 <= dias_entre f hoy /\ weekday f <> 6.
Proof.
  unfold validar_fecha_simple.
  destruct (strptime s) as [d|]; [|discriminate].
  destruct (Z.ltb_spec (dias_entre d hoy) 2); [discriminate|].
  destruct (Z.eqb_spec (weekday d) 6); [discriminate|].
  intros E; inversion E; subst; auto.
Qed.

Lemma validar_fecha_simple_avisos (hoy : date) (s : str) :
  avisos None (snd (validar_fecha_simple hoy s)).
Proof.
  unfold validar_fecha_simple.
  destruct (strptime s) as [d|]; simpl.
  - destruct (_ <? _); simpl; [|destruct (_ =? _); simpl];
      try apply avisos_nil; apply avisos_cons; simpl; auto using avisos_nil.
  - apply avisos_cons; simpl; auto using avisos_nil.
Qed.

Lemma pedir_cliente_spec (cs : list Cliente) (ins : list str) :
  avisos None (impreso (pedir_cliente cs ins)) /\
  forall c, resultado (pedir_cliente cs ins) = Ret (Some c) ->
            validar_clave_cliente c cs = true.
Proof.
  induction ins as [|a ins IH]; simpl.
  - split; [apply avisos_nil | discriminate].
  - destruct (int_ a) as [id|].
    + destruct (id =? 0).
      { split; [apply avisos_nil | discriminate]. }
      destruct (validar_clave_cliente id cs) eqn:E.
      * split; [apply avisos_nil|].
        intros c H; inversion H; subst; auto.
      * rewrite impreso_tras, resultado_tras.
        split; [apply avisos_cons; simpl; tauto | apply IH].
    + rewrite impreso_tras, resultado_tras.
      split; [apply avisos_cons; simpl; tauto | apply IH].
Qed.

Lemma pedir_fecha_spec (hoy : date) (ins : list str) :
  avisos None (impreso (pedir_fecha hoy ins)) /\
  forall f, resultado (pedir_fecha hoy ins) = Ret f ->
            2 <= dias_entre f hoy /\ weekday f <> 6.
Proof.
  induction ins as [|a ins IH]; simpl.
  - split; [apply avisos_nil | discriminate].
  - pose proof (validar_fecha_simple_avisos hoy (strip a)) as Ha.
    destruct (validar_fecha_simple hoy (strip a)) as [[d|] o] eqn:E.
    + split; [exact Ha|].
      intros f H; inversion H; subst.
      apply validar_fecha_simple_ok in E. tauto.
    + destruct (pedir_fecha hoy ins) as [[r i] o'].
      split; [apply avisos_app; [exact Ha | apply IH] | apply IH].
Qed.

Lemma pedir_sala_acotada (bd : BD) (fecha : date) (n : nat) :
  forall ins, (List.length ins <= n)%nat ->
  avisos None (impreso (pedir_sala bd fecha ins)) /\
  forall id t, resultado (pedir_sala bd fecha ins) = Ret (id, t) ->
    en_lista t TURNOS = true /\ int64 id = true
    /\ sala_disponible bd id fecha t = true.
Proof.
  induction n as [|n IH]; intros [|a ins] Hn; simpl in *;
    try (split; [apply avisos_nil | discriminate]); try lia.
  destruct (int_ a) as [id|].
  - destruct ins as [|b ins]; simpl in *.
    { split; [apply avisos_nil | discriminate]. }
    destruct (en_lista (lower b) TURNOS) eqn:Et; simpl.
    + destruct (int64 id) eqn:Ei; simpl.
      * destruct (sala_disponible bd id fecha (lower b)) eqn:Ed; simpl.
        -- split; [apply avisos_nil|].
           intros id' t' H; inversion H; subst; auto.
        -- rewrite impreso_tras, resultado_tras.
           split; [apply avisos_cons; simpl; auto|]; apply IH; lia.
      * split; [apply avisos_nil | discriminate].
    + rewrite impreso_tras, resultado_tras.
      split; [apply avisos_cons; simpl; auto|]; apply IH; lia.
  - rewrite impreso_tras, resultado_tras.
    split; [apply avisos_cons; simpl; auto|]; apply IH; lia.
Qed.

Lemma pedir_sala_spec (bd : BD) (fecha : date) (ins : list str) :
  avisos None (impreso (pedir_sala bd fecha ins)) /\
  forall id t, resultado (pedir_sala bd fecha ins) = Ret (id, t) ->
    en_lista t TURNOS = true /\ int64 id = true
    /\ sala_disponible bd id fecha t = true.
Proof. apply (pedir_sala_acotada bd fecha (List.length ins)); lia. Qed.

Lemma pedir_evento_spec (ins : list str) :
  avisos None (impreso (pedir_evento ins)) /\
  forall e, resultado (pedir_evento ins) = Ret e -> validar_evento e = true.
Proof.
  induction ins as [|a ins IH]; simpl.
  - split; [apply avisos_nil | discriminate].
  - destruct (validar_evento (strip a)) eqn:E.
    + split; [apply avisos_nil|].
      intros e H; inversion H; subst; auto.
    + rewrite impreso_tras, resultado_tras.
      split; [apply avisos_cons; simpl; tauto | apply IH].
Qed.

Lemma pedir_folio_spec (rs : list (Z * str * datetime)) (ins : list str) :
  forall f, resultado (pedir_folio rs ins) = Ret (Some f) ->
            existsb (fun r => fst (fst r) =? f) rs = true.
Proof.
  induction ins as [|a ins IH]; intros f; cbn [pedir_folio];
    rewrite !resultado_tras.
  - discriminate.
  - destruct (int_ a) as [g|].
    + destruct (g =? 0); [discriminate|].
      destruct (existsb _ rs) eqn:E.
      * intros H; inversion H; subst; auto.
      * rewrite resultado_tras. apply IH.
    + rewrite resultado_tras. apply IH.
Qed.

Lemma pedir_nuevo_evento_spec (ins : list str) :
  forall e, resultado (pedir_nuevo_evento ins) = Ret e ->
            no_vacio e = true /\ strip e = e.
Proof.
  induction ins as [|a ins IH]; simpl; intros e.
  - discriminate.
  - destruct (no_vacio (strip a)) eqn:E.
    + intros H; inversion H; subst. split; [auto | apply strip_idem].
    + rewrite resultado_tras. apply IH.
Qed.

(** ** What each operation does to the tables *)

Lemma snd_luego {A C} (bd : BD) (x : IO A)
    (k : A -> list str -> IO C * BD) :
  snd (luego bd x k) =
  match resultado x with
  | Ret a => snd (k a (restantes x))
  | Raise _ => bd
  end.
Proof.
  destruct x as [[[a|e] i] o]; unfold resultado, restantes; simpl; auto.
  destruct (k a i) as [[[r' i'] o'] bd']; reflexivity.
Qed.

Lemma existsb_ordenar {A} (leb : A -> A -> bool) (p : A -> bool)
    (l : list A) :
  existsb p (ordenar leb l) = true -> existsb p l = true.
Proof.
  rewrite !existsb_exists. intros (x & Hx & Hp).
  exists x; split; auto. apply (ordenar_in leb); auto.
Qed.

Lemma efecto_tras (bd : BD) (hoy : date) (ahora : time) (m : Msg)
    (x : IO unit * BD) :
  ordinario m -> efecto_reserva bd hoy ahora x ->
  efecto_reserva bd hoy ahora (tras_bd m x).
Proof.
  intros Hm [[E Ha]|(c & s & f & t & e & cl & sa & H)];
    destruct x as [[[r i] o] bd']; simpl in *.
  - left; split; auto. apply avisos_cons; auto.
  - right. exists c, s, f, t, e, cl, sa.
    unfold alta in *; simpl in *.
    destruct H as (H1 & H2 & H3 & H4 & H5).
    repeat split; try tauto.
    apply avisos_cons; auto.
Qed.

Lemma efecto_luego {A} (bd : BD) (hoy : date) (ahora : time) (x : IO A)
    (k : A -> list str -> IO unit * BD) :
  avisos None (impreso x) ->
  (forall a, resultado x = Ret a ->
             efecto_reserva bd hoy ahora (k a (restantes x))) ->
  efecto_reserva bd hoy ahora (luego bd x k).
Proof.
  destruct x as [[[a|e] i] o]; unfold resultado, restantes, impreso;
    simpl; intros Ho Hk.
  - specialize (Hk a eq_refl).
    destruct (k a i) as [[[r' i'] o'] bd'].
    destruct Hk as [[E Ha]|(c & s & f & t & ev & cl & sa & H)];
      simpl in *.
    + left; split; auto. apply avisos_app; auto.
    + right. exists c, s, f, t, ev, cl, sa.
      unfold alta in *; simpl in *.
      destruct H as (H1 & H2 & H3 & H4 & H5).
      repeat split; try tauto.
      * apply in_or_app; auto.
      * apply avisos_app; auto using avisos_debil.
  - left; split; auto.
Qed.

Lemma efecto_nada (bd : BD) (hoy : date) (ahora : time) (r : Res unit)
    (i : list str) (o : list Msg) :
  avisos None o -> efecto_reserva bd hoy ahora ((r, i, o), bd).
Proof. intros H; left; split; auto. Qed.

Lemma guardar_efecto (bd : BD) (hoy : date) (ahora : time) (c s : Z)
    (fecha : date) (t e : str) (ins : list str) :
  existsClient bd c = true ->
  2 <= dias_entre fecha hoy -> weekday fecha <> 6 ->
  en_lista t TURNOS = true -> int64 s = true ->
  sala_disponible bd s fecha t = true ->
  validar_evento e = true ->
  efecto_reserva bd hoy ahora (guardar bd ahora c s fecha t e ins).
Proof.
  intros Hc Hd Hw Ht Hi Hs He. unfold guardar.
  destruct (select_nombre_cliente bd c) as [|cl lc] eqn:Ec.
  { apply efecto_nada, avisos_nil. }
  destruct (select_nombre_sala bd s) as [|sa ls] eqn:Es.
  { apply efecto_nada, avisos_nil. }
  right. exists c, s, fecha, t, e, cl, sa.
  unfold alta; simpl. rewrite Ec, Es.
  repeat split; eauto.
  intros m [<-|[]]; auto.
Qed.

(** Every run of [registrar_reservacion]. *)
Lemma registrar_reservacion_efecto (bd : BD) (hoy : date) (ahora : time)
    (ins : list str) :
  efecto_reserva bd hoy ahora (registrar_reservacion bd hoy ahora ins).
Proof.
  unfold registrar_reservacion.
  destruct (select_clientes bd) as [|c0 cs] eqn:Ecs.
  { apply efecto_nada, avisos_cons; simpl; auto using avisos_nil. }
  apply efecto_tras; [exact I|].
  destruct (pedir_cliente_spec (c0 :: cs) ins) as [Ho1 Hc].
  apply efecto_luego; [exact Ho1|].
  intros [c|] E1; [|apply efecto_nada, avisos_nil].
  apply Hc in E1.
  assert (Hcl : existsClient bd c = true).
  { unfold existsClient. rewrite <- Ecs in E1.
    apply existsb_ordenar in E1. exact E1. }
  destruct (pedir_fecha_spec hoy (restantes (pedir_cliente (c0 :: cs) ins)))
    as [Ho2 Hf].
  apply efecto_luego; [exact Ho2|].
  intros fecha E2. apply Hf in E2. destruct E2 as [Hd Hw].
  destruct (salas bd) as [|s0 ss] eqn:Ess.
  { apply efecto_nada, avisos_cons; simpl; auto using avisos_nil. }
  destruct (disponible_salas bd (s0 :: ss) fecha) as [|d0 ds] eqn:Eds.
  { apply efecto_nada, avisos_cons; simpl; auto using avisos_nil. }
  apply efecto_tras; [exact I|].
  match goal with
  | |- context [pedir_sala bd fecha ?i] =>
      destruct (pedir_sala_spec bd fecha i) as [Ho3 Hs]
  end.
  apply efecto_luego; [exact Ho3|].
  intros [s t] E3. apply Hs in E3. destruct E3 as (Ht & Hi & Hlibre).
  match goal with
  | |- context [pedir_evento ?i] =>
      destruct (pedir_evento_spec i) as [Ho4 He]
  end.
  apply efecto_luego; [exact Ho4|].
  intros e E4. apply He in E4.
  apply guardar_efecto; auto.
Qed.

(** Every run of [editar_evento]. *)
Lemma editar_evento_efecto (bd : BD) (ins : list str) :
  efecto_edicion bd (editar_evento bd ins).
Proof.
  unfold editar_evento, efecto_edicion.
  destruct ins as [|a [|b ins]]; auto.
  destruct (strptime a) as [fi|]; auto.
  destruct (strptime b) as [ff|]; auto.
  destruct (reservaciones_en_rango bd fi ff) as [|r0 rs]; auto.
  rewrite snd_luego.
  destruct (resultado (pedir_folio (r0 :: rs) ins)) as [[f|]|]; auto.
  rewrite snd_luego.
  match goal with
  | |- context [pedir_nuevo_evento ?i] =>
      pose proof (pedir_nuevo_evento_spec i) as He;
      destruct (resultado (pedir_nuevo_evento i)) as [e|]; auto
  end.
  destruct (He e eq_refl) as [H1 H2].
  right; exists e, f; auto.
Qed.

Lemma registrar_cliente_efecto (bd : BD) (ins : list str) :
  snd (registrar_cliente bd ins) = bd
  \/ exists n a, snd (registrar_cliente bd ins) = insert_cliente bd n a.
Proof.
  unfold registrar_cliente.
  destruct ins as [|a [|b ins]]; simpl; auto;
    repeat (destruct (negb _); simpl; auto).
  right; eauto.
Qed.

Lemma registrar_sala_efecto (bd : BD) (ins : list str) :
  snd (registrar_sala bd ins) = bd
  \/ exists n c, snd (registrar_sala bd ins) = insert_sala bd n c.
Proof.
  unfold registrar_sala.
  destruct ins as [|a [|b ins]]; simpl; auto;
    destruct (negb _); simpl; auto.
  destruct (int_ b) as [c|]; simpl; auto.
  destruct (c <=? 0); simpl; auto.
  destruct (negb _); simpl; auto.
  right; eauto.
Qed.

(** ** Availability *)

Lemma coincide_ranura (id : Z) (f : date) (t : str) (r : Reservacion) :
  coincide id f t r = true <-> ranura r = (id, toordinal f, t).
Proof.
  unfold coincide, en_fecha, ranura.
  rewrite !andb_true_iff, !Z.eqb_eq, str_eqb_eq.
  split; [intros [[-> ->] ->]; reflexivity | intros H; inversion H; auto].
Qed.

Lemma filter_vacio {A} (p : A -> bool) (l : list A) :
  (List.length (filter p l) =? 0)%nat = true <->
  forall x, In x l -> p x = false.
Proof.
  rewrite Nat.eqb_eq. induction l as [|y l IH]; simpl.
  - split; [intros _ x [] | reflexivity].
  - destruct (p y) eqn:E; simpl.
    + split; [discriminate|]. intros H. specialize (H y (or_introl eq_refl)).
      congruence.
    + rewrite IH. split.
      * intros H x [<-|Hx]; auto.
      * intros H x Hx; auto.
Qed.

Lemma sala_disponible_libre (bd : BD) (id : Z) (f : date) (t : str) :
  sala_disponible bd id f t = true <-> ~ ocupada bd id f t.
Proof.
  unfold sala_disponible, ocupada. rewrite filter_vacio. split.
  - intros H (r & Hr & E). apply coincide_ranura in E.
    rewrite (H r Hr) in E. discriminate.
  - intros H r Hr. destruct (coincide id f t r) eqn:E; auto.
    exfalso. apply H. exists r; split; auto. apply coincide_ranura; auto.
Qed.

Lemma sala_disponible_ocupada (bd : BD) (id : Z) (f : date) (t : str) :
  sala_disponible bd id f t = false <-> ocupada bd id f t.
Proof.
  split.
  - intros E. unfold sala_disponible in E. unfold ocupada.
    induction (reservaciones bd) as [|r l IH]; simpl in E; [discriminate|].
    destruct (coincide id f t r) eqn:Ec.
    + exists r; split; [left; auto | apply coincide_ranura; auto].
    + destruct (IH E) as (x & Hx & Hr). exists x; split; [right|]; auto.
  - intros H. destruct (sala_disponible bd id f t) eqn:E; auto.
    apply sala_disponible_libre in E. contradiction.
Qed.

(** ** The invariant *)

Lemma integra_vacia : integra bd_vacia.
Proof. repeat split; simpl; constructor. Qed.

Lemma integra_insert_cliente (bd : BD) (n a : str) :
  integra bd -> integra (insert_cliente bd n a).
Proof.
  intros (H1 & H2 & [H3 H4] & H5). repeat split; simpl; auto.
  rewrite map_app. apply NoDup_snoc; auto. apply siguiente_nueva.
Qed.

Lemma integra_insert_sala (bd : BD) (n : str) (c : Z) :
  integra bd -> integra (insert_sala bd n c).
Proof.
  intros (H1 & H2 & [H3 H4] & H5). repeat split; simpl; auto.
  rewrite map_app. apply NoDup_snoc; auto. apply siguiente_nueva.
Qed.

Lemma integra_insert_reservacion (bd : BD) (c s : Z) (fh : datetime)
    (t e : str) :
  integra bd ->
  sala_disponible bd s (dt_fecha fh) t = true ->
  validar_evento e = true -> en_lista t TURNOS = true ->
  int64 s = true ->
  integra (insert_reservacion bd c s fh t e).
Proof.
  intros (H1 & H2 & H3 & H4) Hs He Ht Hi.
  unfold integra, insert_reservacion; simpl. rewrite !map_app.
  repeat split; auto.
  - apply NoDup_snoc; auto. simpl. intros Hin.
    apply in_map_iff in Hin. destruct Hin as (r & Er & Hr).
    apply sala_disponible_libre in Hs. apply Hs.
    exists r; split; auto.
  - apply NoDup_snoc; auto. apply siguiente_nueva.
  - destruct H3; auto.
  - destruct H3; auto.
  - apply Forall_app; split; auto.
    constructor; [|constructor]. simpl. repeat split; auto.
    apply no_vacio_iff. exact He.
Qed.

Lemma ranura_con_evento (e : str) (f : Z) (r : Reservacion) :
  ranura (if folio r =? f then con_evento e r else r) = ranura r.
Proof. destruct (folio r =? f); reflexivity. Qed.

Lemma folio_con_evento (e : str) (f : Z) (r : Reservacion) :
  folio (if folio r =? f then con_evento e r else r) = folio r.
Proof. destruct (folio r =? f); reflexivity. Qed.

Lemma integra_update_evento (bd : BD) (e : str) (f : Z) :
  integra bd -> no_vacio e = true -> strip e = e ->
  integra (update_evento bd e f).
Proof.
  intros (H1 & H2 & H3 & H4) Hn He.
  unfold integra, update_evento; simpl. rewrite !map_map.
  repeat split.
  - rewrite (map_ext _ ranura); auto using ranura_con_evento.
  - rewrite (map_ext _ folio); auto using folio_con_evento.
  - destruct H3; auto.
  - destruct H3; auto.
  - rewrite Forall_forall in *. intros r' Hr'.
    apply in_map_iff in Hr'. destruct Hr' as (r & <- & Hr).
    specialize (H4 r Hr). destruct (folio r =? f); auto.
    simpl. repeat split; try tauto.
    rewrite He. apply no_vacio_iff; auto.
Qed.

Lemma integra_paso (bd bd' : BD) : integra bd -> paso bd bd' -> integra bd'.
Proof.
  intros H Hp; revert H.
  destruct Hp as [b ins|b ins|b hoy ahora ins|b ins]; intros H.
  - destruct (registrar_cliente_efecto b ins) as [->|(n & a & ->)];
      auto using integra_insert_cliente.
  - destruct (registrar_sala_efecto b ins) as [->|(n & c & ->)];
      auto using integra_insert_sala.
  - destruct (registrar_reservacion_efecto b hoy ahora ins)
      as [[-> _]|(c & s & f & t & e & cl & sa & Ha)]; auto.
    destruct Ha as (-> & _ & _ & _ & _ & _ & _ & Ht & Hi & Hs & He & _).
    apply integra_insert_reservacion; auto.
  - destruct (editar_evento_efecto b ins) as [->|(e & f & Hn & He & ->)];
      auto using integra_update_evento.
Qed.

Lemma integra_alcanzable (bd : BD) : alcanzable bd -> integra bd.
Proof.
  induction 1; [apply integra_vacia | eapply integra_paso; eauto].
Qed.

(** ** Date validation *)

(** C4.  A parsed date fewer than 2 days after today is refused with the
    lead-time message by both validators; a parsed date 2 or more days
    ahead never gets that message, and is returned as it is when it is
    not a Sunday. *)
Theorem anticipacion_minima (hoy : date) (s : str) (d : date)
    (ins : list str) :
  strptime s = Some d ->
  (dias_entre d hoy < 2 ->
     validar_fecha hoy s ins = (Ret None, ins, [Anticipacion])
     /\ validar_fecha_simple hoy s = (None, [AnticipacionSimple])
     /\ primer_error [Anticipacion] = Some DateTooSoon
     /\ primer_error [AnticipacionSimple] = Some DateTooSoon)
  /\ (2 <= dias_entre d hoy ->
        ~ In Anticipacion (impreso (validar_fecha hoy s ins))
        /\ ~ In AnticipacionSimple (snd (validar_fecha_simple hoy s))
        /\ (weekday d <> 6 ->
              validar_fecha hoy s ins = (Ret (Some d), ins, [])
              /\ validar_fecha_simple hoy s = (Some d, []))).
Proof.
  intros Hp. unfold validar_fecha, validar_fecha_simple. rewrite Hp.
  split; intros Hd.
  - apply Z.ltb_lt in Hd. rewrite Hd. auto.
  - apply Z.ltb_ge in Hd. rewrite Hd.
    destruct (Z.eqb_spec (weekday d) 6) as [Hw|Hw].
    + destruct (domingo_mas_uno d Hw) as (d1 & -> & _).
      rewrite impreso_tras. simpl.
      repeat split; try tauto.
      * intros [E|H]; [discriminate|].
        destruct ins as [|a ins]; simpl in H; [tauto|].
        destruct (str_eqb _ _); simpl in H; tauto.
      * intros [E|[]]; discriminate.
    + simpl. repeat split; tauto.
Qed.

(** C5.  A parsed Sunday 2 or more days ahead: the strict validator
    refuses it; the interactive one proposes the next day, returns that
    day when the answer is "s" and refuses otherwise. *)
Theorem domingo_bloqueado (hoy : date) (s : str) (d : date) :
  strptime s = Some d -> 2 <= dias_entre d hoy -> weekday d = 6 ->
  validar_fecha_simple hoy s = (None, [DomingoNoPermitido])
  /\ primer_error [DomingoNoPermitido] = Some SundayBlocked
  /\ exists d1, toordinal d1 = toordinal d + 1 /\
       forall a ins,
         validar_fecha hoy s (a :: ins) =
         if str_eqb (lower a) (of_ascii "s")
         then (Ret (Some d1), ins, [DomingoSugerido d1])
         else (Ret None, ins, [DomingoSugerido d1]).
Proof.
  intros Hp Hd Hw. unfold validar_fecha, validar_fecha_simple. rewrite Hp.
  apply Z.ltb_ge in Hd. rewrite Hd, Hw. simpl.
  repeat split.
  destruct (domingo_mas_uno d Hw) as (d1 & E & Ho).
  exists d1; split; auto. intros a ins.
  fold (mas_dias d 1). rewrite E. simpl.
  destruct (str_eqb _ _); reflexivity.
Qed.

(** C10.  Whatever date the interactive validator returns, substituted
    or not, is not a Sunday and is 2 or more days after today. *)
Theorem fecha_devuelta_valida (hoy : date) (s : str) (ins : list str)
    (f : date) (i : list str) (o : list Msg) :
  validar_fecha hoy s ins = (Ret (Some f), i, o) ->
  weekday f <> 6 /\ 2 <= dias_entre f hoy.
Proof.
  unfold validar_fecha.
  destruct (strptime s) as [d|]; [|discriminate].
  destruct (Z.ltb_spec (dias_entre d hoy) 2) as [Hd|Hd]; [discriminate|].
  destruct (Z.eqb_spec (weekday d) 6) as [Hw|Hw].
  - destruct (mas_dias d 1) as [d1|] eqn:E; [|discriminate].
    apply fromordinal_inv in E.
    destruct ins as [|a ins]; simpl; [discriminate|].
    destruct (str_eqb _ _); intros H; inversion H; subst.
    rewrite (lunes_tras_domingo d f Hw E).
    unfold dias_entre in *. split; [discriminate | lia].
  - intros H; inversion H; subst. auto.
Qed.

(** ** Reservations *)

(** C1.  In every store the program can reach, no two reservations share
    room, date and shift: a run of [registrar_reservacion] adds at most
    one reservation, in a slot no reservation held, and a run of
    [editar_evento] leaves every slot as it was. *)
Theorem ranura_unica (bd : BD) :
  alcanzable bd ->
  NoDup (map ranura (reservaciones bd))
  /\ (forall hoy ahora ins,
        let bd' := snd (registrar_reservacion bd hoy ahora ins) in
        reservaciones bd' = reservaciones bd
        \/ exists r, reservaciones bd' = reservaciones bd ++ [r]
                     /\ ~ In (ranura r) (map ranura (reservaciones bd)))
  /\ (forall ins,
        map ranura (reservaciones (snd (editar_evento bd ins)))
        = map ranura (reservaciones bd)).
Proof.
  intros Ha. split; [apply integra_alcanzable; auto|]. split.
  - intros hoy ahora ins bd'. subst bd'.
    destruct (registrar_reservacion_efecto bd hoy ahora ins)
      as [[-> _]|(c & s & f & t & e & cl & sa & H)]; auto.
    destruct H as (-> & _ & _ & _ & _ & _ & _ & _ & _ & Hs & _).
    right. eexists; split; [reflexivity|].
    intros Hin. apply in_map_iff in Hin. destruct Hin as (r & Er & Hr).
    apply sala_disponible_libre in Hs. apply Hs. exists r; auto.
  - intros ins.
    destruct (editar_evento_efecto bd ins) as [->|(e & f & _ & _ & ->)];
      auto.
    unfold update_evento; simpl. rewrite map_map.
    apply map_ext, ranura_con_evento.
Qed.


Lemma en_lista_In (x : str) (l : list str) :
  en_lista x l = true <-> In x l.
Proof.
  unfold en_lista. rewrite existsb_exists. split.
  - intros (y & Hy & E). apply str_eqb_eq in E. subst; auto.
  - intros H. exists x; split; auto using str_eqb_refl.
Qed.

(** One pass through [editar_evento]: a range, a folio listed in it and
    one answer to the name prompt. *)
Lemma editar_evento_guion (bd : BD) (fi_s ff_s fs ns : str) (fi ff : date)
    (f : Z) :
  strptime fi_s = Some fi -> strptime ff_s = Some ff ->
  int_ fs = Some f -> f <> 0 ->
  existsb (fun r => fst (fst r) =? f) (reservaciones_en_rango bd fi ff)
    = true ->
  editar_evento bd [fi_s; ff_s; fs; ns] =
  let rs := reservaciones_en_rango bd fi ff in
  if no_vacio (strip ns)
  then ((Ret tt, [], [mostrar_tabla rs; IngreseFolio; EventoActualizado]),
        update_evento bd (strip ns) f)
  else ((Raise EOFError, [], [mostrar_tabla rs; IngreseFolio; EventoNoVacio]),
        bd).
Proof.
  intros Hfi Hff Hfs Hf Hex. unfold editar_evento. rewrite Hfi, Hff.
  destruct (reservaciones_en_rango bd fi ff) as [|r0 rs] eqn:Er;
    [discriminate|].
  cbn [pedir_folio]. rewrite Hfs.
  apply Z.eqb_neq in Hf. rewrite Hf, Hex.
  cbn [pedir_nuevo_evento tras luego]. cbv zeta.
  destruct (no_vacio (strip ns)); reflexivity.
Qed.

(** C7.  In every store the program can reach, each reservation's event
    name is non-empty after stripping.  A blank answer to either name
    prompt is refused with the blank-name message and asked again; a
    pass through [editar_evento] whose new name is blank reports it and
    leaves the tables as they were. *)
Theorem evento_no_vacio (bd : BD) :
  alcanzable bd ->
  Forall (fun r => strip (evento r) <> []) (reservaciones bd)
  /\ (forall a ins, strip a = [] ->
        pedir_evento (a :: ins) = tras EventoVacio (pedir_evento ins)
        /\ clase EventoVacio = Some BlankEventName)
  /\ (forall a ins, strip a = [] ->
        pedir_nuevo_evento (a :: ins)
        = tras EventoNoVacio (pedir_nuevo_evento ins)
        /\ clase EventoNoVacio = Some BlankEventName)
  /\ (forall fi_s ff_s fs a fi ff f,
        strptime fi_s = Some fi -> strptime ff_s = Some ff ->
        int_ fs = Some f -> f <> 0 ->
        existsb (fun r => fst (fst r) =? f)
                (reservaciones_en_rango bd fi ff) = true ->
        strip a = [] ->
        let run := editar_evento bd [fi_s; ff_s; fs; a] in
        snd run = bd
        /\ primer_error (impreso (fst run)) = Some BlankEventName
        /\ resultado (fst run) = Raise EOFError).
Proof.
  intros Ha. split; [|split; [|split]].
  - destruct (integra_alcanzable bd Ha) as (_ & _ & _ & Hf).
    eapply Forall_impl; [|exact Hf]. simpl; tauto.
  - intros a ins E. split; [|reflexivity].
    cbn [pedir_evento]. cbv zeta.
    unfold validar_evento. rewrite E. reflexivity.
  - intros a ins E. split; [|reflexivity].
    cbn [pedir_nuevo_evento]. cbv zeta. rewrite E. reflexivity.
  - intros fi_s ff_s fs a fi ff f Hfi Hff Hfs Hf Hex E run. subst run.
    rewrite (editar_evento_guion bd fi_s ff_s fs a fi ff f); auto.
    cbv zeta. rewrite E. simpl. auto.
Qed.

Lemma Forall2_update (f : Z) (e : str) (l : list Reservacion) :
  Forall2 (solo_cambia_evento f e) l
    (map (fun r => if folio r =? f then con_evento e r else r) l).
Proof.
  induction l as [|r l IH]; simpl; constructor; auto.
  unfold solo_cambia_evento.
  destruct (Z.eqb_spec (folio r) f); simpl; repeat split; auto;
    intros; congruence.
Qed.

(** C8.  Whatever the answers, a run of [editar_evento] keeps clients and
    rooms and either keeps the reservations or changes the event name of
    one folio, to a non-blank name, and nothing else.  A pass that picks a
    listed folio and gives a non-blank name succeeds, and the folio and
    the name of the change are the ones given. *)
Theorem edicion_solo_evento (bd : BD) :
  (forall ins,
     let run := editar_evento bd ins in
     clientes (snd run) = clientes bd
     /\ salas (snd run) = salas bd
     /\ (reservaciones (snd run) = reservaciones bd
         \/ exists f e,
              strip e <> []
              /\ Forall2 (solo_cambia_evento f e)
                         (reservaciones bd) (reservaciones (snd run))))
  /\ (forall fi_s ff_s fs ns fi ff f,
        strptime fi_s = Some fi -> strptime ff_s = Some ff ->
        int_ fs = Some f -> f <> 0 ->
        existsb (fun r => fst (fst r) =? f) (reservaciones_en_rango bd fi ff)
          = true ->
        strip ns <> [] ->
        let run := editar_evento bd [fi_s; ff_s; fs; ns] in
        resultado (fst run) = Ret tt
        /\ In EventoActualizado (impreso (fst run))
        /\ Forall2 (solo_cambia_evento f (strip ns))
                   (reservaciones bd) (reservaciones (snd run))).
Proof.
  split.
  - intros ins run. subst run.
    destruct (editar_evento_efecto bd ins) as [->|(e & f & Hn & He & ->)];
      auto.
    simpl. repeat split. right. exists f, e. split.
    + rewrite He. apply no_vacio_iff; auto.
    + apply Forall2_update.
  - intros fi_s ff_s fs ns fi ff f Hfi Hff Hfs Hf Hex Hn run. subst run.
    rewrite (editar_evento_guion bd fi_s ff_s fs ns fi ff f); auto.
    cbv zeta. apply no_vacio_iff in Hn. rewrite Hn. simpl.
    repeat split; auto. apply Forall2_update.
Qed.

(** ** The daily consultation *)

Lemma sin_clave {A C} (key : A -> Z) (k : Z) (g : A -> list C)
    (l : list A) :
  ~ In k (map key l) ->
  filter (fun a => key a =? k) l = []
  /\ flat_map (fun a => if k =? key a then g a else []) l = [].
Proof.
  induction l as [|a l IH]; simpl; auto.
  intros H. destruct IH as [IH1 IH2]; [tauto|].
  destruct (Z.eqb_spec (key a) k); [exfalso; tauto|].
  destruct (Z.eqb_spec k (key a)); [congruence|].
  rewrite IH1, IH2. auto.
Qed.

(** A key that is unique selects one row, and a join on it yields that
    row's part only. *)
Lemma clave_unica {A C} (key : A -> Z) (k : Z) (g : A -> list C)
    (l : list A) (x : A) (resto : list A) :
  NoDup (map key l) ->
  filter (fun a => key a =? k) l = x :: resto ->
  flat_map (fun a => if k =? key a then g a else []) l = g x.
Proof.
  induction l as [|a l IH]; simpl; [discriminate|].
  intros Hn. inversion Hn as [|? ? Ha Hl]; subst.
  destruct (Z.eqb_spec (key a) k) as [E|E].
  - intros H; inversion H; subst.
    rewrite Z.eqb_refl.
    destruct (sin_clave key (key x) g l Ha) as [_ ->].
    apply app_nil_r.
  - destruct (Z.eqb_spec k (key a)); [congruence|]. simpl. auto.
Qed.

Lemma unir_folio (bd : BD) (r : Reservacion) (g : Registro) :
  In g (unir bd r) -> reg_folio g = folio r.
Proof.
  unfold unir. rewrite in_flat_map. intros (c & _ & H).
  destruct (_ =? _); [|destruct H].
  rewrite in_flat_map in H. destruct H as (s & _ & H).
  destruct (_ =? _); [|destruct H].
  destruct H as [<-|[]]. reflexivity.
Qed.

Lemma filter_todos {A} (p : A -> bool) (l : list A) :
  (forall x, In x l -> p x = true) -> filter p l = l.
Proof.
  induction l as [|a l IH]; simpl; auto. intros H.
  rewrite (H a (or_introl eq_refl)), IH; auto.
Qed.

Lemma filter_ninguno {A} (p : A -> bool) (l : list A) :
  (forall x, In x l -> p x = false) -> filter p l = [].
Proof.
  induction l as [|a l IH]; simpl; auto. intros H.
  rewrite (H a (or_introl eq_refl)), IH; auto.
Qed.

(** C6.  When a run of [registrar_reservacion] confirms a reservation,
    the consultation of its date on the resulting tables has exactly one
    row with that folio, and the row carries the confirmed client, room,
    shift and event. *)
Theorem alta_consultable (bd : BD) (hoy : date) (ahora : time)
    (ins : list str) (f : Z) (cliente sala : str) (fecha : date)
    (t e : str) :
  claves_unicas bd ->
  In (Registrada f cliente sala fecha t e)
     (impreso (fst (registrar_reservacion bd hoy ahora ins))) ->
  filter (fun g => reg_folio g =? f)
         (select_registros
            (snd (registrar_reservacion bd hoy ahora ins)) fecha)
  = [mkRegistro f cliente sala t e].
Proof.
  intros [Hc Hs] Hin.
  destruct (registrar_reservacion_efecto bd hoy ahora ins)
    as [[_ Ha]|(c & s & fe & t' & e' & cl & sa & H)].
  { destruct (Ha _ Hin) as [[]|E]; discriminate E. }
  destruct H as (Ebd & _ & _ & Ha & _ & _ & _ & _ & _ & _ & _ & Hcl & Hsa).
  destruct (Ha _ Hin) as [[]|E].
  inversion E; subst f cl sa fe t' e'; clear E.
  rewrite Ebd. unfold select_registros.
  apply filter_ordenar_uno.
  unfold insert_reservacion at 2; cbn [reservaciones].
  set (bd' := insert_reservacion _ _ _ _ _ _).
  set (nueva := mkReservacion _ _ _ _ _ _).
  rewrite filter_app, flat_map_app, filter_app.
  replace (filter (en_fecha (toordinal fecha)) [nueva]) with [nueva]
    by (simpl; unfold en_fecha; simpl; rewrite Z.eqb_refl; reflexivity).
  rewrite filter_ninguno.
  2:{ intros g Hg. apply in_flat_map in Hg. destruct Hg as (r & Hr & Hg).
      apply unir_folio in Hg. rewrite Hg.
      apply filter_In in Hr. destruct Hr as [Hr _].
      apply Z.eqb_neq. intros Ef.
      apply (siguiente_nueva (map folio (reservaciones bd))).
      fold (lastrowid bd). rewrite <- Ef. apply in_map; auto. }
  simpl. rewrite app_nil_r.
  rewrite filter_todos.
  2:{ intros g Hg. apply unir_folio in Hg. rewrite Hg.
      apply Z.eqb_refl. }
  destruct Hcl as (lc & Hcl). destruct Hsa as (ls & Hsa).
  unfold select_nombre_cliente in Hcl. unfold select_nombre_sala in Hsa.
  destruct (filter (fun x => id_cliente x =? c) (clientes bd))
    as [|c0 rc] eqn:Fc; [discriminate|].
  destruct (filter (fun x => id_sala x =? s) (salas bd))
    as [|s0 rs] eqn:Fs; [discriminate|].
  simpl in Hcl, Hsa. inversion Hcl; inversion Hsa; subst.
  unfold unir. cbn [clientes salas bd' insert_reservacion nueva
                    res_id_cliente res_id_sala folio turno evento].
  rewrite (clave_unica id_cliente c _ (clientes bd) c0 rc Hc Fc).
  rewrite (clave_unica id_sala s _ (salas bd) s0 rs Hs Fs).
  reflexivity.
Qed.

Lemma in_unir (bd : BD) (r : Reservacion) (g : Registro) :
  In g (unir bd r) <->
  exists c s, In c (clientes bd) /\ In s (salas bd)
    /\ res_id_cliente r = id_cliente c /\ res_id_sala r = id_sala s
    /\ g = mkRegistro (folio r) (nombre c ++ espacio ++ apellidos c)
                      (sala_nombre s) (turno r) (evento r).
Proof.
  unfold unir. rewrite in_flat_map. split.
  - intros (c & Hc & H).
    destruct (Z.eqb_spec (res_id_cliente r) (id_cliente c)); [|destruct H].
    rewrite in_flat_map in H. destruct H as (s & Hs & H).
    destruct (Z.eqb_spec (res_id_sala r) (id_sala s)); [|destruct H].
    destruct H as [<-|[]]. exists c, s. auto.
  - intros (c & s & Hc & Hs & Ec & Es & ->).
    exists c; split; auto. rewrite Ec, Z.eqb_refl.
    rewrite in_flat_map. exists s; split; auto.
    rewrite Es, Z.eqb_refl. left; reflexivity.
Qed.

(** C9, as the code has it.  The consultation of a date lists the
    reservations of that date, each joined with its client's and its
    room's name, sorted by the text of the shift label; among the three
    labels that text order is [t_manana], [t_noche], [t_tarde]. *)
Theorem consulta_ordenada (bd : BD) (f : date) :
  StronglySorted
    (fun a b => str_leb (reg_turno a) (reg_turno b) = true)
    (select_registros bd f)
  /\ (forall g, In g (select_registros bd f) <->
        exists r c s,
          In r (reservaciones bd) /\ In c (clientes bd) /\ In s (salas bd)
          /\ toordinal (dt_fecha (fecha_registro r)) = toordinal f
          /\ res_id_cliente r = id_cliente c
          /\ res_id_sala r = id_sala s
          /\ g = mkRegistro (folio r)
                            (nombre c ++ espacio ++ apellidos c)
                            (sala_nombre s) (turno r) (evento r))
  /\ str_leb t_manana t_noche = true /\ str_leb t_noche t_manana = false
  /\ str_leb t_noche t_tarde = true /\ str_leb t_tarde t_noche = false.
Proof.
  split; [|split; [|repeat split]].
  - unfold select_registros. apply (ordenar_sorted turno_leb).
    + intros a b. apply str_leb_total.
    + intros a b c. apply str_leb_trans.
  - intros g. unfold select_registros.
    rewrite ordenar_in, in_flat_map. split.
    + intros (r & Hr & Hg). apply filter_In in Hr. destruct Hr as [Hr Hf].
      apply in_unir in Hg. destruct Hg as (c & s & Hc & Hs & Ec & Es & Eg).
      exists r, c, s. unfold en_fecha in Hf. apply Z.eqb_eq in Hf. auto 10.
    + intros (r & c & s & Hr & Hc & Hs & Hf & Ec & Es & Eg).
      exists r; split.
      * apply filter_In; split; auto. apply Z.eqb_eq; auto.
      * apply in_unir. exists c, s; auto.
Qed.

(** ** The order of the checks *)

Lemma existsb_en_ordenar {A} (leb : A -> A -> bool) (p : A -> bool)
    (l : list A) :
  existsb p l = true -> existsb p (ordenar leb l) = true.
Proof.
  rewrite !existsb_exists. intros (x & Hx & Hp).
  exists x; split; auto. apply (ordenar_in leb); auto.
Qed.

Lemma existsb_filter {A} (p : A -> bool) (l : list A) :
  existsb p l = true -> exists x r, filter p l = x :: r.
Proof.
  induction l as [|a l IH]; simpl; [discriminate|].
  destruct (p a); simpl; eauto.
Qed.

Lemma primer_error_app (o o' : list Msg) (k : ErrorKind) :
  primer_error o = Some k -> primer_error (o ++ o') = Some k.
Proof.
  induction o as [|m o IH]; simpl; [discriminate|].
  destruct (clase m); auto.
Qed.

Lemma primer_error_ninguno (o o' : list Msg) :
  primer_error o = None -> primer_error (o ++ o') = primer_error o'.
Proof.
  induction o as [|m o IH]; simpl; auto.
  destruct (clase m); [discriminate | auto].
Qed.

Lemma impreso_luego {A C} (bd : BD) (x : IO A)
    (k : A -> list str -> IO C * BD) :
  exists o', impreso (fst (luego bd x k)) = impreso x ++ o'.
Proof.
  destruct x as [[[a|e] i] o]; unfold impreso; simpl.
  - destruct (k a i) as [[[r' i'] o'] bd']. simpl. eauto.
  - exists []. rewrite app_nil_r. reflexivity.
Qed.

Lemma libre_disponible (bd : BD) (s : Z) (fecha : date) (t : str) :
  existsRoom bd s = true -> en_lista t TURNOS = true ->
  sala_disponible bd s fecha t = true ->
  disponible_salas bd (salas bd) fecha <> [].
Proof.
  unfold existsRoom. rewrite existsb_exists.
  intros (x & Hx & Ex) Ht Hs E. apply Z.eqb_eq in Ex. subst s.
  assert (Hin : In t (turnos_libres bd (id_sala x) fecha)).
  { unfold turnos_libres. apply filter_In. split; auto.
    apply en_lista_In; auto. }
  unfold disponible_salas in E.
  assert (Hnil : forall y, ~ In y (flat_map (fun s =>
            match turnos_libres bd (id_sala s) fecha with
            | [] => []
            | tl => [(id_sala s, sala_nombre s, cupo s, tl)]
            end) (salas bd))) by (rewrite E; auto).
  destruct (turnos_libres bd (id_sala x) fecha) as [|t0 tl] eqn:Etl;
    [destruct Hin|].
  apply (Hnil (id_sala x, sala_nombre x, cupo x, t0 :: tl)).
  apply in_flat_map. exists x; split; auto. rewrite Etl. left; reflexivity.
Qed.

(** One pass through [registrar_reservacion] with a known client, an
    accepted date and a well-formed choice of an existing room. *)
Lemma registrar_reservacion_guion (bd : BD) (hoy : date) (ahora : time)
    (cs fs ss ts es : str) (c s : Z) (fecha : date) :
  int_ cs = Some c -> c <> 0 -> existsClient bd c = true ->
  strptime (strip fs) = Some fecha ->
  2 <= dias_entre fecha hoy -> weekday fecha <> 6 ->
  int_ ss = Some s -> int64 s = true -> existsRoom bd s = true ->
  en_lista (lower ts) TURNOS = true ->
  disponible_salas bd (salas bd) fecha <> [] ->
  exists o0 r o1,
    primer_error o0 = None /\
    registrar_reservacion bd hoy ahora [cs; fs; ss; ts; es] =
    if sala_disponible bd s fecha (lower ts) then
      if no_vacio (strip es) then
        match select_nombre_cliente bd c, select_nombre_sala bd s with
        | cliente :: _, sala :: _ =>
            ((Ret tt, [],
              o0 ++ [Registrada (lastrowid bd) cliente sala fecha
                                (lower ts) (strip es)]),
             insert_reservacion bd c s (combine fecha ahora)
                                (lower ts) (strip es))
        | _, _ => ((r, [], o0 ++ o1), bd)
        end
      else ((Raise EOFError, [], o0 ++ [EventoVacio]), bd)
    else ((Raise EOFError, [], o0 ++ SalaOcupada :: o1), bd).
Proof.
  intros Hcs Hc0 Hcl Hfs Hd Hw Hss Hi Hro Ht Hds.
  unfold registrar_reservacion.
  assert (Hv : validar_clave_cliente c (select_clientes bd) = true).
  { unfold validar_clave_cliente, select_clientes.
    apply existsb_en_ordenar. exact Hcl. }
  destruct (select_clientes bd) as [|c0 cl] eqn:Ecl; [discriminate|].
  cbn [pedir_cliente]. rewrite Hcs.
  apply Z.eqb_neq in Hc0. rewrite Hc0, Hv.
  cbn [luego pedir_fecha]. unfold validar_fecha_simple. rewrite Hfs.
  apply Z.ltb_ge in Hd. rewrite Hd.
  apply Z.eqb_neq in Hw. rewrite Hw.
  cbn [luego].
  assert (Hsl : salas bd <> []).
  { intros E. unfold existsRoom in Hro. rewrite E in Hro. discriminate. }
  destruct (salas bd) as [|s0 sl] eqn:Esl; [congruence|].
  destruct (disponible_salas bd (s0 :: sl) fecha) as [|d0 dl] eqn:Edl;
    [congruence|].
  cbn [pedir_sala]. rewrite Hss. cbv zeta. rewrite Ht, Hi.
  set (T1 := TablaClientes _). set (T2 := TablaSalas _).
  exists [T1; T2].
  destruct (sala_disponible bd s fecha (lower ts)) eqn:Es; cbn [negb].
  - cbn [luego pedir_evento fst snd]. cbv zeta. unfold validar_evento.
    rewrite strip_idem.
    destruct (no_vacio (strip es)) eqn:Ee.
    + cbn [luego]. unfold guardar.
      destruct (select_nombre_cliente bd c) as [|cli lc].
      { exists (Raise IndexError), []. split; reflexivity. }
      destruct (select_nombre_sala bd s) as [|sal ls].
      { exists (Raise IndexError), []. split; reflexivity. }
      exists (Ret tt), []. split; reflexivity.
    + exists (Ret tt), []. split; reflexivity.
  - cbn [pedir_sala].
    destruct (int_ es).
    + exists (Ret tt), []. split; reflexivity.
    + exists (Ret tt), [SeleccionInvalida]. split; reflexivity.
Qed.

End Propiedades.

(** * The worked example, checked *)

Lemma alcanzable_bd2 : alcanzable (B := ascii_builtins) Ejemplo.bd2.
Proof.
  apply alc_paso with Ejemplo.bd1; [|apply paso_sala].
  apply alc_paso with bd_vacia; [apply alc_inicio | apply paso_cliente].
Qed.

Lemma alcanzable_bd3 : alcanzable (B := ascii_builtins) Ejemplo.bd3.
Proof.
  apply alc_paso with Ejemplo.bd2;
    [apply alcanzable_bd2 | apply paso_reservacion].
Qed.

Lemma alcanzable_bd4 : alcanzable (B := ascii_builtins) Ejemplo.bd4.
Proof.
  apply alc_paso with Ejemplo.bd3;
    [apply alcanzable_bd3 | apply paso_reservacion].
Qed.


(** A room number no room has: nothing is reported, the function ends in
    an uncaught [IndexError] and the tables stay as they were. *)
Example sala_desconocida_sin_aviso :
  let run := registrar_reservacion (B := ascii_builtins) Ejemplo.bd3
               Ejemplo.hoy 300 Ejemplo.guion_sala_desconocida in
  resultado (fst run) = Raise IndexError
  /\ primer_error (impreso (fst run)) = None
  /\ snd run = Ejemplo.bd3
  /\ create_segun_spec Ejemplo.bd3 1 7 Ejemplo.jueves t_tarde
                       (of_ascii "Kickoff") = Some UnknownRoom.
Proof. vm_compute. repeat split. Qed.

(** The scenario of the specification: on Monday 2024-06-10 the 11th is
    too soon and the 13th is accepted. *)
Example escenario_fechas :
  validar_fecha_simple (B := ascii_builtins) Ejemplo.hoy
                       (of_ascii "06-11-2024") = (None, [AnticipacionSimple])
  /\ validar_fecha_simple (B := ascii_builtins) Ejemplo.hoy
                          (of_ascii "06-13-2024") = (Some Ejemplo.jueves, []).
Proof. vm_compute. split; reflexivity. Qed.

(** ** Witnesses *)

Lemma ranura_unica_witness :
  NoDup (map ranura (reservaciones Ejemplo.bd4)).
Proof.
  exact (proj1 (ranura_unica (B := ascii_builtins) Ejemplo.bd4
                             alcanzable_bd4)).
Defined.

Lemma anticipacion_minima_witness :
  validar_fecha (B := ascii_builtins) Ejemplo.hoy (of_ascii "06-11-2024") []
  = (Ret None, [], [Anticipacion])
  /\ validar_fecha (B := ascii_builtins) Ejemplo.hoy
                   (of_ascii "06-13-2024") []
     = (Ret (Some Ejemplo.jueves), [], []).
Proof.
  split.
  - apply (proj1 (anticipacion_minima (B := ascii_builtins) Ejemplo.hoy
             (of_ascii "06-11-2024") (mkdate 739048 eq_refl) []
             eq_refl)).
    vm_compute. reflexivity.
  - apply (proj2 (anticipacion_minima (B := ascii_builtins) Ejemplo.hoy
             (of_ascii "06-13-2024") Ejemplo.jueves [] eq_refl)).
    + vm_compute. discriminate.
    + vm_compute. discriminate.
Defined.

Lemma domingo_bloqueado_witness :
  validar_fecha_simple (B := ascii_builtins) Ejemplo.hoy
                       (of_ascii "06-16-2024") = (None, [DomingoNoPermitido]).
Proof.
  apply (domingo_bloqueado (B := ascii_builtins) Ejemplo.hoy
           (of_ascii "06-16-2024") Ejemplo.domingo).
  - reflexivity.
  - vm_compute. discriminate.
  - reflexivity.
Defined.

Lemma fecha_devuelta_valida_witness :
  weekday Ejemplo.lunes <> 6 /\ 2 <= dias_entre Ejemplo.lunes Ejemplo.hoy.
Proof.
  apply (fecha_devuelta_valida (B := ascii_builtins) Ejemplo.hoy
           (of_ascii "06-16-2024") [of_ascii "S"] Ejemplo.lunes []
           [DomingoSugerido Ejemplo.lunes]).
  reflexivity.
Defined.

Lemma alta_consultable_witness :
  filter (fun g => reg_folio g =? 2)
         (select_registros Ejemplo.bd4 Ejemplo.jueves)
  = [mkRegistro 2 (of_ascii "Ana Lopez") (of_ascii "Sala A") t_noche
                (of_ascii "Cena")].
Proof.
  apply (alta_consultable (B := ascii_builtins) Ejemplo.bd3 Ejemplo.hoy 200
           Ejemplo.guion_noche 2 (of_ascii "Ana Lopez") (of_ascii "Sala A")
           Ejemplo.jueves t_noche (of_ascii "Cena")).
  - split; vm_compute; repeat constructor; simpl; tauto.
  - vm_compute. right; right; left. reflexivity.
Defined.

Lemma evento_no_vacio_witness :
  Forall (fun r => strip (evento r) <> []) (reservaciones Ejemplo.bd4)
  /\ snd (editar_evento (B := ascii_builtins) Ejemplo.bd3
            Ejemplo.guion_editar_en_blanco) = Ejemplo.bd3.
Proof.
  split.
  - exact (proj1 (evento_no_vacio (B := ascii_builtins) Ejemplo.bd4
                    alcanzable_bd4)).
  - apply (proj2 (proj2 (proj2 (evento_no_vacio (B := ascii_builtins)
             Ejemplo.bd3 alcanzable_bd3)))
             (of_ascii "06-13-2024") (of_ascii "06-13-2024") (of_ascii "1")
             (of_ascii "  ") Ejemplo.jueves Ejemplo.jueves 1);
      try reflexivity.
    discriminate.
Defined.

Lemma edicion_solo_evento_witness :
  Forall2 (solo_cambia_evento 1 (of_ascii "Team Sync"))
          (reservaciones Ejemplo.bd4)
          (reservaciones (snd (editar_evento (B := ascii_builtins)
                                 Ejemplo.bd4 Ejemplo.guion_editar))).
Proof.
  apply (proj2 (edicion_solo_evento (B := ascii_builtins) Ejemplo.bd4)
           (of_ascii "06-13-2024") (of_ascii "06-13-2024") (of_ascii "1")
           (of_ascii "Team Sync") Ejemplo.jueves Ejemplo.jueves 1);
    try reflexivity; discriminate.
Defined.

Lemma consulta_ordenada_witness :
  StronglySorted (fun a b => str_leb (reg_turno a) (reg_turno b) = true)
                 (select_registros Ejemplo.bd4 Ejemplo.jueves).
Proof. exact (proj1 (consulta_ordenada Ejemplo.bd4 Ejemplo.jueves)). Defined.

(** ** Counterexamples *)

(** C3, as stated, fails: with the slot taken and the event name blank the
    specification's order reports the blank name, the code the taken
    slot. *)
Lemma orden_spec_contraejemplo :
  let run := registrar_reservacion (B := ascii_builtins) Ejemplo.bd3
               Ejemplo.hoy 300 Ejemplo.guion_ocupada_en_blanco in
  primer_error (impreso (fst run)) = Some ShiftOccupied
  /\ create_segun_spec Ejemplo.bd3 1 1 Ejemplo.jueves t_tarde
                       (of_ascii "   ") = Some BlankEventName
  /\ primer_error (impreso (fst run))
     <> create_segun_spec Ejemplo.bd3 1 1 Ejemplo.jueves t_tarde
                          (of_ascii "   ").
Proof. vm_compute. repeat split. discriminate. Qed.

(** C9, as stated, fails: an evening reservation is listed before an
    afternoon one. *)
Lemma consulta_cronologica_contraejemplo :
  map reg_turno (select_registros Ejemplo.bd4 Ejemplo.jueves)
  = [t_noche; t_tarde]
  /\ ~ en_orden_del_dia (select_registros Ejemplo.bd4 Ejemplo.jueves).
Proof.
  split; [vm_compute; reflexivity|].
  intros H.
  assert (E : map (fun g => orden_del_dia (reg_turno g))
                  (select_registros Ejemplo.bd4 Ejemplo.jueves) = [2; 1])
    by (vm_compute; reflexivity).
  unfold en_orden_del_dia in H.
  destruct (select_registros Ejemplo.bd4 Ejemplo.jueves) as [|a [|b l]];
    try discriminate.
  inversion E as [[Ea Eb El]].
  inversion H as [|? ? _ Hf]; subst.
  inversion Hf as [|? ? Hab _]; subst.
  rewrite Ea, Eb in Hab. lia.
Qed.

(** * Sessions, stored data and compositions *)

Section Cobertura.
Context {B : Builtins}.

(** ** Answers are read from the front *)

Lemma resto_pedir_cliente (cs : list Cliente) (ins : list str) :
  (List.length (restantes (pedir_cliente cs ins)) <= List.length ins)%nat.
Proof.
  induction ins as [|a ins IH]; simpl; auto.
  destruct (int_ a) as [id|]; [destruct (id =? 0); simpl; auto;
    destruct (validar_clave_cliente id cs); simpl; auto|];
    rewrite restantes_tras; lia.
Qed.

Lemma resto_pedir_fecha (hoy : date) (ins : list str) :
  (List.length (restantes (pedir_fecha hoy ins)) <= List.length ins)%nat.
Proof.
  induction ins as [|a ins IH]; simpl; auto.
  destruct (validar_fecha_simple hoy (strip a)) as [[d|] o]; simpl; auto.
  destruct (pedir_fecha hoy ins) as [[r i] o']. unfold restantes in *.
  simpl in *. lia.
Qed.

Lemma resto_pedir_sala (bd : BD) (fecha : date) (n : nat) :
  forall ins, (List.length ins <= n)%nat ->
  (List.length (restantes (pedir_sala bd fecha ins)) <= List.length ins)%nat.
Proof.
  induction n as [|n IH]; intros [|a ins] Hn; simpl in *; auto; try lia.
  destruct (int_ a) as [id|].
  - destruct ins as [|b ins]; simpl in *; auto.
    destruct (negb (en_lista (lower b) TURNOS)).
    { rewrite restantes_tras. specialize (IH ins). lia. }
    destruct (negb (int64 id)); simpl; auto.
    destruct (negb (sala_disponible bd id fecha (lower b))); simpl; auto.
    rewrite restantes_tras. specialize (IH ins). lia.
  - rewrite restantes_tras. specialize (IH ins). lia.
Qed.

Lemma resto_pedir_evento (ins : list str) :
  (List.length (restantes (pedir_evento ins)) <= List.length ins)%nat.
Proof.
  induction ins as [|a ins IH]; simpl; auto.
  destruct (validar_evento (strip a)); simpl; auto.
  rewrite restantes_tras. lia.
Qed.

Lemma resto_pedir_folio (rs : list (Z * str * datetime)) (ins : list str) :
  (List.length (restantes (pedir_folio rs ins)) <= List.length ins)%nat.
Proof.
  induction ins as [|a ins IH]; cbn [pedir_folio];
    rewrite !restantes_tras; simpl; auto.
  destruct (int_ a) as [f|]; [destruct (f =? 0); simpl; auto;
    destruct (existsb _ rs); simpl; auto|];
    rewrite restantes_tras; lia.
Qed.

Lemma resto_pedir_nuevo_evento (ins : list str) :
  (List.length (restantes (pedir_nuevo_evento ins)) <= List.length ins)%nat.
Proof.
  induction ins as [|a ins IH]; simpl; auto.
  destruct (no_vacio (strip a)); simpl; auto.
  rewrite restantes_tras. lia.
Qed.

Lemma resto_luego {A C} (bd : BD) (x : IO A)
    (k : A -> list str -> IO C * BD) (n : nat) :
  (List.length (restantes x) <= n)%nat ->
  (forall a i, (List.length i <= n)%nat ->
               (List.length (restantes (fst (k a i))) <= n)%nat) ->
  (List.length (restantes (fst (luego bd x k))) <= n)%nat.
Proof.
  destruct x as [[[a|e] i] o]; unfold restantes; simpl; auto.
  intros Hi Hk. specialize (Hk a i Hi).
  destruct (k a i) as [[[r' i'] o'] bd']. exact Hk.
Qed.

Lemma resto_tras_bd {A} (m : Msg) (x : IO A * BD) :
  restantes (fst (tras_bd m x)) = restantes (fst x).
Proof. unfold tras_bd. simpl. apply restantes_tras. Qed.

Lemma resto_registrar_cliente (bd : BD) (ins : list str) :
  (List.length (restantes (fst (registrar_cliente bd ins)))
   <= List.length ins)%nat.
Proof.
  unfold registrar_cliente.
  destruct ins as [|a [|b ins]]; simpl; auto;
    repeat (destruct (negb _); simpl; auto).
Qed.

Lemma resto_registrar_sala (bd : BD) (ins : list str) :
  (List.length (restantes (fst (registrar_sala bd ins)))
   <= List.length ins)%nat.
Proof.
  unfold registrar_sala.
  destruct ins as [|a [|b ins]]; simpl; auto;
    destruct (negb _); simpl; auto.
  destruct (int_ b) as [c|]; simpl; auto.
  destruct (c <=? 0); simpl; auto.
  destruct (negb _); simpl; auto.
Qed.

Lemma resto_guardar (bd : BD) (ahora : time) (c s : Z) (fecha : date)
    (t e : str) (ins : list str) :
  restantes (fst (guardar bd ahora c s fecha t e ins)) = ins.
Proof.
  unfold guardar.
  destruct (select_nombre_cliente bd c); [reflexivity|].
  destruct (select_nombre_sala bd s); reflexivity.
Qed.

Lemma resto_registrar_reservacion (bd : BD) (hoy : date) (ahora : time)
    (ins : list str) :
  (List.length (restantes (fst (registrar_reservacion bd hoy ahora ins)))
   <= List.length ins)%nat.
Proof.
  unfold registrar_reservacion.
  destruct (select_clientes bd) as [|c0 cs]; [simpl; auto|].
  rewrite resto_tras_bd.
  apply resto_luego; [apply resto_pedir_cliente|].
  intros [c|] i1 H1; [|simpl; auto].
  apply resto_luego.
  { pose proof (resto_pedir_fecha hoy i1). lia. }
  intros fecha i2 H2.
  destruct (salas bd) as [|s0 ss]; [simpl; auto|].
  destruct (disponible_salas bd (s0 :: ss) fecha) as [|d0 ds];
    [simpl; auto|].
  rewrite resto_tras_bd.
  apply resto_luego.
  { pose proof (resto_pedir_sala bd fecha (List.length i2) i2 (le_n _)).
    lia. }
  intros st i3 H3.
  apply resto_luego.
  { pose proof (resto_pedir_evento i3). lia. }
  intros e i4 H4. rewrite resto_guardar. exact H4.
Qed.

Lemma resto_editar_evento (bd : BD) (ins : list str) :
  (List.length (restantes (fst (editar_evento bd ins)))
   <= List.length ins)%nat.
Proof.
  unfold editar_evento.
  destruct ins as [|a [|b ins]]; simpl; auto.
  destruct (strptime a) as [fi|]; [|simpl; auto].
  destruct (strptime b) as [ff|]; [|simpl; auto].
  destruct (reservaciones_en_rango bd fi ff) as [|r0 rs]; [simpl; auto|].
  apply resto_luego.
  { pose proof (resto_pedir_folio (r0 :: rs) ins). lia. }
  intros [f|] i3 H3; [|unfold restantes; simpl; lia].
  apply resto_luego.
  { pose proof (resto_pedir_nuevo_evento i3). lia. }
  intros e i4 H4. unfold restantes; simpl. exact H4.
Qed.

Lemma resto_consultar_reservaciones (bd : BD) (hoy : date) (ins : list str) :
  (List.length (restantes (consultar_reservaciones bd hoy ins))
   <= List.length ins)%nat.
Proof.
  unfold consultar_reservaciones.
  destruct ins as [|a ins]; simpl; auto.
  destruct (if no_vacio (strip a) then strptime (strip a) else Some hoy)
    as [f|]; [|simpl; auto].
  destruct (select_registros bd f) as [|g gs]; [simpl; auto|].
  rewrite restantes_tras.
  destruct ins as [|b ins]; simpl; auto.
  destruct (str_eqb _ _); simpl; auto.
Qed.

(** ** Sessions *)

Lemma desde_tras_paso (bd bd' bd'' : BD) :
  paso bd bd' -> desde bd' bd'' -> desde bd bd''.
Proof.
  intros Hp Hd. induction Hd as [|x y _ IH Hxy].
  - apply desde_paso with bd; [apply desde_aqui | exact Hp].
  - apply desde_paso with x; auto.
Qed.

Lemma desde_alcanzable (bd bd' : BD) :
  alcanzable bd -> desde bd bd' -> alcanzable bd'.
Proof.
  intros Ha Hd. induction Hd as [|x y _ IH Hxy]; auto.
  apply alc_paso with x; auto.
Qed.

Lemma desde_integra (bd bd' : BD) : integra bd -> desde bd bd' -> integra bd'.
Proof.
  intros Hi Hd. induction Hd as [|x y _ IH Hxy]; auto.
  apply integra_paso with x; auto.
Qed.

(** What a finished loop of the menu guarantees. *)
Lemma bucle_menu_correr (reloj : nat -> date * time) (n : nat) (bd : BD)
    (k : nat) (x : IO unit * BD) :
  (forall bd1 ins1, (List.length ins1 < n)%nat ->
     exists r i o bd',
       bucle_menu n reloj bd1 ins1 = Some (r, i, o, bd')
       /\ desde bd1 bd'
       /\ (r = Ret tt -> exists o', o = o' ++ [MenuPrincipal; Saliendo])) ->
  (List.length (restantes (fst x)) <= k)%nat -> (k < n)%nat ->
  snd x = bd \/ paso bd (snd x) ->
  exists r i o bd',
    match x with
    | ((Ret _, i, o), bd') =>
        precedido (MenuPrincipal :: map De o) (bucle_menu n reloj bd' i)
    | ((Raise e, i, o), bd') =>
        Some (Raise e, i, MenuPrincipal :: map De o, bd')
    end = Some (r, i, o, bd')
    /\ desde bd bd'
    /\ (r = Ret tt -> exists o', o = o' ++ [MenuPrincipal; Saliendo]).
Proof.
  intros IH Hl Hk Hp.
  assert (Hd : desde bd (snd x)).
  { destruct Hp as [->|Hp]; [apply desde_aqui|].
    apply desde_paso with bd; [apply desde_aqui | exact Hp]. }
  destruct x as [[[[[]|e] i] o] bd1]; unfold restantes in Hl; simpl in *.
  - destruct (IH bd1 i ltac:(lia)) as (r & i' & o' & bd' & E & Hd' & Hs).
    rewrite E. simpl. exists r, i', (MenuPrincipal :: map De o ++ o'), bd'.
    split; [reflexivity|]. split.
    + clear - Hd Hd'. induction Hd' as [|y z _ IHd Hyz]; auto.
      apply desde_paso with y; auto.
    + intros Hr. destruct (Hs Hr) as (o'' & ->).
      exists (MenuPrincipal :: map De o ++ o'').
      simpl. rewrite app_assoc. reflexivity.
  - exists (Raise e), i, (MenuPrincipal :: map De o), bd1.
    split; [reflexivity|]. split; [exact Hd | discriminate].
Qed.

Lemma bucle_menu_ok (reloj : nat -> date * time) (n : nat) :
  forall bd ins, (List.length ins < n)%nat ->
  exists r i o bd',
    bucle_menu n reloj bd ins = Some (r, i, o, bd')
    /\ desde bd bd'
    /\ (r = Ret tt -> exists o', o = o' ++ [MenuPrincipal; Saliendo]).
Proof.
  induction n as [|n IH]; intros bd ins Hn; [lia|].
  destruct ins as [|opcion ins1]; cbn [bucle_menu].
  { do 4 eexists. split; [reflexivity|].
    split; [apply desde_aqui | discriminate]. }
  cbv zeta. simpl in Hn.
  destruct (str_eqb opcion (of_ascii "1")).
  { exact (bucle_menu_correr reloj n bd (List.length ins1)
             (registrar_cliente bd ins1) IH
             (resto_registrar_cliente bd ins1) ltac:(lia)
             (or_intror (paso_cliente bd ins1))). }
  destruct (str_eqb opcion (of_ascii "2")).
  { exact (bucle_menu_correr reloj n bd (List.length ins1)
             (registrar_sala bd ins1) IH
             (resto_registrar_sala bd ins1) ltac:(lia)
             (or_intror (paso_sala bd ins1))). }
  destruct (str_eqb opcion (of_ascii "3")).
  { exact (bucle_menu_correr reloj n bd (List.length ins1)
             (registrar_reservacion bd _ _ ins1) IH
             (resto_registrar_reservacion bd _ _ ins1) ltac:(lia)
             (or_intror (paso_reservacion bd _ _ ins1))). }
  destruct (str_eqb opcion (of_ascii "4")).
  { exact (bucle_menu_correr reloj n bd (List.length ins1)
             (editar_evento bd ins1) IH
             (resto_editar_evento bd ins1) ltac:(lia)
             (or_intror (paso_editar bd ins1))). }
  destruct (str_eqb opcion (of_ascii "5")).
  { exact (bucle_menu_correr reloj n bd (List.length ins1)
             (consultar_reservaciones bd _ ins1, bd) IH
             (resto_consultar_reservaciones bd _ ins1) ltac:(lia)
             (or_introl eq_refl)). }
  destruct (str_eqb opcion (of_ascii "6")).
  - destruct ins1 as [|confirmar ins2].
    { do 4 eexists. split; [reflexivity|].
      split; [apply desde_aqui | discriminate]. }
    destruct (str_eqb (lower confirmar) (of_ascii "s")).
    + do 4 eexists. split; [reflexivity|].
      split; [apply desde_aqui|]. intros _. exists []. reflexivity.
    + simpl in Hn.
      destruct (IH bd ins2 ltac:(lia)) as (r & i & o & bd' & E & Hd & Hs).
      rewrite E. simpl. do 4 eexists. split; [reflexivity|].
      split; [exact Hd|]. intros Hr. destruct (Hs Hr) as (o' & ->).
      exists (MenuPrincipal :: o'). reflexivity.
  - destruct (IH bd ins1 ltac:(lia)) as (r & i & o & bd' & E & Hd & Hs).
    rewrite E. simpl. do 4 eexists. split; [reflexivity|].
    split; [exact Hd|]. intros Hr. destruct (Hs Hr) as (o' & ->).
    exists (MenuPrincipal :: OpcionInvalida :: o'). reflexivity.
Qed.

Lemma bucle_menu_estable (reloj : nat -> date * time) (n : nat) :
  forall m bd ins, (List.length ins < n)%nat -> (n <= m)%nat ->
  bucle_menu m reloj bd ins = bucle_menu n reloj bd ins.
Proof.
  induction n as [|n IH]; intros [|m] bd ins Hn Hm; try lia.
  destruct ins as [|opcion ins1]; cbn [bucle_menu]; [reflexivity|].
  cbv zeta. simpl in Hn.
  assert (Hx : forall x : IO unit * BD,
    (List.length (restantes (fst x)) <= List.length ins1)%nat ->
    match x with
    | ((Ret _, i, o), bd') =>
        precedido (MenuPrincipal :: map De o) (bucle_menu m reloj bd' i)
    | ((Raise e, i, o), bd') =>
        Some (Raise e, i, MenuPrincipal :: map De o, bd')
    end =
    match x with
    | ((Ret _, i, o), bd') =>
        precedido (MenuPrincipal :: map De o) (bucle_menu n reloj bd' i)
    | ((Raise e, i, o), bd') =>
        Some (Raise e, i, MenuPrincipal :: map De o, bd')
    end).
  { intros [[[[[]|e] i] o] bd1] Hl; unfold restantes in Hl; simpl in Hl;
      [|reflexivity].
    rewrite (IH m bd1 i) by lia. reflexivity. }
  destruct (str_eqb opcion (of_ascii "1")).
  { apply (Hx (registrar_cliente bd ins1)), resto_registrar_cliente. }
  destruct (str_eqb opcion (of_ascii "2")).
  { apply (Hx (registrar_sala bd ins1)), resto_registrar_sala. }
  destruct (str_eqb opcion (of_ascii "3")).
  { apply (Hx (registrar_reservacion bd _ _ ins1)),
      resto_registrar_reservacion. }
  destruct (str_eqb opcion (of_ascii "4")).
  { apply (Hx (editar_evento bd ins1)), resto_editar_evento. }
  destruct (str_eqb opcion (of_ascii "5")).
  { apply (Hx (consultar_reservaciones bd _ ins1, bd)),
      resto_consultar_reservaciones. }
  destruct (str_eqb opcion (of_ascii "6")).
  - destruct ins1 as [|confirmar ins2]; [reflexivity|].
    destruct (str_eqb _ _); [reflexivity|].
    simpl in Hn. rewrite (IH m bd ins2) by lia. reflexivity.
  - rewrite (IH m bd ins1) by lia. reflexivity.
Qed.

(** X1.  A session on any pending answers ends: by leaving through
    option 6 confirmed with "s" (the only normal end, and then the last
    two lines printed are the menu and the farewell), or by an uncaught
    exception.  The tables it leaves are reached from the tables it
    started on by menu choices, so from no database file they are
    reachable tables, and whatever [integra] held at the start holds at
    the end.  More turns than pending answers never change the outcome. *)
Theorem menu_sesion (reloj : nat -> date * time) (archivo : option BD)
    (ins : list str) :
  exists r i o bd',
    menu reloj archivo ins = Some (r, i, o, bd')
    /\ desde (snd (inicializar_bd archivo)) bd'
    /\ (archivo = None -> alcanzable bd')
    /\ (integra (snd (inicializar_bd archivo)) -> integra bd')
    /\ (r = Ret tt -> exists o', o = o' ++ [MenuPrincipal; Saliendo])
    /\ (forall n, (List.length ins < n)%nat ->
          precedido (fst (inicializar_bd archivo))
            (bucle_menu n reloj (snd (inicializar_bd archivo)) ins)
          = menu reloj archivo ins).
Proof.
  unfold menu.
  destruct (inicializar_bd archivo) as [o0 bd0] eqn:E0. cbn [fst snd].
  destruct (bucle_menu_ok reloj (S (List.length ins)) bd0 ins (le_n _))
    as (r & i & o & bd' & E & Hd & Hs).
  exists r, i, (o0 ++ o), bd'. rewrite E. simpl.
  split; [reflexivity|]. split; [exact Hd|].
  split; [|split; [|split]].
  - intros ->. simpl in E0. inversion E0; subst.
    apply desde_alcanzable with bd_vacia; [apply alc_inicio | exact Hd].
  - intros Hi. apply desde_integra with bd0; auto.
  - intros Hr. destruct (Hs Hr) as (o' & ->).
    exists (o0 ++ o'). rewrite app_assoc. reflexivity.
  - intros n Hn. rewrite (bucle_menu_estable reloj (S (List.length ins)))
      by lia.
    rewrite E. reflexivity.
Qed.

(** ** What gets stored *)

Lemma registrar_cliente_casos (bd : BD) (ins : list str) :
  snd (registrar_cliente bd ins) = bd
  \/ exists n a,
       snd (registrar_cliente bd ins) = insert_cliente bd n a
       /\ validar_texto n = true /\ validar_texto a = true
       /\ strip n = n /\ strip a = a.
Proof.
  unfold registrar_cliente.
  destruct ins as [|a [|b ins]]; simpl; auto.
  - destruct (validar_texto (strip a)); simpl; auto.
  - destruct (validar_texto (strip a)) eqn:Ea; simpl; auto.
    destruct (validar_texto (strip b)) eqn:Eb; simpl; auto.
    right. exists (strip a), (strip b). auto using strip_idem.
Qed.

Lemma registrar_sala_casos (bd : BD) (ins : list str) :
  snd (registrar_sala bd ins) = bd
  \/ exists n c,
       snd (registrar_sala bd ins) = insert_sala bd n c
       /\ validar_texto n = true /\ strip n = n
       /\ 0 < c /\ int64 c = true.
Proof.
  unfold registrar_sala.
  destruct ins as [|a [|b ins]]; simpl; auto.
  - destruct (validar_texto (strip a)); simpl; auto.
  - destruct (validar_texto (strip a)) eqn:Ea; simpl; auto.
    destruct (int_ b) as [c|]; simpl; auto.
    destruct (Z.leb_spec c 0); simpl; auto.
    destruct (int64 c) eqn:Ec; simpl; auto.
    right. exists (strip a), c. auto using strip_idem.
Qed.

Lemma pedir_evento_recortado (ins : list str) (e : str) :
  resultado (pedir_evento ins) = Ret e -> strip e = e.
Proof.
  induction ins as [|a ins IH]; simpl; [discriminate|].
  destruct (validar_evento (strip a)).
  - intros H; inversion H; subst. apply strip_idem.
  - rewrite resultado_tras. exact IH.
Qed.

Lemma snd_tras_bd {A} (m : Msg) (x : IO A * BD) : snd (tras_bd m x) = snd x.
Proof. reflexivity. Qed.

Lemma registrar_reservacion_recortado (bd : BD) (hoy : date) (ahora : time)
    (ins : list str) :
  snd (registrar_reservacion bd hoy ahora ins) = bd
  \/ exists c s fh t e,
       strip e = e
       /\ snd (registrar_reservacion bd hoy ahora ins)
          = insert_reservacion bd c s fh t e.
Proof.
  unfold registrar_reservacion.
  destruct (select_clientes bd) as [|c0 cs]; auto.
  rewrite snd_tras_bd, snd_luego.
  destruct (resultado (pedir_cliente (c0 :: cs) ins)) as [[c|]|]; auto.
  rewrite snd_luego.
  destruct (resultado (pedir_fecha hoy _)) as [fecha|]; auto.
  destruct (salas bd) as [|s0 ss]; auto.
  destruct (disponible_salas bd (s0 :: ss) fecha) as [|d0 ds]; auto.
  rewrite snd_tras_bd, snd_luego.
  destruct (resultado (pedir_sala bd fecha _)) as [[s t]|]; auto.
  rewrite snd_luego.
  match goal with
  | |- context [pedir_evento ?i] =>
      pose proof (pedir_evento_recortado i) as He;
      destruct (resultado (pedir_evento i)) as [e|]; auto
  end.
  unfold guardar.
  destruct (select_nombre_cliente bd c); auto.
  destruct (select_nombre_sala bd (fst (s, t))); auto.
  right. simpl. do 5 eexists. split; [apply (He e eq_refl) | reflexivity].
Qed.

Lemma insert_reservacion_inj (bd : BD) (c s c' s' : Z) (fh fh' : datetime)
    (t e t' e' : str) :
  insert_reservacion bd c s fh t e = insert_reservacion bd c' s' fh' t' e' ->
  e = e'.
Proof.
  unfold insert_reservacion. intros H. inversion H as [H1].
  apply app_inv_head in H1. inversion H1. reflexivity.
Qed.

Lemma filter_existsb {A} (p : A -> bool) (l : list A) (x : A) (r : list A) :
  filter p l = x :: r -> existsb p l = true.
Proof.
  intros E. apply existsb_exists. exists x.
  apply filter_In. rewrite E. left; reflexivity.
Qed.

(** Induction over the reachable tables, by the statement that wrote
    last and what the code had checked before running it. *)
Lemma alcanzable_por_escritura (P : BD -> Prop) :
  P bd_vacia ->
  (forall bd n a, alcanzable bd -> P bd ->
     validar_texto n = true -> validar_texto a = true ->
     strip n = n -> strip a = a -> P (insert_cliente bd n a)) ->
  (forall bd n c, alcanzable bd -> P bd ->
     validar_texto n = true -> strip n = n -> 0 < c -> int64 c = true ->
     P (insert_sala bd n c)) ->
  (forall bd c s fecha ahora t e, alcanzable bd -> P bd ->
     existsClient bd c = true -> existsRoom bd s = true ->
     weekday fecha <> 6 -> en_lista t TURNOS = true ->
     sala_disponible bd s fecha t = true ->
     validar_evento e = true -> strip e = e ->
     P (insert_reservacion bd c s (combine fecha ahora) t e)) ->
  (forall bd e f, alcanzable bd -> P bd ->
     no_vacio e = true -> strip e = e -> P (update_evento bd e f)) ->
  forall bd, alcanzable bd -> P bd.
Proof.
  intros H0 Hc Hs Hr He bd Ha.
  induction Ha as [|bd bd' Ha IH Hp]; auto.
  revert Ha IH. destruct Hp as [b ins|b ins|b hoy ahora ins|b ins];
    intros Ha IH.
  - destruct (registrar_cliente_casos b ins)
      as [->|(n & a & -> & H1 & H2 & H3 & H4)]; auto.
  - destruct (registrar_sala_casos b ins)
      as [->|(n & c & -> & H1 & H2 & H3 & H4)]; auto.
  - destruct (registrar_reservacion_efecto b hoy ahora ins)
      as [[-> _]|(c & s & f & t & e & cl & sa & Hal)]; auto.
    destruct Hal as (E & _ & _ & _ & Hcl & _ & Hw & Ht & _ & Hd & Hv
                     & _ & (ls & Hsa)).
    destruct (registrar_reservacion_recortado b hoy ahora ins)
      as [E'|(c' & s' & fh' & t' & e' & Hst & E')].
    { exfalso. rewrite E' in E. unfold insert_reservacion in E.
      apply (f_equal (fun x => List.length (reservaciones x))) in E.
      simpl in E. rewrite length_app in E. simpl in E. lia. }
    rewrite E. apply Hr; auto.
    + unfold select_nombre_sala in Hsa. unfold existsRoom.
      destruct (filter (fun x => id_sala x =? s) (salas b)) as [|x r] eqn:F;
        [discriminate|].
      apply (filter_existsb _ _ _ _ F).
    + rewrite E in E'. apply insert_reservacion_inj in E'. congruence.
  - destruct (editar_evento_efecto b ins) as [->|(e & f & Hn & Hst & ->)];
      auto.
Qed.

Lemma max_seq (a n : nat) :
  fold_right Z.max 0 (map Z.of_nat (seq a n))
  = if Nat.eqb n 0 then 0 else Z.of_nat (a + n - 1).
Proof.
  revert a; induction n as [|n IH]; intros a; simpl; auto.
  rewrite IH. destruct (Nat.eqb_spec n 0); lia.
Qed.

Lemma siguiente_seguidas (l : list Z) :
  claves_seguidas l -> siguiente l = Z.of_nat (S (List.length l)).
Proof.
  unfold claves_seguidas, siguiente. intros E. rewrite E at 1.
  rewrite max_seq. destruct (Nat.eqb_spec (List.length l) 0); lia.
Qed.

Lemma seguidas_snoc (l : list Z) :
  claves_seguidas l -> claves_seguidas (l ++ [siguiente l]).
Proof.
  intros E. unfold claves_seguidas.
  rewrite length_app, Nat.add_comm. simpl List.length.
  rewrite seq_S, map_app, <- E, (siguiente_seguidas l E). reflexivity.
Qed.

(** X2.  In every store the program can reach, the keys of each table
    are 1, 2, ..., n in row order: the next client, room or folio number
    is one more than the number of rows. *)
Theorem claves_consecutivas (bd : BD) :
  alcanzable bd ->
  claves_seguidas (map id_cliente (clientes bd))
  /\ claves_seguidas (map id_sala (salas bd))
  /\ claves_seguidas (map folio (reservaciones bd))
  /\ lastrowid bd = Z.of_nat (S (List.length (reservaciones bd))).
Proof.
  intros Ha.
  assert (H : claves_seguidas (map id_cliente (clientes bd))
              /\ claves_seguidas (map id_sala (salas bd))
              /\ claves_seguidas (map folio (reservaciones bd))).
  { revert bd Ha. apply alcanzable_por_escritura.
    - repeat split.
    - intros bd n a _ (H1 & H2 & H3) _ _ _ _. simpl.
      rewrite map_app. simpl. auto using seguidas_snoc.
    - intros bd n c _ (H1 & H2 & H3) _ _ _ _. simpl.
      rewrite map_app. simpl. auto using seguidas_snoc.
    - intros bd c s f ah t e _ (H1 & H2 & H3) _ _ _ _ _ _ _. simpl.
      rewrite map_app. simpl. auto using seguidas_snoc.
    - intros bd e f _ (H1 & H2 & H3) _ _. simpl.
      rewrite map_map, (map_ext _ folio); auto using folio_con_evento. }
  destruct H as (H1 & H2 & H3). repeat split; auto.
  unfold lastrowid. rewrite (siguiente_seguidas _ H3), length_map.
  reflexivity.
Qed.

(** X3.  In every store the program can reach, each client's name and
    surname and each room's name pass [validar_texto] and carry no blanks
    around them, and each room's capacity is positive and fits SQLite's
    INTEGER. *)
Theorem fichas_en_regla (bd : BD) : alcanzable bd -> fichas_validas bd.
Proof.
  revert bd. apply alcanzable_por_escritura; unfold fichas_validas; simpl.
  - split; constructor.
  - intros bd n a _ [H1 H2] Hn Ha Sn Sa. split; [|exact H2].
    apply Forall_app; split; [exact H1|]. repeat constructor; auto.
  - intros bd n c _ [H1 H2] Hn Sn Hc Hi. split; [exact H1|].
    apply Forall_app; split; [exact H2|]. repeat constructor; auto.
    unfold int64 in Hi. apply andb_true_iff in Hi. destruct Hi as [_ Hi].
    apply Z.leb_le in Hi. exact Hi.
  - intros; auto.
  - intros; auto.
Qed.

Lemma existsb_app_l {A} (p : A -> bool) (l l' : list A) :
  existsb p l = true -> existsb p (l ++ l') = true.
Proof. intros H. rewrite existsb_app, H. reflexivity. Qed.

Lemma referencias_alcanzable (bd : BD) :
  alcanzable bd ->
  Forall (fun r => existsClient bd (res_id_cliente r) = true
                   /\ existsRoom bd (res_id_sala r) = true)
         (reservaciones bd).
Proof.
  revert bd. apply alcanzable_por_escritura; simpl.
  - constructor.
  - intros bd n a _ H _ _ _ _. eapply Forall_impl; [|exact H].
    intros r [H1 H2]. split; auto.
    unfold existsClient in *. simpl. apply existsb_app_l; auto.
  - intros bd n c _ H _ _ _ _. eapply Forall_impl; [|exact H].
    intros r [H1 H2]. split; auto.
    unfold existsRoom in *. simpl. apply existsb_app_l; auto.
  - intros bd c s f ah t e _ H Hc Hs _ _ _ _ _.
    apply Forall_app; split; [exact H|]. repeat constructor; auto.
  - intros bd e f _ H _ _. rewrite Forall_forall in *.
    intros r' Hr'. apply in_map_iff in Hr'. destruct Hr' as (r & <- & Hr).
    specialize (H r Hr). destruct (folio r =? f); auto.
Qed.

(** X4.  In every store the program can reach, each reservation's client
    number and room number are on file, although the schema's foreign keys
    are not enforced and the room number is never looked up before the
    INSERT: the failed name lookup rolls an orphan row back. *)
Theorem referencias_validas (bd : BD) :
  alcanzable bd ->
  Forall (fun r => existsClient bd (res_id_cliente r) = true
                   /\ existsRoom bd (res_id_sala r) = true)
         (reservaciones bd).
Proof. apply referencias_alcanzable. Qed.

(** X5.  In every store the program can reach, no reservation falls on a
    Sunday, each shift is one of the three labels, and each event name is
    stored stripped and non-empty. *)
Theorem reservas_en_regla (bd : BD) :
  alcanzable bd ->
  Forall (fun r => weekday (dt_fecha (fecha_registro r)) <> 6
                   /\ In (turno r) TURNOS
                   /\ strip (evento r) = evento r
                   /\ evento r <> [])
         (reservaciones bd).
Proof.
  revert bd. apply alcanzable_por_escritura.
  - constructor.
  - intros bd n a _ H _ _ _ _. exact H.
  - intros bd n c _ H _ _ _ _. exact H.
  - intros bd c s f ah t e _ H _ _ Hw Ht _ Hv He.
    cbn [reservaciones insert_reservacion].
    apply Forall_app; split; [exact H|].
    constructor; [|constructor].
    cbn [fecha_registro dt_fecha turno evento].
    repeat split; auto.
    + apply en_lista_In; auto.
    + unfold validar_evento in Hv. rewrite He in Hv.
      apply no_vacio_iff; auto.
  - intros bd e f _ H Hn He. cbn [reservaciones update_evento].
    rewrite Forall_forall in *.
    intros r' Hr'. apply in_map_iff in Hr'. destruct Hr' as (r & <- & Hr).
    specialize (H r Hr). destruct (folio r =? f); auto.
    cbn [con_evento fecha_registro dt_fecha turno evento].
    repeat split; try tauto. apply no_vacio_iff; auto.
Qed.

(** X6.  Whatever the answers, a reservation that a run of
    [registrar_reservacion] adds carries the next folio, a date 2 or more
    days after the day of the run that is not a Sunday, the time of the
    run, and a client and a room that are on file. *)
Theorem alta_en_regla (bd : BD) (hoy : date) (ahora : time)
    (ins : list str) (r : Reservacion) :
  In r (reservaciones (snd (registrar_reservacion bd hoy ahora ins))) ->
  In r (reservaciones bd)
  \/ (folio r = lastrowid bd
      /\ 2 <= dias_entre (dt_fecha (fecha_registro r)) hoy
      /\ weekday (dt_fecha (fecha_registro r)) <> 6
      /\ dt_hora (fecha_registro r) = ahora
      /\ existsClient bd (res_id_cliente r) = true
      /\ existsRoom bd (res_id_sala r) = true).
Proof.
  destruct (registrar_reservacion_efecto bd hoy ahora ins)
    as [[-> _]|(c & s & f & t & e & cl & sa & Hal)]; auto.
  destruct Hal as (-> & _ & _ & _ & Hcl & Hd & Hw & _ & _ & _ & _
                   & _ & (ls & Hsa)).
  simpl. intros Hin. apply in_app_or in Hin.
  destruct Hin as [Hin|[<-|[]]]; auto.
  right. simpl. repeat split; auto.
  unfold select_nombre_sala in Hsa. unfold existsRoom.
  destruct (filter (fun x => id_sala x =? s) (salas bd)) as [|x rr] eqn:F;
    [discriminate|].
  apply (filter_existsb _ _ _ _ F).
Qed.

(** ** Passes through [registrar_reservacion] *)

Lemma existsb_falso_filter {A} (p : A -> bool) (l : list A) :
  existsb p l = false -> filter p l = [].
Proof.
  induction l as [|a l IH]; simpl; auto.
  destruct (p a); simpl; [discriminate | auto].
Qed.

(** The start of a pass: a known client and an accepted date. *)
Lemma registrar_reservacion_hasta_fecha (bd : BD) (hoy : date)
    (ahora : time) (cs fs : str) (resto : list str) (c : Z) (fecha : date) :
  int_ cs = Some c -> c <> 0 -> existsClient bd c = true ->
  strptime (strip fs) = Some fecha ->
  2 <= dias_entre fecha hoy -> weekday fecha <> 6 ->
  registrar_reservacion bd hoy ahora (cs :: fs :: resto) =
  tras_bd
    (TablaClientes
       (map (fun c => (id_cliente c, apellidos c, nombre c))
            (select_clientes bd)))
    match salas bd with
    | [] => ((Ret tt, resto, [NoHaySalas]), bd)
    | _ :: _ =>
        match disponible_salas bd (salas bd) fecha with
        | [] => ((Ret tt, resto, [NoHaySalasDisponibles]), bd)
        | ds =>
            tras_bd (TablaSalas ds)
              (luego bd (pedir_sala bd fecha resto)
                 (fun st i3 =>
                    luego bd (pedir_evento i3) (fun e i4 =>
                      guardar bd ahora c (fst st) fecha (snd st) e i4)))
        end
    end.
Proof.
  intros Hcs Hc0 Hcl Hfs Hd Hw.
  unfold registrar_reservacion.
  assert (Hv : validar_clave_cliente c (select_clientes bd) = true).
  { unfold validar_clave_cliente, select_clientes.
    apply existsb_en_ordenar. exact Hcl. }
  destruct (select_clientes bd) as [|c0 cl] eqn:Ecl; [discriminate|].
  cbn [pedir_cliente]. rewrite Hcs.
  apply Z.eqb_neq in Hc0. rewrite Hc0, Hv.
  cbn [luego pedir_fecha]. unfold validar_fecha_simple. rewrite Hfs.
  apply Z.ltb_ge in Hd. rewrite Hd.
  apply Z.eqb_neq in Hw. rewrite Hw.
  cbn [luego].
  destruct (salas bd) as [|s0 sl]; [reflexivity|].
  destruct (disponible_salas bd (s0 :: sl) fecha) as [|d0 dl];
    [reflexivity|].
  cbn [app].
  destruct (tras_bd (TablaSalas (d0 :: dl)) _) as [[[r i] o] bd'].
  reflexivity.
Qed.

(** A free slot named at the room prompt, then a non-blank event name. *)
Lemma pedir_sala_y_evento (bd : BD) (ahora : time) (fecha : date)
    (ss ts es : str) (c s : Z) :
  int_ ss = Some s -> int64 s = true ->
  en_lista (lower ts) TURNOS = true ->
  sala_disponible bd s fecha (lower ts) = true ->
  strip es <> [] ->
  luego bd (pedir_sala bd fecha [ss; ts; es])
    (fun st i3 =>
       luego bd (pedir_evento i3) (fun e i4 =>
         guardar bd ahora c (fst st) fecha (snd st) e i4))
  = guardar bd ahora c s fecha (lower ts) (strip es) [].
Proof.
  intros Hss Hi Ht Hs He.
  cbn [pedir_sala]. rewrite Hss. cbv zeta. rewrite Ht, Hi, Hs.
  cbn [negb luego pedir_evento fst snd]. cbv zeta.
  unfold validar_evento. rewrite strip_idem.
  apply no_vacio_iff in He. rewrite He. cbn [luego app].
  destruct (guardar bd ahora c s fecha (lower ts) (strip es) [])
    as [[[r i] o] bd']. reflexivity.
Qed.

Lemma disponible_salas_nil (bd : BD) (fecha : date) :
  disponible_salas bd [] fecha = [].
Proof. reflexivity. Qed.

(** X7.  In a store the program can reach, a pass that names a room number
    no room has (known client, accepted date, valid shift, some room with
    a free shift that day) stores nothing and reports no unknown room: a
    blank event name is reported as such, and with a non-blank name the
    function ends in an uncaught [IndexError]. *)
Theorem sala_desconocida (bd : BD) (hoy : date) (ahora : time)
    (cs fs ss ts es : str) (c s : Z) (fecha : date) :
  alcanzable bd ->
  int_ cs = Some c -> c <> 0 -> existsClient bd c = true ->
  strptime (strip fs) = Some fecha ->
  2 <= dias_entre fecha hoy -> weekday fecha <> 6 ->
  int_ ss = Some s -> int64 s = true -> existsRoom bd s = false ->
  en_lista (lower ts) TURNOS = true ->
  disponible_salas bd (salas bd) fecha <> [] ->
  let run := registrar_reservacion bd hoy ahora [cs; fs; ss; ts; es] in
  snd run = bd
  /\ primer_error (impreso (fst run))
     = (if no_vacio (strip es) then None else Some BlankEventName)
  /\ (strip es <> [] -> resultado (fst run) = Raise IndexError).
Proof.
  intros Ha Hcs Hc0 Hcl Hfs Hd Hw Hss Hi Hro Ht Hds run. subst run.
  rewrite (registrar_reservacion_hasta_fecha bd hoy ahora cs fs _ c fecha);
    auto.
  destruct (salas bd) as [|s0 sl] eqn:Esl.
  { rewrite disponible_salas_nil in Hds. contradiction. }
  destruct (disponible_salas bd (s0 :: sl) fecha) as [|d0 dl] eqn:Eds;
    [contradiction|].
  assert (Hs : sala_disponible bd s fecha (lower ts) = true).
  { apply sala_disponible_libre. intros (r & Hr & Er).
    pose proof (referencias_alcanzable bd Ha) as Hf.
    rewrite Forall_forall in Hf. destruct (Hf r Hr) as [_ Hx].
    unfold ranura in Er. inversion Er as [[E1 E2 E3]].
    rewrite E1 in Hx. congruence. }
  destruct (no_vacio (strip es)) eqn:Ee.
  - rewrite (pedir_sala_y_evento bd ahora fecha ss ts es c s); auto.
    2:{ apply no_vacio_iff; auto. }
    unfold guardar.
    unfold existsClient in Hcl. apply existsb_filter in Hcl.
    destruct Hcl as (x & rx & Hx).
    unfold select_nombre_cliente, select_nombre_sala. rewrite Hx.
    unfold existsRoom in Hro. rewrite (existsb_falso_filter _ _ Hro).
    simpl. repeat split.
  - cbn [pedir_sala]. rewrite Hss. cbv zeta. rewrite Ht, Hi, Hs.
    cbn [negb luego pedir_evento]. cbv zeta.
    unfold validar_evento. rewrite strip_idem, Ee.
    simpl. repeat split.
    intros H. apply no_vacio_iff in H. congruence.
Qed.

Lemma turnos_libres_ninguno (bd : BD) (id : Z) (fecha : date) :
  turnos_libres bd id fecha = [] <->
  forall t, In t TURNOS -> ocupada bd id fecha t.
Proof.
  unfold turnos_libres. split.
  - intros E t Ht. apply sala_disponible_ocupada.
    destruct (sala_disponible bd id fecha t) eqn:Es; auto.
    assert (In t (filter (fun t => sala_disponible bd id fecha t) TURNOS))
      by (apply filter_In; auto).
    rewrite E in H. destruct H.
  - intros H. apply filter_ninguno. intros t Ht.
    apply sala_disponible_ocupada. auto.
Qed.

Lemma in_disponible_salas (bd : BD) (ss : list Sala) (fecha : date)
    (fila : FilaSala) :
  In fila (disponible_salas bd ss fecha) <->
  exists s, In s ss
    /\ turnos_libres bd (id_sala s) fecha <> []
    /\ fila = (id_sala s, sala_nombre s, cupo s,
               turnos_libres bd (id_sala s) fecha).
Proof.
  unfold disponible_salas. rewrite in_flat_map. split.
  - intros (s & Hs & H). exists s. split; auto.
    destruct (turnos_libres bd (id_sala s) fecha) as [|t tl]; [destruct H|].
    destruct H as [<-|[]]. split; [discriminate | reflexivity].
  - intros (s & Hs & Hn & ->). exists s. split; auto.
    destruct (turnos_libres bd (id_sala s) fecha) as [|t tl];
      [contradiction | left; reflexivity].
Qed.

Lemma disponible_salas_ninguna (bd : BD) (ss : list Sala) (fecha : date) :
  disponible_salas bd ss fecha = [] <->
  forall s, In s ss -> forall t, In t TURNOS ->
            ocupada bd (id_sala s) fecha t.
Proof.
  split.
  - intros E s Hs. apply turnos_libres_ninguno.
    destruct (turnos_libres bd (id_sala s) fecha) as [|t tl] eqn:Et; auto.
    assert (In (id_sala s, sala_nombre s, cupo s, t :: tl)
               (disponible_salas bd ss fecha)).
    { apply in_disponible_salas. exists s. rewrite Et.
      repeat split; auto. discriminate. }
    rewrite E in H. destruct H.
  - intros H. destruct (disponible_salas bd ss fecha) as [|f l] eqn:E; auto.
    assert (Hin : In f (disponible_salas bd ss fecha))
      by (rewrite E; left; reflexivity).
    apply in_disponible_salas in Hin. destruct Hin as (s & Hs & Hn & _).
    exfalso. apply Hn. apply turnos_libres_ninguno. auto.
Qed.

(** X8.  The rooms offered for a date are exactly the rooms on file with
    a free shift, each with its free shifts.  When every shift of every
    room is taken that day (or no room is on file), a pass with a known
    client and an accepted date ends right after the date: it prints the
    no-rooms message, never asks for a room, leaves the later answers
    unread and stores nothing. *)
Theorem dia_completo (bd : BD) (hoy : date) (ahora : time) (cs fs : str)
    (c : Z) (fecha : date) :
  int_ cs = Some c -> c <> 0 -> existsClient bd c = true ->
  strptime (strip fs) = Some fecha ->
  2 <= dias_entre fecha hoy -> weekday fecha <> 6 ->
  (forall fila, In fila (disponible_salas bd (salas bd) fecha) <->
     exists s, In s (salas bd)
       /\ (exists t, In t TURNOS /\ ~ ocupada bd (id_sala s) fecha t)
       /\ fila = (id_sala s, sala_nombre s, cupo s,
                  turnos_libres bd (id_sala s) fecha))
  /\ ((forall s, In s (salas bd) -> forall t, In t TURNOS ->
         ocupada bd (id_sala s) fecha t) ->
      forall resto,
        registrar_reservacion bd hoy ahora (cs :: fs :: resto) =
        ((Ret tt, resto,
          [TablaClientes
             (map (fun c => (id_cliente c, apellidos c, nombre c))
                  (select_clientes bd));
           match salas bd with
           | [] => NoHaySalas
           | _ :: _ => NoHaySalasDisponibles
           end]), bd)).
Proof.
  intros Hcs Hc0 Hcl Hfs Hd Hw. split.
  - intros fila. rewrite in_disponible_salas.
    split; intros (s & Hs & Hn & E); exists s; repeat split; auto.
    + destruct (turnos_libres bd (id_sala s) fecha) as [|t tl] eqn:Et;
        [contradiction|].
      assert (Hin : In t (turnos_libres bd (id_sala s) fecha))
        by (rewrite Et; left; reflexivity).
      unfold turnos_libres in Hin. apply filter_In in Hin.
      destruct Hin as [Ht Hl]. exists t. split; auto.
      apply sala_disponible_libre; auto.
    + destruct Hn as (t & Ht & Hl). intros E0.
      rewrite turnos_libres_ninguno in E0. auto.
  - intros Hoc resto.
    rewrite (registrar_reservacion_hasta_fecha bd hoy ahora cs fs resto c
               fecha); auto.
    destruct (salas bd) as [|s0 sl] eqn:Esl; [reflexivity|].
    apply disponible_salas_ninguna in Hoc. rewrite Hoc. reflexivity.
Qed.

(** A pass with every check passing stores the reservation. *)
Lemma registrar_reservacion_pase_bueno (bd : BD) (hoy : date)
    (ahora : time) (cs fs ss ts es : str) (c s : Z) (fecha : date) :
  int_ cs = Some c -> c <> 0 -> existsClient bd c = true ->
  strptime (strip fs) = Some fecha ->
  2 <= dias_entre fecha hoy -> weekday fecha <> 6 ->
  int_ ss = Some s -> int64 s = true -> existsRoom bd s = true ->
  en_lista (lower ts) TURNOS = true ->
  sala_disponible bd s fecha (lower ts) = true ->
  strip es <> [] ->
  snd (registrar_reservacion bd hoy ahora [cs; fs; ss; ts; es])
  = insert_reservacion bd c s (combine fecha ahora) (lower ts) (strip es).
Proof.
  intros Hcs Hc0 Hcl Hfs Hd Hw Hss Hi Hro Ht Hs He.
  pose proof (libre_disponible bd s fecha (lower ts) Hro Ht Hs) as Hds.
  rewrite (registrar_reservacion_hasta_fecha bd hoy ahora cs fs _ c fecha);
    auto.
  destruct (salas bd) as [|s0 sl] eqn:Esl.
  { rewrite disponible_salas_nil in Hds. contradiction. }
  destruct (disponible_salas bd (s0 :: sl) fecha) as [|d0 dl] eqn:Eds;
    [contradiction|].
  rewrite !snd_tras_bd.
  rewrite (pedir_sala_y_evento bd ahora fecha ss ts es c s); auto.
  unfold guardar.
  unfold existsClient in Hcl. apply existsb_filter in Hcl.
  destruct Hcl as (x & rx & Hx).
  assert (Hy : exists y ry, filter (fun x => id_sala x =? s) (salas bd)
                            = y :: ry).
  { apply existsb_filter. exact Hro. }
  destruct Hy as (y & ry & Hy).
  unfold select_nombre_cliente, select_nombre_sala. rewrite Hx, Hy.
  reflexivity.
Qed.

(** X9.  A pass with every check passing stores the reservation with the
    next folio; the same answers given again, at any time of that day,
    store nothing: the slot is reported as taken, or, when that was the
    last free shift of the day, the run ends with the no-rooms message. *)
Theorem repetir_pase (bd : BD) (hoy : date) (ahora : time)
    (cs fs ss ts es : str) (c s : Z) (fecha : date) :
  int_ cs = Some c -> c <> 0 -> existsClient bd c = true ->
  strptime (strip fs) = Some fecha ->
  2 <= dias_entre fecha hoy -> weekday fecha <> 6 ->
  int_ ss = Some s -> int64 s = true -> existsRoom bd s = true ->
  en_lista (lower ts) TURNOS = true ->
  sala_disponible bd s fecha (lower ts) = true ->
  strip es <> [] ->
  let bd' := snd (registrar_reservacion bd hoy ahora [cs; fs; ss; ts; es]) in
  reservaciones bd'
  = reservaciones bd
    ++ [mkReservacion (lastrowid bd) c s (combine fecha ahora) (lower ts)
                      (strip es)]
  /\ forall ahora',
       let run := registrar_reservacion bd' hoy ahora' [cs; fs; ss; ts; es] in
       snd run = bd'
       /\ (primer_error (impreso (fst run)) = Some ShiftOccupied
           \/ In NoHaySalasDisponibles (impreso (fst run))).
Proof.
  intros Hcs Hc0 Hcl Hfs Hd Hw Hss Hi Hro Ht Hs He bd'. subst bd'.
  rewrite (registrar_reservacion_pase_bueno bd hoy ahora cs fs ss ts es c s
             fecha); auto.
  split; [reflexivity|]. intros ahora' run. subst run.
  set (bd' := insert_reservacion bd c s (combine fecha ahora) (lower ts)
                                 (strip es)).
  assert (Hcl' : existsClient bd' c = true) by exact Hcl.
  assert (Hro' : existsRoom bd' s = true) by exact Hro.
  assert (Hs' : sala_disponible bd' s fecha (lower ts) = false).
  { apply sala_disponible_ocupada. eexists. split.
    - unfold bd', insert_reservacion. simpl. apply in_or_app. right.
      left. reflexivity.
    - reflexivity. }
  destruct (disponible_salas bd' (salas bd') fecha) as [|d0 dl] eqn:Eds.
  - rewrite (registrar_reservacion_hasta_fecha bd' hoy ahora' cs fs _ c
               fecha); auto.
    rewrite Eds.
    destruct (salas bd') as [|s0 sl] eqn:Esl.
    { unfold existsRoom in Hro'. rewrite Esl in Hro'. discriminate. }
    simpl. split; [reflexivity|]. right. auto.
  - destruct (registrar_reservacion_guion bd' hoy ahora' cs fs ss ts es c s
                fecha Hcs Hc0 Hcl' Hfs Hd Hw Hss Hi Hro' Ht)
      as (o0 & r & o1 & Ho0 & E).
    { rewrite Eds. discriminate. }
    rewrite E, Hs'. simpl. split; [reflexivity|]. left.
    rewrite (primer_error_ninguno _ _ Ho0). reflexivity.
Qed.

(** ** Consultation and range listing *)

Lemma unir_uno (bd : BD) (r : Reservacion) :
  claves_unicas bd ->
  existsClient bd (res_id_cliente r) = true ->
  existsRoom bd (res_id_sala r) = true ->
  exists c s, In c (clientes bd) /\ In s (salas bd)
    /\ id_cliente c = res_id_cliente r /\ id_sala s = res_id_sala r
    /\ unir bd r = [mkRegistro (folio r) (nombre c ++ espacio ++ apellidos c)
                               (sala_nombre s) (turno r) (evento r)].
Proof.
  intros [Hc Hs] Ec Es.
  unfold existsClient in Ec. apply existsb_filter in Ec.
  destruct Ec as (c & rc & Fc).
  unfold existsRoom in Es. apply existsb_filter in Es.
  destruct Es as (s & rs & Fs).
  assert (Ic : In c (filter (fun x => id_cliente x =? res_id_cliente r)
                            (clientes bd))) by (rewrite Fc; left; auto).
  assert (Is : In s (filter (fun x => id_sala x =? res_id_sala r)
                            (salas bd))) by (rewrite Fs; left; auto).
  apply filter_In in Ic. destruct Ic as [Ic Kc]. apply Z.eqb_eq in Kc.
  apply filter_In in Is. destruct Is as [Is Ks]. apply Z.eqb_eq in Ks.
  exists c, s. repeat split; auto.
  unfold unir.
  rewrite (clave_unica id_cliente (res_id_cliente r) _ (clientes bd) c rc
             Hc Fc).
  rewrite (clave_unica id_sala (res_id_sala r) _ (salas bd) s rs Hs Fs).
  reflexivity.
Qed.

Lemma unir_resumen (bd : BD) (l : list Reservacion) :
  claves_unicas bd ->
  Forall (fun r => existsClient bd (res_id_cliente r) = true
                   /\ existsRoom bd (res_id_sala r) = true) l ->
  map (fun g => (reg_folio g, reg_turno g, reg_evento g))
      (flat_map (unir bd) l)
  = map (fun r => (folio r, turno r, evento r)) l.
Proof.
  intros Hk. induction 1 as [|r l [Hc Hs] _ IH]; simpl; auto.
  destruct (unir_uno bd r Hk Hc Hs) as (c & s & _ & _ & _ & _ & ->).
  simpl. rewrite IH. reflexivity.
Qed.

Lemma NoDup_map_filter {A C} (f : A -> C) (p : A -> bool) (l : list A) :
  NoDup (map f l) -> NoDup (map f (filter p l)).
Proof.
  induction l as [|a l IH]; simpl; auto.
  intros H. inversion H as [|? ? Ha Hl]; subst.
  destruct (p a); simpl; auto. constructor; auto.
  intros Hin. apply Ha. apply in_map_iff in Hin.
  destruct Hin as (x & <- & Hx). apply filter_In in Hx.
  apply in_map. tauto.
Qed.

(** X10.  In every store the program can reach, the consultation of a
    date lists each reservation of that date exactly once, with its folio,
    shift and event: the join neither drops nor repeats a row. *)
Theorem consulta_completa (bd : BD) (f : date) :
  alcanzable bd ->
  Permutation
    (map (fun g => (reg_folio g, reg_turno g, reg_evento g))
         (select_registros bd f))
    (map (fun r => (folio r, turno r, evento r)) (del_dia bd f))
  /\ List.length (select_registros bd f) = List.length (del_dia bd f)
  /\ NoDup (map reg_folio (select_registros bd f)).
Proof.
  intros Ha.
  destruct (integra_alcanzable bd Ha) as (_ & Hf & Hk & _).
  pose proof (referencias_alcanzable bd Ha) as Hr.
  assert (Hd : Forall (fun r => existsClient bd (res_id_cliente r) = true
                      /\ existsRoom bd (res_id_sala r) = true) (del_dia bd f)).
  { unfold del_dia. rewrite Forall_forall in *. intros r Hin.
    apply filter_In in Hin. apply Hr. tauto. }
  assert (P : Permutation (select_registros bd f)
                          (flat_map (unir bd) (del_dia bd f))).
  { unfold select_registros, del_dia. apply Permutation_sym, ordenar_perm. }
  assert (P1 : Permutation
    (map (fun g => (reg_folio g, reg_turno g, reg_evento g))
         (select_registros bd f))
    (map (fun r => (folio r, turno r, evento r)) (del_dia bd f))).
  { rewrite <- (unir_resumen bd (del_dia bd f) Hk Hd).
    apply Permutation_map. exact P. }
  split; [exact P1|]. split.
  - apply Permutation_length in P1. rewrite !length_map in P1. exact P1.
  - assert (P2 : Permutation (map reg_folio (select_registros bd f))
                             (map folio (del_dia bd f))).
    { apply (Permutation_map (fun x : Z * str * str => fst (fst x))) in P1.
      rewrite !map_map in P1. exact P1. }
    apply (Permutation_NoDup (Permutation_sym P2)).
    unfold del_dia. apply NoDup_map_filter. exact Hf.
Qed.

Lemma in_rango_fechas (fi ff : date) (z : Z) :
  In z (rango_fechas fi ff) <-> toordinal fi <= z <= toordinal ff.
Proof.
  unfold rango_fechas, dias_entre. rewrite in_map_iff. split.
  - intros (i & <- & Hi). apply in_seq in Hi. lia.
  - intros H. exists (Z.to_nat (z - toordinal fi)). split; [lia|].
    apply in_seq. lia.
Qed.

Lemma in_select_eventos (bd : BD) (z : Z) (x : Z * str * datetime) :
  In x (select_eventos bd z) <->
  exists r, In r (reservaciones bd)
    /\ toordinal (dt_fecha (fecha_registro r)) = z
    /\ x = (folio r, evento r, fecha_registro r).
Proof.
  unfold select_eventos. rewrite in_map_iff. split.
  - intros (r & <- & Hr). apply ordenar_in, filter_In in Hr.
    destruct Hr as [Hr Hz]. apply Z.eqb_eq in Hz. eauto.
  - intros (r & Hr & Hz & ->). exists r. split; auto.
    apply ordenar_in, filter_In. split; auto. apply Z.eqb_eq; auto.
Qed.

Lemma in_reservaciones_en_rango (bd : BD) (fi ff : date)
    (x : Z * str * datetime) :
  In x (reservaciones_en_rango bd fi ff) <->
  exists r, In r (reservaciones bd)
    /\ toordinal fi <= toordinal (dt_fecha (fecha_registro r)) <= toordinal ff
    /\ x = (folio r, evento r, fecha_registro r).
Proof.
  unfold reservaciones_en_rango. rewrite in_flat_map. split.
  - intros (z & Hz & Hx). apply in_rango_fechas in Hz.
    apply in_select_eventos in Hx. destruct Hx as (r & Hr & E & ->).
    exists r. rewrite E. auto.
  - intros (r & Hr & Hd & ->).
    exists (toordinal (dt_fecha (fecha_registro r))). split.
    + apply in_rango_fechas; auto.
    + apply in_select_eventos. eauto.
Qed.

Lemma datetime_leb_total (a b : datetime) :
  datetime_leb a b = true \/ datetime_leb b a = true.
Proof.
  unfold datetime_leb.
  destruct (Z.eqb_spec (toordinal (dt_fecha a)) (toordinal (dt_fecha b)))
    as [E|E].
  - rewrite E, Z.eqb_refl.
    destruct (Z.leb_spec (dt_hora a) (dt_hora b)); auto.
    right. apply Z.leb_le. lia.
  - destruct (Z.eqb_spec (toordinal (dt_fecha b)) (toordinal (dt_fecha a)));
      [congruence|].
    destruct (Z.ltb_spec (toordinal (dt_fecha a)) (toordinal (dt_fecha b)));
      auto.
    right. apply Z.ltb_lt. lia.
Qed.

Lemma datetime_leb_spec (a b : datetime) :
  datetime_leb a b = true <->
  toordinal (dt_fecha a) < toordinal (dt_fecha b)
  \/ (toordinal (dt_fecha a) = toordinal (dt_fecha b)
      /\ dt_hora a <= dt_hora b).
Proof.
  unfold datetime_leb.
  destruct (Z.eqb_spec (toordinal (dt_fecha a)) (toordinal (dt_fecha b))).
  - rewrite Z.leb_le. lia.
  - rewrite Z.ltb_lt. lia.
Qed.

Lemma datetime_leb_trans (a b c : datetime) :
  datetime_leb a b = true -> datetime_leb b c = true ->
  datetime_leb a c = true.
Proof. rewrite !datetime_leb_spec. lia. Qed.

Lemma StronglySorted_app {A} (R : A -> A -> Prop) (l l' : list A) :
  StronglySorted R l -> StronglySorted R l' ->
  (forall a b, In a l -> In b l' -> R a b) ->
  StronglySorted R (l ++ l').
Proof.
  induction 1 as [|x l Hs IH Hx]; simpl; auto.
  intros Hl' H. constructor.
  - apply IH; auto.
  - apply Forall_app; split; auto.
    apply Forall_forall. intros b Hb. apply H; auto.
Qed.

Lemma rango_fechas_creciente (fi ff : date) :
  StronglySorted Z.lt (rango_fechas fi ff).
Proof.
  unfold rango_fechas.
  generalize (Z.to_nat (dias_entre ff fi + 1)) as n. generalize 0%nat as a.
  intros a n. revert a. induction n as [|n IH]; intros a; simpl.
  - constructor.
  - constructor; [apply IH|].
    apply Forall_forall. intros z Hz. apply in_map_iff in Hz.
    destruct Hz as (i & <- & Hi). apply in_seq in Hi. lia.
Qed.

(** X11.  The listing [editar_evento] works on holds exactly the
    reservations dated from the first date to the last (none when the last
    date precedes the first), in order of date and, within a date, of the
    time of day stored with it. *)
Theorem listado_del_rango (bd : BD) (fi ff : date) :
  (forall x, In x (reservaciones_en_rango bd fi ff) <->
     exists r, In r (reservaciones bd)
       /\ toordinal fi <= toordinal (dt_fecha (fecha_registro r))
          <= toordinal ff
       /\ x = (folio r, evento r, fecha_registro r))
  /\ StronglySorted (fun a b => datetime_leb (snd a) (snd b) = true)
                    (reservaciones_en_rango bd fi ff)
  /\ (toordinal ff < toordinal fi -> reservaciones_en_rango bd fi ff = []).
Proof.
  split; [intros x; apply in_reservaciones_en_rango|]. split.
  - unfold reservaciones_en_rango.
    pose proof (rango_fechas_creciente fi ff) as Hs.
    induction Hs as [|z l Hs IH Hz]; simpl; [constructor|].
    apply StronglySorted_app; auto.
    + unfold select_eventos.
      assert (Ho : StronglySorted
                (fun a b => datetime_leb (fecha_registro a)
                                         (fecha_registro b) = true)
                (ordenar (fun a b => datetime_leb (fecha_registro a)
                                                  (fecha_registro b))
                         (filter (en_fecha z) (reservaciones bd)))).
      { apply ordenar_sorted.
        - intros a b. apply datetime_leb_total.
        - intros a b c. apply datetime_leb_trans. }
      induction Ho as [|r rs _ IHo Hr]; simpl; constructor; auto.
      rewrite Forall_forall in *. intros x Hx.
      apply in_map_iff in Hx. destruct Hx as (r' & <- & Hr').
      simpl. auto.
    + intros a b Ha Hb. apply in_flat_map in Hb.
      destruct Hb as (z' & Hz' & Hb).
      rewrite Forall_forall in Hz. specialize (Hz z' Hz').
      apply in_select_eventos in Ha. destruct Ha as (ra & _ & Ea & ->).
      apply in_select_eventos in Hb. destruct Hb as (rb & _ & Eb & ->).
      simpl. apply datetime_leb_spec. lia.
  - intros H. destruct (reservaciones_en_rango bd fi ff) as [|x l] eqn:E;
      auto.
    assert (Hin : In x (reservaciones_en_rango bd fi ff))
      by (rewrite E; left; reflexivity).
    apply in_reservaciones_en_rango in Hin.
    destruct Hin as (r & _ & Hd & _). lia.
Qed.

(** ** Edits *)

Lemma editar_evento_en_rango (bd : BD) (a b : str) (ins : list str)
    (fi ff : date) :
  strptime a = Some fi -> strptime b = Some ff ->
  snd (editar_evento bd (a :: b :: ins)) = bd
  \/ exists e f,
       existsb (fun r => fst (fst r) =? f) (reservaciones_en_rango bd fi ff)
       = true
       /\ f <> 0
       /\ snd (editar_evento bd (a :: b :: ins)) = update_evento bd e f.
Proof.
  intros Ha Hb. unfold editar_evento. rewrite Ha, Hb.
  destruct (reservaciones_en_rango bd fi ff) as [|r0 rs] eqn:Er; auto.
  rewrite snd_luego.
  pose proof (pedir_folio_spec (r0 :: rs) ins) as Hf.
  assert (H0 : forall f, resultado (pedir_folio (r0 :: rs) ins)
                         = Ret (Some f) -> f <> 0).
  { clear. induction ins as [|x ins IH]; intros f; cbn [pedir_folio];
      rewrite !resultado_tras; [discriminate|].
    destruct (int_ x) as [g|]; [|rewrite resultado_tras; apply IH].
    destruct (Z.eqb_spec g 0); [discriminate|].
    destruct (existsb _ _); [|rewrite resultado_tras; apply IH].
    intros H; inversion H; subst; auto. }
  destruct (resultado (pedir_folio (r0 :: rs) ins)) as [[f|]|]; auto.
  rewrite snd_luego.
  destruct (resultado (pedir_nuevo_evento _)) as [e|]; auto.
  right. exists e, f. repeat split; auto.
Qed.

Lemma folio_identifica (l : list Reservacion) (r r' : Reservacion) :
  NoDup (map folio l) -> In r l -> In r' l -> folio r = folio r' -> r = r'.
Proof.
  induction l as [|x l IH]; simpl; [tauto|].
  intros H. inversion H as [|? ? Hx Hl]; subst.
  intros [->|Hr] [->|Hr'] E; auto.
  - exfalso. apply Hx. rewrite E. apply in_map; auto.
  - exfalso. apply Hx. rewrite <- E. apply in_map; auto.
Qed.

(** X12.  In a store the program can reach, a run of [editar_evento]
    leaves every reservation dated outside the range it was given exactly
    as it was, whatever folio and name are answered; with a date that does
    not parse it changes nothing at all. *)
Theorem edicion_dentro_del_rango (bd : BD) (a b : str) (ins : list str) :
  alcanzable bd ->
  (forall fi ff r,
     strptime a = Some fi -> strptime b = Some ff ->
     In r (reservaciones bd) ->
     ~ (toordinal fi <= toordinal (dt_fecha (fecha_registro r))
        <= toordinal ff) ->
     In r (reservaciones (snd (editar_evento bd (a :: b :: ins)))))
  /\ (strptime a = None \/ strptime b = None ->
      editar_evento bd (a :: b :: ins)
      = ((Ret tt, ins, [FechasInvalidas]), bd)).
Proof.
  intros Ha. split.
  - intros fi ff r Hfi Hff Hr Hout.
    destruct (integra_alcanzable bd Ha) as (_ & Hf & _).
    destruct (editar_evento_en_rango bd a b ins fi ff Hfi Hff)
      as [->|(e & f & Hex & _ & ->)]; auto.
    apply existsb_exists in Hex. destruct Hex as (x & Hx & Efx).
    apply Z.eqb_eq in Efx.
    apply in_reservaciones_en_rango in Hx.
    destruct Hx as (r0 & Hr0 & Hd0 & ->). simpl in Efx.
    simpl. apply in_map_iff. exists r. split; auto.
    destruct (Z.eqb_spec (folio r) f) as [E|E]; auto.
    exfalso. apply Hout.
    rewrite (folio_identifica _ r r0 Hf Hr Hr0) by congruence. exact Hd0.
  - intros H. unfold editar_evento.
    destruct H as [-> | H]; [reflexivity|].
    rewrite H. destruct (strptime a); reflexivity.
Qed.

Lemma existsb_rango_update (bd : BD) (e : str) (g f : Z) (fi ff : date) :
  existsb (fun r => fst (fst r) =? f) (reservaciones_en_rango bd fi ff)
  = true ->
  existsb (fun r => fst (fst r) =? f)
          (reservaciones_en_rango (update_evento bd e g) fi ff) = true.
Proof.
  rewrite !existsb_exists. intros (x & Hx & E).
  apply in_reservaciones_en_rango in Hx.
  destruct Hx as (r & Hr & Hd & ->). simpl in E.
  exists (folio r, evento (if folio r =? g then con_evento e r else r),
          fecha_registro r).
  split; [|exact E].
  apply in_reservaciones_en_rango.
  exists (if folio r =? g then con_evento e r else r). split.
  - simpl. apply in_map_iff. exists r. auto.
  - destruct (folio r =? g); simpl; auto.
Qed.

Lemma update_evento_idem (bd : BD) (e : str) (f : Z) :
  update_evento (update_evento bd e f) e f = update_evento bd e f.
Proof.
  unfold update_evento. simpl. f_equal. rewrite map_map.
  apply map_ext. intros r.
  destruct (Z.eqb_spec (folio r) f) as [E|E]; simpl.
  - rewrite E, Z.eqb_refl. reflexivity.
  - apply Z.eqb_neq in E. rewrite E. reflexivity.
Qed.

(** X13.  A successful pass through [editar_evento] given again with the
    same answers succeeds again and leaves the tables exactly as the first
    pass left them. *)
Theorem edicion_idempotente (bd : BD) (fi_s ff_s fs ns : str)
    (fi ff : date) (f : Z) :
  strptime fi_s = Some fi -> strptime ff_s = Some ff ->
  int_ fs = Some f -> f <> 0 ->
  existsb (fun r => fst (fst r) =? f) (reservaciones_en_rango bd fi ff)
    = true ->
  strip ns <> [] ->
  let bd' := snd (editar_evento bd [fi_s; ff_s; fs; ns]) in
  bd' = update_evento bd (strip ns) f
  /\ resultado (fst (editar_evento bd' [fi_s; ff_s; fs; ns])) = Ret tt
  /\ snd (editar_evento bd' [fi_s; ff_s; fs; ns]) = bd'.
Proof.
  intros Hfi Hff Hfs Hf Hex Hn bd'. subst bd'.
  apply no_vacio_iff in Hn.
  rewrite (editar_evento_guion bd fi_s ff_s fs ns fi ff f); auto.
  cbv zeta. rewrite Hn. cbn [snd]. split; [reflexivity|].
  rewrite (editar_evento_guion _ fi_s ff_s fs ns fi ff f); auto.
  2:{ apply existsb_rango_update. exact Hex. }
  cbv zeta. rewrite Hn. cbn [fst snd resultado].
  split; [reflexivity | apply update_evento_idem].
Qed.

Lemma length_filter_map {A} (p : A -> bool) (g : A -> A) (l : list A) :
  (forall x, p (g x) = p x) ->
  List.length (filter p (map g l)) = List.length (filter p l).
Proof.
  intros H. induction l as [|a l IH]; simpl; auto.
  rewrite H. destruct (p a); simpl; auto.
Qed.

Lemma sala_disponible_update (bd : BD) (e : str) (f : Z) (id : Z)
    (fecha : date) (t : str) :
  sala_disponible (update_evento bd e f) id fecha t
  = sala_disponible bd id fecha t.
Proof.
  unfold sala_disponible, update_evento. simpl.
  rewrite length_filter_map; auto.
  intros r. destruct (folio r =? f); reflexivity.
Qed.

(** X14.  Whatever the answers, a run of [editar_evento] neither frees nor
    takes a slot: availability of every room, date and shift, the free
    shifts of every room and the rooms offered for every date are as
    before. *)
Theorem edicion_conserva_disponibilidad (bd : BD) (ins : list str) :
  let bd' := snd (editar_evento bd ins) in
  (forall id fecha t,
     sala_disponible bd' id fecha t = sala_disponible bd id fecha t)
  /\ (forall id fecha, turnos_libres bd' id fecha = turnos_libres bd id fecha)
  /\ (forall fecha, disponible_salas bd' (salas bd') fecha
                    = disponible_salas bd (salas bd) fecha).
Proof.
  intros bd'. subst bd'.
  destruct (editar_evento_efecto bd ins) as [->|(e & f & _ & _ & ->)];
    [repeat split|].
  assert (H1 : forall id fecha t,
             sala_disponible (update_evento bd e f) id fecha t
             = sala_disponible bd id fecha t)
    by (intros; apply sala_disponible_update).
  assert (H2 : forall id fecha,
             turnos_libres (update_evento bd e f) id fecha
             = turnos_libres bd id fecha).
  { intros id fecha. unfold turnos_libres. apply filter_ext.
    intros t. apply H1. }
  repeat split; auto.
  intros fecha. unfold disponible_salas. simpl.
  apply flat_map_ext. intros s. rewrite H2. reflexivity.
Qed.

Lemma siguiente_positiva (l : list Z) : 0 < siguiente l.
Proof.
  unfold siguiente.
  assert (0 <= fold_right Z.max 0 l)
    by (induction l; cbn [fold_right]; lia).
  lia.
Qed.

(** X15.  A reservation a run has just confirmed can be renamed at once:
    its folio is not 0 and is listed for every range that contains its
    date, so a pass through [editar_evento] with such a range, that folio
    and a non-blank name succeeds and sets the name of that folio. *)
Theorem alta_editable (bd : BD) (hoy : date) (ahora : time)
    (ins : list str) (f : Z) (cliente sala : str) (fecha : date)
    (t e : str) (fi_s ff_s fs ns : str) (fi ff : date) :
  In (Registrada f cliente sala fecha t e)
     (impreso (fst (registrar_reservacion bd hoy ahora ins))) ->
  strptime fi_s = Some fi -> strptime ff_s = Some ff ->
  toordinal fi <= toordinal fecha <= toordinal ff ->
  int_ fs = Some f -> strip ns <> [] ->
  let bd' := snd (registrar_reservacion bd hoy ahora ins) in
  f <> 0
  /\ existsb (fun r => fst (fst r) =? f) (reservaciones_en_rango bd' fi ff)
     = true
  /\ editar_evento bd' [fi_s; ff_s; fs; ns]
     = ((Ret tt, [],
         [mostrar_tabla (reservaciones_en_rango bd' fi ff); IngreseFolio;
          EventoActualizado]),
        update_evento bd' (strip ns) f).
Proof.
  intros Hin Hfi Hff Hd Hfs Hn bd'. subst bd'.
  destruct (registrar_reservacion_efecto bd hoy ahora ins)
    as [[_ Ha]|(c & s & fe & t' & e' & cl & sa & H)].
  { destruct (Ha _ Hin) as [[]|E]; discriminate E. }
  destruct H as (Ebd & _ & _ & Ha & _).
  destruct (Ha _ Hin) as [[]|E].
  inversion E; subst f cl sa fe t' e'; clear E.
  assert (H0 : lastrowid bd <> 0).
  { pose proof (siguiente_positiva (map folio (reservaciones bd))).
    unfold lastrowid. lia. }
  assert (Hex : existsb (fun r => fst (fst r) =? lastrowid bd)
                  (reservaciones_en_rango
                     (snd (registrar_reservacion bd hoy ahora ins)) fi ff)
                = true).
  { rewrite Ebd. apply existsb_exists.
    exists (lastrowid bd, e, combine fecha ahora). split.
    - apply in_reservaciones_en_rango.
      exists (mkReservacion (lastrowid bd) c s (combine fecha ahora) t e).
      split; [|split; [exact Hd | reflexivity]].
      simpl. apply in_or_app. right. left. reflexivity.
    - simpl. apply Z.eqb_refl. }
  split; [exact H0|]. split; [exact Hex|].
  rewrite (editar_evento_guion _ fi_s ff_s fs ns fi ff (lastrowid bd)); auto.
  cbv zeta. apply no_vacio_iff in Hn. rewrite Hn. reflexivity.
Qed.

(** ** Validators and prompts *)

(** X16.  The two date validators agree on every input that is not a
    Sunday 2 or more days ahead: the interactive one then returns what the
    strict one returns, reports the same kind of error, and reads no
    answer. *)
Theorem validadores_coinciden (hoy : date) (s : str) (ins : list str) :
  (forall d, strptime s = Some d -> 2 <= dias_entre d hoy ->
             weekday d <> 6) ->
  resultado (validar_fecha hoy s ins)
  = Ret (fst (validar_fecha_simple hoy s))
  /\ restantes (validar_fecha hoy s ins) = ins
  /\ map clase (impreso (validar_fecha hoy s ins))
     = map clase (snd (validar_fecha_simple hoy s)).
Proof.
  intros H. unfold validar_fecha, validar_fecha_simple.
  destruct (strptime s) as [d|]; [|repeat split].
  destruct (Z.ltb_spec (dias_entre d hoy) 2) as [Hd|Hd]; [repeat split|].
  specialize (H d eq_refl Hd). apply Z.eqb_neq in H. rewrite H.
  repeat split.
Qed.

Lemma lstrip_vacio (s : str) :
  lstrip s = [] <-> Forall (fun c => isspace c = true) s.
Proof.
  induction s as [|c s IH]; simpl.
  - split; auto.
  - destruct (isspace c) eqn:E.
    + rewrite IH. split; [constructor; auto|].
      intros H; inversion H; auto.
    + split; [discriminate|]. intros H; inversion H; congruence.
Qed.

Lemma rstrip_vacio (s : str) :
  rstrip s = [] <-> Forall (fun c => isspace c = true) s.
Proof.
  induction s as [|c s IH]; simpl.
  - split; auto.
  - destruct (rstrip s) as [|d t].
    + destruct (isspace c) eqn:E.
      * split; [constructor; auto; apply IH; auto|auto].
      * split; [discriminate|]. intros H; inversion H; congruence.
    + split; [discriminate|]. intros H; inversion H; subst.
      apply IH in H3. discriminate.
Qed.

Lemma lstrip_espacios (s : str) :
  Forall (fun c => isspace c = true) (lstrip s)
  <-> Forall (fun c => isspace c = true) s.
Proof.
  induction s as [|c s IH]; simpl; [tauto|].
  destruct (isspace c) eqn:E; [|tauto].
  rewrite IH. split; [constructor; auto|].
  intros H; inversion H; auto.
Qed.

Lemma strip_vacio (s : str) :
  strip s = [] <-> Forall (fun c => isspace c = true) s.
Proof. unfold strip. rewrite rstrip_vacio. apply lstrip_espacios. Qed.

(** X17.  An event name is accepted exactly when it has a character that
    is not white space; the text stored for an accepted answer is the
    answer stripped, which stripping leaves as it is. *)
Theorem evento_valido (e : str) :
  (validar_evento e = true <-> exists c, In c e /\ isspace c = false)
  /\ (forall ins, validar_evento (strip e) = true ->
        pedir_evento (e :: ins) = (Ret (strip e), ins, [])
        /\ strip (strip e) = strip e).
Proof.
  split.
  - unfold validar_evento. rewrite no_vacio_iff, strip_vacio.
    rewrite <- Exists_Forall_neg by
      (intros c; destruct (isspace c); [left | right]; congruence).
    rewrite Exists_exists. split.
    + intros (c & Hc & Hn). exists c. split; auto.
      destruct (isspace c); congruence.
    + intros (c & Hc & Hn). exists c. split; auto. congruence.
  - intros ins H. split; [|apply strip_idem].
    cbn [pedir_evento]. cbv zeta. rewrite H. reflexivity.
Qed.

Lemma pedir_fecha_app (hoy : date) (malas : list str) (resto : list str) :
  Forall (fun a => fst (validar_fecha_simple hoy (strip a)) = None) malas ->
  pedir_fecha hoy (malas ++ resto) =
  (resultado (pedir_fecha hoy resto), restantes (pedir_fecha hoy resto),
   flat_map (fun a => snd (validar_fecha_simple hoy (strip a))) malas
   ++ impreso (pedir_fecha hoy resto)).
Proof.
  induction 1 as [|a malas Ha _ IH]; simpl.
  - destruct (pedir_fecha hoy resto) as [[r i] o]. reflexivity.
  - destruct (validar_fecha_simple hoy (strip a)) as [[d|] o];
      [discriminate|].
    rewrite IH. simpl. rewrite app_assoc. reflexivity.
Qed.

(** X18.  The prompts ask again until the answer is good: any number of
    non-numbers or numbers of no client (other than 0) before a known
    client number, of refused dates before an accepted date, and of blank
    names before a non-blank name change the outcome of the prompt in
    nothing but one message per refused answer. *)
Theorem reintentos (hoy : date) (cs : list Cliente) (malas : list str)
    (a : str) (resto : list str) :
  (forall c,
     Forall (fun m => match int_ m with
                      | None => True
                      | Some k => k <> 0 /\ validar_clave_cliente k cs = false
                      end) malas ->
     int_ a = Some c -> c <> 0 -> validar_clave_cliente c cs = true ->
     resultado (pedir_cliente cs (malas ++ a :: resto)) = Ret (Some c)
     /\ restantes (pedir_cliente cs (malas ++ a :: resto)) = resto
     /\ impreso (pedir_cliente cs (malas ++ a :: resto))
        = map (fun m => match int_ m with
                        | None => ClaveInvalida
                        | Some _ => ClienteNoEncontrado
                        end) malas)
  /\ (forall f,
        Forall (fun m => fst (validar_fecha_simple hoy (strip m)) = None)
               malas ->
        validar_fecha_simple hoy (strip a) = (Some f, []) ->
        resultado (pedir_fecha hoy (malas ++ a :: resto)) = Ret f
        /\ restantes (pedir_fecha hoy (malas ++ a :: resto)) = resto
        /\ List.length (impreso (pedir_fecha hoy (malas ++ a :: resto)))
           = List.length malas)
  /\ (Forall (fun m => strip m = []) malas -> strip a <> [] ->
      pedir_evento (malas ++ a :: resto)
      = (Ret (strip a), resto,
         map (fun _ => EventoVacio) malas)).
Proof.
  split; [|split].
  - intros c Hm Ha Hc Hv.
    induction Hm as [|m malas Hm _ IH]; simpl.
    + rewrite Ha. apply Z.eqb_neq in Hc. rewrite Hc, Hv. repeat split.
    + destruct (int_ m) as [k|].
      * destruct Hm as [Hk Hkv]. apply Z.eqb_neq in Hk. rewrite Hk, Hkv.
        rewrite resultado_tras, restantes_tras, impreso_tras.
        destruct IH as (I1 & I2 & I3). rewrite I1, I2, I3. repeat split.
      * rewrite resultado_tras, restantes_tras, impreso_tras.
        destruct IH as (I1 & I2 & I3). rewrite I1, I2, I3. repeat split.
  - intros f Hm Ha. rewrite (pedir_fecha_app hoy malas (a :: resto) Hm).
    cbn [pedir_fecha]. rewrite Ha.
    unfold resultado, restantes, impreso. simpl.
    repeat split. rewrite app_nil_r.
    clear Ha. induction Hm as [|m malas Hm _ IH]; simpl; auto.
    rewrite length_app, IH. f_equal.
    unfold validar_fecha_simple in *.
    destruct (strptime (strip m)) as [d|]; simpl; auto.
    destruct (_ <? _); simpl; auto.
    destruct (_ =? _); simpl; auto. discriminate.
  - intros Hm Ha. induction Hm as [|m malas Hm _ IH]; simpl.
    + unfold validar_evento. rewrite strip_idem.
      apply no_vacio_iff in Ha. rewrite Ha. reflexivity.
    + unfold validar_evento at 1. rewrite strip_idem, Hm. simpl.
      rewrite IH. reflexivity.
Qed.

(** X19.  In a store the program can reach, a consultation reads at most
    two answers and never writes: for a date without reservations it says
    so and reads nothing more; for a date with reservations it always
    prints the table, and exports, exactly the rows it printed, only when
    the next answer is "s". *)
Theorem consulta_muestra (bd : BD) (hoy : date) (a : str) (f : date) :
  alcanzable bd ->
  (if no_vacio (strip a) then strptime (strip a) else Some hoy) = Some f ->
  (del_dia bd f = [] ->
   forall ins,
     consultar_reservaciones bd hoy (a :: ins)
     = (Ret tt, ins, [NoHayReservaciones]))
  /\ (del_dia bd f <> [] ->
      select_registros bd f <> []
      /\ forall b ins,
           consultar_reservaciones bd hoy (a :: b :: ins)
           = (Ret tt, ins,
              TablaReservaciones (select_registros bd f)
              :: if str_eqb (lower b) (of_ascii "s")
                 then [Exportado f (select_registros bd f)]
                 else [])).
Proof.
  intros Ha Hf.
  destruct (integra_alcanzable bd Ha) as (_ & Hfo & Hk & _).
  pose proof (referencias_alcanzable bd Ha) as Hr.
  assert (Hlen : List.length (select_registros bd f)
                 = List.length (del_dia bd f)).
  { assert (Hd : Forall (fun r =>
        existsClient bd (res_id_cliente r) = true
        /\ existsRoom bd (res_id_sala r) = true) (del_dia bd f)).
    { unfold del_dia. rewrite Forall_forall in *. intros r Hin.
      apply filter_In in Hin. apply Hr. tauto. }
    pose proof (unir_resumen bd (del_dia bd f) Hk Hd) as E.
    apply (f_equal (@List.length _)) in E. rewrite !length_map in E.
    rewrite <- E. unfold select_registros, del_dia.
    apply Permutation_length, Permutation_sym, ordenar_perm. }
  split.
  - intros E ins. unfold consultar_reservaciones. rewrite Hf.
    rewrite E in Hlen.
    destruct (select_registros bd f); [reflexivity | discriminate].
  - intros E.
    assert (Hn : select_registros bd f <> []).
    { intros E0. rewrite E0 in Hlen. destruct (del_dia bd f);
        [contradiction | discriminate]. }
    split; [exact Hn|]. intros b ins.
    unfold consultar_reservaciones. rewrite Hf.
    destruct (select_registros bd f) as [|g gs]; [contradiction|].
    cbn [tras]. destruct (str_eqb _ _); reflexivity.
Qed.

End Cobertura.

Section Permanencia.
Context {B : Builtins}.

(** ** Nothing is ever removed *)

Lemma crece_refl (bd : BD) : crece bd bd.
Proof. repeat split; exists []; rewrite app_nil_r; reflexivity. Qed.

Lemma crece_trans (a b c : BD) : crece a b -> crece b c -> crece a c.
Proof.
  intros ((x1 & E1) & (y1 & F1) & (z1 & G1))
         ((x2 & E2) & (y2 & F2) & (z2 & G2)).
  repeat split.
  - exists (x1 ++ x2). rewrite E2, E1, app_assoc. reflexivity.
  - exists (y1 ++ y2). rewrite F2, F1, app_assoc. reflexivity.
  - exists (z1 ++ z2). rewrite G2, G1, app_assoc. reflexivity.
Qed.

Lemma sin_evento_con_evento (e : str) (f : Z) (r : Reservacion) :
  sin_evento (if folio r =? f then con_evento e r else r) = sin_evento r.
Proof. destruct (folio r =? f); reflexivity. Qed.

Lemma paso_crece (bd bd' : BD) : paso bd bd' -> crece bd bd'.
Proof.
  intros [b ins|b ins|b hoy ahora ins|b ins].
  - destruct (registrar_cliente_efecto b ins) as [->|(n & a & ->)];
      [apply crece_refl|].
    repeat split; simpl; eauto; exists []; rewrite app_nil_r; reflexivity.
  - destruct (registrar_sala_efecto b ins) as [->|(n & c & ->)];
      [apply crece_refl|].
    repeat split; simpl; eauto; exists []; rewrite app_nil_r; reflexivity.
  - destruct (registrar_reservacion_recortado b hoy ahora ins)
      as [->|(c & s & fh & t & e & _ & ->)]; [apply crece_refl|].
    repeat split; simpl; try (exists []; rewrite app_nil_r; reflexivity).
    rewrite map_app. eauto.
  - destruct (editar_evento_efecto b ins) as [->|(e & f & _ & _ & ->)];
      [apply crece_refl|].
    repeat split; simpl; exists []; rewrite app_nil_r; auto.
    rewrite map_map. apply map_ext, sin_evento_con_evento.
Qed.

Lemma desde_crece (bd bd' : BD) : desde bd bd' -> crece bd bd'.
Proof.
  induction 1 as [|x y _ IH Hp]; [apply crece_refl|].
  apply crece_trans with x; auto using paso_crece.
Qed.

Lemma crece_ocupada (bd bd' : BD) (id : Z) (fecha : date) (t : str) :
  crece bd bd' -> ocupada bd id fecha t -> ocupada bd' id fecha t.
Proof.
  intros (_ & _ & (rs & E)) (r & Hr & Er).
  assert (Hin : In (sin_evento r) (map sin_evento (reservaciones bd')))
    by (rewrite E; apply in_or_app; left; apply in_map; exact Hr).
  apply in_map_iff in Hin. destruct Hin as (r' & E' & Hr').
  exists r'. split; auto.
  unfold sin_evento in E'. unfold ranura in *. inversion E'. congruence.
Qed.

(** X20.  No session ever removes or reorders anything: at its end every
    client and every room it started with is still there, unchanged and in
    place, and so is every reservation, with at most its event name
    changed; new rows only come after. *)
Theorem nada_se_borra (reloj : nat -> date * time) (archivo : option BD)
    (ins : list str) (r : Res unit) (i : list str) (o : list Aviso)
    (bd' : BD) :
  menu reloj archivo ins = Some (r, i, o, bd') ->
  crece (snd (inicializar_bd archivo)) bd'.
Proof.
  unfold menu.
  destruct (inicializar_bd archivo) as [o0 bd0]. cbn [snd].
  destruct (bucle_menu_ok reloj (S (List.length ins)) bd0 ins (le_n _))
    as (r1 & i1 & o1 & bd1 & E & Hd & _).
  rewrite E. simpl. intros H. inversion H; subst.
  apply desde_crece. exact Hd.
Qed.

(** X21.  A slot once taken stays taken: after any further menu choices,
    with any answers, [sala_disponible] still refuses it, since the
    program has no way to cancel a reservation or to move it. *)
Theorem ocupada_para_siempre (bd bd' : BD) (id : Z) (fecha : date)
    (t : str) :
  desde bd bd' ->
  sala_disponible bd id fecha t = false ->
  sala_disponible bd' id fecha t = false.
Proof.
  intros Hd Hs. apply sala_disponible_ocupada.
  apply sala_disponible_ocupada in Hs.
  apply (crece_ocupada bd bd'); auto using desde_crece.
Qed.

End Permanencia.

(** ** The examples, checked against the properties above *)


Lemma menu_sesion_witness :
  exists r i o bd',
    menu (B := ascii_builtins) Sesion1.reloj None Sesion1.guion
    = Some (r, i, o, bd')
    /\ alcanzable (B := ascii_builtins) bd'.
Proof.
  destruct (menu_sesion (B := ascii_builtins) Sesion1.reloj None
              Sesion1.guion) as (r & i & o & bd' & E & _ & Ha & _).
  exists r, i, o, bd'. split; [exact E | apply Ha; reflexivity].
Defined.

Lemma claves_consecutivas_witness :
  claves_seguidas (map folio (reservaciones Ejemplo.bd4))
  /\ lastrowid Ejemplo.bd4 = 3.
Proof.
  exact (proj2 (proj2 (claves_consecutivas (B := ascii_builtins)
                         Ejemplo.bd4 alcanzable_bd4))).
Defined.

Lemma fichas_en_regla_witness :
  fichas_validas (B := ascii_builtins) Ejemplo.bd4.
Proof.
  exact (fichas_en_regla (B := ascii_builtins) Ejemplo.bd4 alcanzable_bd4).
Defined.

Lemma referencias_validas_witness :
  Forall (fun r => existsClient Ejemplo.bd4 (res_id_cliente r) = true
                   /\ existsRoom Ejemplo.bd4 (res_id_sala r) = true)
         (reservaciones Ejemplo.bd4).
Proof.
  exact (referencias_validas (B := ascii_builtins) Ejemplo.bd4
                             alcanzable_bd4).
Defined.

Lemma reservas_en_regla_witness :
  Forall (fun r => weekday (dt_fecha (fecha_registro r)) <> 6
                   /\ In (turno r) TURNOS
                   /\ strip (evento r) = evento r
                   /\ evento r <> [])
         (reservaciones Ejemplo.bd4).
Proof.
  exact (reservas_en_regla (B := ascii_builtins) Ejemplo.bd4
                           alcanzable_bd4).
Defined.

Lemma alta_en_regla_witness :
  In Lleno.noche_bd4 (reservaciones Ejemplo.bd3)
  \/ (folio Lleno.noche_bd4 = lastrowid Ejemplo.bd3
      /\ 2 <= dias_entre (dt_fecha (fecha_registro Lleno.noche_bd4))
                         Ejemplo.hoy
      /\ weekday (dt_fecha (fecha_registro Lleno.noche_bd4)) <> 6
      /\ dt_hora (fecha_registro Lleno.noche_bd4) = 200
      /\ existsClient Ejemplo.bd3 (res_id_cliente Lleno.noche_bd4) = true
      /\ existsRoom Ejemplo.bd3 (res_id_sala Lleno.noche_bd4) = true).
Proof.
  apply (alta_en_regla (B := ascii_builtins) Ejemplo.bd3 Ejemplo.hoy 200
           Ejemplo.guion_noche Lleno.noche_bd4).
  right. left. reflexivity.
Defined.

Lemma sala_desconocida_witness :
  resultado (fst (registrar_reservacion (B := ascii_builtins) Ejemplo.bd3
                    Ejemplo.hoy 300 Ejemplo.guion_sala_desconocida))
  = Raise IndexError.
Proof.
  apply (proj2 (proj2 (sala_desconocida (B := ascii_builtins) Ejemplo.bd3
           Ejemplo.hoy 300 (of_ascii "1") (of_ascii "06-13-2024")
           (of_ascii "7") (of_ascii "tarde") (of_ascii "Kickoff") 1 7
           Ejemplo.jueves alcanzable_bd3 eq_refl ltac:(discriminate)
           eq_refl eq_refl ltac:(vm_compute; discriminate)
           ltac:(vm_compute; discriminate) eq_refl eq_refl eq_refl eq_refl
           ltac:(vm_compute; discriminate)))).
  vm_compute. discriminate.
Defined.

Lemma dia_completo_witness :
  registrar_reservacion (B := ascii_builtins) Lleno.bd5 Ejemplo.hoy 400
    [of_ascii "1"; of_ascii "06-13-2024"; of_ascii "1"]
  = ((Ret tt, [of_ascii "1"],
      [TablaClientes [(1, of_ascii "Lopez", of_ascii "Ana")];
       NoHaySalasDisponibles]), Lleno.bd5).
Proof.
  apply (proj2 (dia_completo (B := ascii_builtins) Lleno.bd5 Ejemplo.hoy 400
           (of_ascii "1") (of_ascii "06-13-2024") 1 Ejemplo.jueves
           eq_refl ltac:(discriminate) eq_refl eq_refl
           ltac:(vm_compute; discriminate)
           ltac:(vm_compute; discriminate))).
  intros s Hs t Ht. apply sala_disponible_ocupada.
  destruct Hs as [<-|[]].
  destruct Ht as [<-|[<-|[<-|[]]]]; reflexivity.
Defined.

Lemma repetir_pase_witness :
  snd (registrar_reservacion (B := ascii_builtins) Ejemplo.bd3 Ejemplo.hoy
         999 Ejemplo.guion_tarde) = Ejemplo.bd3.
Proof.
  apply (proj2 (repetir_pase (B := ascii_builtins) Ejemplo.bd2 Ejemplo.hoy
           100 (of_ascii "1") (of_ascii "06-13-2024") (of_ascii "1")
           (of_ascii "tarde") (of_ascii "Kickoff") 1 1 Ejemplo.jueves
           eq_refl ltac:(discriminate) eq_refl eq_refl
           ltac:(vm_compute; discriminate) ltac:(vm_compute; discriminate)
           eq_refl eq_refl eq_refl eq_refl eq_refl
           ltac:(vm_compute; discriminate)) 999).
Defined.

Lemma consulta_completa_witness :
  List.length (select_registros Ejemplo.bd4 Ejemplo.jueves)
  = List.length (del_dia Ejemplo.bd4 Ejemplo.jueves).
Proof.
  exact (proj1 (proj2 (consulta_completa (B := ascii_builtins) Ejemplo.bd4
                         Ejemplo.jueves alcanzable_bd4))).
Defined.

Lemma listado_del_rango_witness :
  reservaciones_en_rango Ejemplo.bd4 Ejemplo.lunes Ejemplo.jueves = [].
Proof.
  apply (proj2 (proj2 (listado_del_rango Ejemplo.bd4 Ejemplo.lunes
                         Ejemplo.jueves))).
  reflexivity.
Defined.

Lemma edicion_dentro_del_rango_witness :
  In Lleno.noche_bd4
     (reservaciones
        (snd (editar_evento (B := ascii_builtins) Ejemplo.bd4
                [of_ascii "06-17-2024"; of_ascii "06-17-2024";
                 of_ascii "2"; of_ascii "Gala"]))).
Proof.
  apply (proj1 (edicion_dentro_del_rango (B := ascii_builtins) Ejemplo.bd4
           (of_ascii "06-17-2024") (of_ascii "06-17-2024")
           [of_ascii "2"; of_ascii "Gala"] alcanzable_bd4)
           Ejemplo.lunes Ejemplo.lunes Lleno.noche_bd4).
  - reflexivity.
  - reflexivity.
  - right. left. reflexivity.
  - intros [H _]. vm_compute in H. apply H. reflexivity.
Defined.

Lemma edicion_idempotente_witness :
  snd (editar_evento (B := ascii_builtins)
         (snd (editar_evento (B := ascii_builtins) Ejemplo.bd4
                 Ejemplo.guion_editar))
         Ejemplo.guion_editar)
  = snd (editar_evento (B := ascii_builtins) Ejemplo.bd4
           Ejemplo.guion_editar).
Proof.
  apply (proj2 (proj2 (edicion_idempotente (B := ascii_builtins) Ejemplo.bd4
           (of_ascii "06-13-2024") (of_ascii "06-13-2024") (of_ascii "1")
           (of_ascii "Team Sync") Ejemplo.jueves Ejemplo.jueves 1
           eq_refl eq_refl eq_refl ltac:(discriminate) eq_refl
           ltac:(vm_compute; discriminate)))).
Defined.

Lemma edicion_conserva_disponibilidad_witness :
  sala_disponible
    (snd (editar_evento (B := ascii_builtins) Ejemplo.bd4
            Ejemplo.guion_editar)) 1 Ejemplo.jueves t_tarde
  = sala_disponible Ejemplo.bd4 1 Ejemplo.jueves t_tarde.
Proof.
  exact (proj1 (edicion_conserva_disponibilidad (B := ascii_builtins)
                  Ejemplo.bd4 Ejemplo.guion_editar) 1 Ejemplo.jueves t_tarde).
Defined.

Lemma alta_editable_witness :
  snd (editar_evento (B := ascii_builtins) Ejemplo.bd4
         [of_ascii "06-13-2024"; of_ascii "06-13-2024"; of_ascii "2";
          of_ascii "Gala"])
  = update_evento Ejemplo.bd4 (of_ascii "Gala") 2.
Proof.
  apply (f_equal snd
           (proj2 (proj2 (alta_editable (B := ascii_builtins) Ejemplo.bd3
              Ejemplo.hoy 200 Ejemplo.guion_noche 2 (of_ascii "Ana Lopez")
              (of_ascii "Sala A") Ejemplo.jueves t_noche (of_ascii "Cena")
              (of_ascii "06-13-2024") (of_ascii "06-13-2024") (of_ascii "2")
              (of_ascii "Gala") Ejemplo.jueves Ejemplo.jueves
              ltac:(vm_compute; right; right; left; reflexivity)
              eq_refl eq_refl
              ltac:(split; vm_compute; discriminate)
              eq_refl ltac:(vm_compute; discriminate))))).
Defined.

Lemma validadores_coinciden_witness :
  resultado (validar_fecha (B := ascii_builtins) Ejemplo.hoy
               (of_ascii "06-13-2024") [])
  = Ret (fst (validar_fecha_simple (B := ascii_builtins) Ejemplo.hoy
                (of_ascii "06-13-2024"))).
Proof.
  apply (validadores_coinciden (B := ascii_builtins) Ejemplo.hoy
           (of_ascii "06-13-2024") []).
  intros d H _. vm_compute in H. inversion H. vm_compute. discriminate.
Defined.

Lemma evento_valido_witness :
  pedir_evento (of_ascii " a " :: []) = (Ret (of_ascii "a"), [], []).
Proof.
  apply (proj2 (evento_valido (of_ascii " a ")) [] eq_refl).
Defined.

Lemma reintentos_witness :
  pedir_evento [of_ascii "  "; of_ascii ""; of_ascii "Cena"; of_ascii "x"]
  = (Ret (of_ascii "Cena"), [of_ascii "x"], [EventoVacio; EventoVacio]).
Proof.
  apply (proj2 (proj2 (reintentos (B := ascii_builtins) Ejemplo.hoy []
           [of_ascii "  "; of_ascii ""] (of_ascii "Cena") [of_ascii "x"]))).
  - repeat constructor.
  - vm_compute. discriminate.
Defined.

Lemma consulta_muestra_witness :
  consultar_reservaciones (B := ascii_builtins) Ejemplo.bd4 Ejemplo.hoy
    [of_ascii "06-13-2024"; of_ascii "n"]
  = (Ret tt, [],
     [TablaReservaciones (select_registros Ejemplo.bd4 Ejemplo.jueves)]).
Proof.
  apply (proj2 (proj2 (consulta_muestra (B := ascii_builtins) Ejemplo.bd4
           Ejemplo.hoy (of_ascii "06-13-2024") Ejemplo.jueves
           alcanzable_bd4 eq_refl) ltac:(vm_compute; discriminate))
           (of_ascii "n") []).
Defined.

Lemma nada_se_borra_witness : crece bd_vacia final_de_sesion1.
Proof.
  apply (nada_se_borra (B := ascii_builtins) Sesion1.reloj None
           Sesion1.guion (Ret tt) []
           (match menu (B := ascii_builtins) Sesion1.reloj None
                       Sesion1.guion with
            | Some (_, _, o, _) => o
            | None => []
            end)
           final_de_sesion1).
  vm_compute. reflexivity.
Defined.

Lemma ocupada_para_siempre_witness :
  sala_disponible Ejemplo.bd4 1 Ejemplo.jueves t_tarde = false.
Proof.
  apply (ocupada_para_siempre (B := ascii_builtins) Ejemplo.bd3 Ejemplo.bd4
           1 Ejemplo.jueves t_tarde).
  - apply desde_paso with Ejemplo.bd3;
      [apply desde_aqui | apply paso_reservacion].
  - reflexivity.
Defined.

(** * Availability and the order of the checks, over whole passes *)

Section Pases.
Context {B : Builtins}.

(** ** A stored reservation takes five answers *)

Lemma pedir_cliente_consume (cs : list Cliente) (ins : list str)
    (v : option Z) :
  resultado (pedir_cliente cs ins) = Ret v ->
  (S (List.length (restantes (pedir_cliente cs ins))) <= List.length ins)%nat.
Proof.
  induction ins as [|a ins IH]; simpl; [discriminate|].
  destruct (int_ a) as [id|].
  - destruct (id =? 0); [unfold restantes; simpl; lia|].
    destruct (validar_clave_cliente id cs); [unfold restantes; simpl; lia|].
    rewrite resultado_tras, restantes_tras. intros H. specialize (IH H). lia.
  - rewrite resultado_tras, restantes_tras. intros H. specialize (IH H). lia.
Qed.

Lemma pedir_fecha_consume (hoy : date) (ins : list str) (f : date) :
  resultado (pedir_fecha hoy ins) = Ret f ->
  (S (List.length (restantes (pedir_fecha hoy ins))) <= List.length ins)%nat.
Proof.
  induction ins as [|a ins IH]; simpl; [discriminate|].
  destruct (validar_fecha_simple hoy (strip a)) as [[d|] o].
  - unfold restantes; simpl; lia.
  - destruct (pedir_fecha hoy ins) as [[r i] o'].
    unfold resultado, restantes in *. simpl in *.
    intros H. specialize (IH H). lia.
Qed.

Lemma pedir_sala_consume (bd : BD) (fecha : date) (n : nat) :
  forall ins v, (List.length ins <= n)%nat ->
  resultado (pedir_sala bd fecha ins) = Ret v ->
  (2 + List.length (restantes (pedir_sala bd fecha ins))
   <= List.length ins)%nat.
Proof.
  induction n as [|n IH]; intros [|a ins] v Hn; simpl in *;
    try discriminate; try lia.
  destruct (int_ a) as [id|].
  - destruct ins as [|b ins]; simpl in *; [discriminate|].
    destruct (negb (en_lista (lower b) TURNOS)).
    { rewrite resultado_tras, restantes_tras. intros H.
      specialize (IH ins v ltac:(lia) H). lia. }
    destruct (negb (int64 id)); [discriminate|].
    destruct (negb (sala_disponible bd id fecha (lower b))).
    { rewrite resultado_tras, restantes_tras. intros H.
      specialize (IH ins v ltac:(lia) H). lia. }
    unfold restantes; simpl; lia.
  - rewrite resultado_tras, restantes_tras. intros H.
    specialize (IH ins v ltac:(lia) H). lia.
Qed.

Lemma pedir_evento_consume (ins : list str) (e : str) :
  resultado (pedir_evento ins) = Ret e ->
  (S (List.length (restantes (pedir_evento ins))) <= List.length ins)%nat.
Proof.
  induction ins as [|a ins IH]; simpl; [discriminate|].
  destruct (validar_evento (strip a)); [unfold restantes; simpl; lia|].
  rewrite resultado_tras, restantes_tras. intros H. specialize (IH H). lia.
Qed.

(** Fewer than five answers store nothing: the client, the date, the
    room, the shift and the event name take one each. *)
Lemma registrar_reservacion_corta (bd : BD) (hoy : date) (ahora : time)
    (ins : list str) :
  (List.length ins < 5)%nat ->
  snd (registrar_reservacion bd hoy ahora ins) = bd.
Proof.
  intros Hn. unfold registrar_reservacion.
  destruct (select_clientes bd) as [|c0 cs]; auto.
  rewrite snd_tras_bd, snd_luego.
  pose proof (pedir_cliente_consume (c0 :: cs) ins) as H1.
  destruct (resultado (pedir_cliente (c0 :: cs) ins)) as [[c|]|]; auto.
  specialize (H1 _ eq_refl).
  set (i1 := restantes (pedir_cliente (c0 :: cs) ins)) in *.
  rewrite snd_luego.
  pose proof (pedir_fecha_consume hoy i1) as H2.
  destruct (resultado (pedir_fecha hoy i1)) as [fecha|]; auto.
  specialize (H2 _ eq_refl).
  set (i2 := restantes (pedir_fecha hoy i1)) in *.
  destruct (salas bd) as [|s0 ss]; auto.
  destruct (disponible_salas bd (s0 :: ss) fecha) as [|d0 ds]; auto.
  rewrite snd_tras_bd, snd_luego.
  pose proof (fun v => pedir_sala_consume bd fecha (List.length i2) i2 v
                         (le_n _)) as H3.
  destruct (resultado (pedir_sala bd fecha i2)) as [st|]; auto.
  specialize (H3 _ eq_refl).
  set (i3 := restantes (pedir_sala bd fecha i2)) in *.
  rewrite snd_luego.
  pose proof (pedir_evento_consume i3) as H4.
  destruct (resultado (pedir_evento i3)) as [e|]; auto.
  specialize (H4 _ eq_refl). lia.
Qed.

(** A refused client number is asked again: the rest of the run is the
    run on the answers that follow. *)
Lemma registrar_reservacion_rechazo (bd : BD) (hoy : date) (ahora : time)
    (cs : str) (c : Z) (resto : list str) :
  int_ cs = Some c -> c <> 0 -> existsClient bd c = false ->
  snd (registrar_reservacion bd hoy ahora (cs :: resto))
  = snd (registrar_reservacion bd hoy ahora resto).
Proof.
  intros Hcs Hc0 Hcl. unfold registrar_reservacion.
  destruct (select_clientes bd) as [|c0 cl] eqn:Ecl; [reflexivity|].
  rewrite !snd_tras_bd, !snd_luego.
  cbn [pedir_cliente]. rewrite Hcs.
  apply Z.eqb_neq in Hc0. rewrite Hc0.
  assert (Hv : validar_clave_cliente c (c0 :: cl) = false).
  { destruct (validar_clave_cliente c (c0 :: cl)) eqn:E; auto.
    rewrite <- Ecl in E. apply existsb_ordenar in E.
    unfold existsClient in Hcl. congruence. }
  rewrite Hv, resultado_tras, restantes_tras. reflexivity.
Qed.

(** ** The order of the checks *)

(** C3, as the code has it.  One pass through [registrar_reservacion]
    (answers: client, date, room, shift, event name) with at least one
    client on file and a client number other than the cancelling 0
    reports the first failure in this order: a client not on file, then,
    for an accepted date and a room on file on a day when some room
    still has a free shift, a taken slot, then a blank event name; a
    reported failure leaves the tables as they were, and with no failure
    the reservation is stored.  A client not on file is the first failure
    reported whatever answers follow. *)
Theorem orden_de_comprobaciones (bd : BD) (hoy : date) (ahora : time)
    (cs : str) (c : Z) :
  clientes bd <> [] -> int_ cs = Some c -> c <> 0 ->
  (existsClient bd c = false ->
   (forall resto,
      primer_error
        (impreso (fst (registrar_reservacion bd hoy ahora (cs :: resto))))
      = Some UnknownClient)
   /\ (forall fs ss ts es,
         snd (registrar_reservacion bd hoy ahora [cs; fs; ss; ts; es]) = bd))
  /\ (existsClient bd c = true ->
      forall fs ss ts es s fecha,
        strptime (strip fs) = Some fecha ->
        2 <= dias_entre fecha hoy -> weekday fecha <> 6 ->
        int_ ss = Some s -> int64 s = true -> existsRoom bd s = true ->
        en_lista (lower ts) TURNOS = true ->
        disponible_salas bd (salas bd) fecha <> [] ->
        let run := registrar_reservacion bd hoy ahora [cs; fs; ss; ts; es] in
        let k := create_segun_codigo bd c s fecha (lower ts) es in
        primer_error (impreso (fst run)) = k
        /\ (k <> None -> snd run = bd)
        /\ (k = None ->
            exists r, reservaciones (snd run) = reservaciones bd ++ [r]
                      /\ ranura r = (s, toordinal fecha, lower ts)
                      /\ res_id_cliente r = c
                      /\ evento r = strip es)).
Proof.
  intros Hne Hcs Hc0. split.
  - intros Hcl. split.
    + intros resto. unfold registrar_reservacion.
      destruct (select_clientes bd) as [|c0 cl] eqn:Ecl.
      { apply ordenar_nil in Ecl. contradiction. }
      unfold tras_bd. cbn [fst]. rewrite impreso_tras.
      match goal with
      | |- context [luego bd ?x ?k] =>
          destruct (impreso_luego bd x k) as (o' & ->)
      end.
      cbn [pedir_cliente]. rewrite Hcs.
      apply Z.eqb_neq in Hc0. rewrite Hc0.
      assert (Hv : validar_clave_cliente c (c0 :: cl) = false).
      { destruct (validar_clave_cliente c (c0 :: cl)) eqn:E; auto.
        rewrite <- Ecl in E. apply existsb_ordenar in E.
        unfold existsClient in Hcl. congruence. }
      rewrite Hv, impreso_tras. reflexivity.
    + intros fs ss ts es.
      rewrite (registrar_reservacion_rechazo bd hoy ahora cs c); auto.
      apply registrar_reservacion_corta. simpl. lia.
  - intros Hcl fs ss ts es s fecha Hfs Hd Hw Hss Hi Hro Ht Hds run k.
    destruct (registrar_reservacion_guion bd hoy ahora cs fs ss ts es c s
                fecha Hcs Hc0 Hcl Hfs Hd Hw Hss Hi Hro Ht Hds)
      as (o0 & r & o1 & Ho0 & E).
    subst run k. rewrite E. unfold create_segun_codigo. rewrite Hcl.
    cbn [negb].
    destruct (sala_disponible bd s fecha (lower ts)); cbn [negb].
    + destruct (no_vacio (strip es)); cbn [negb].
      * unfold existsClient in Hcl. unfold existsRoom in Hro.
        apply existsb_filter in Hcl. destruct Hcl as (x & rx & Hx).
        apply existsb_filter in Hro. destruct Hro as (y & ry & Hy).
        unfold select_nombre_cliente, select_nombre_sala.
        rewrite Hx, Hy. cbn [map fst snd impreso].
        rewrite (primer_error_ninguno _ _ Ho0).
        repeat split; try congruence.
        intros _. eexists; split; [reflexivity|]. auto.
      * cbn [fst snd impreso].
        rewrite (primer_error_ninguno _ _ Ho0).
        repeat split; congruence.
    + cbn [fst snd impreso].
      rewrite (primer_error_ninguno _ _ Ho0).
      repeat split; congruence.
Qed.

(** ** Availability *)



End Pases.

(** ** The examples, checked against availability and the order *)



Lemma orden_de_comprobaciones_witness :
  primer_error
    (impreso (fst (registrar_reservacion (B := ascii_builtins) Ejemplo.bd3
                     Ejemplo.hoy 300 Ejemplo.guion_ocupada_en_blanco)))
  = Some ShiftOccupied
  /\ (let run := registrar_reservacion (B := ascii_builtins) Ejemplo.bd3
                   Ejemplo.hoy 300
                   [of_ascii "7"; of_ascii "1"; of_ascii "06-13-2024";
                    of_ascii "1"; of_ascii "noche"] in
      primer_error (impreso (fst run)) = Some UnknownClient
      /\ snd run = Ejemplo.bd3).
Proof.
  split.
  - apply (proj2 (orden_de_comprobaciones (B := ascii_builtins) Ejemplo.bd3
             Ejemplo.hoy 300 (of_ascii "1") 1
             ltac:(discriminate) eq_refl ltac:(discriminate)) eq_refl
             (of_ascii "06-13-2024") (of_ascii "1") (of_ascii "tarde")
             (of_ascii "   ") 1 Ejemplo.jueves);
      try reflexivity; vm_compute; discriminate.
  - destruct (proj1 (orden_de_comprobaciones (B := ascii_builtins)
                Ejemplo.bd3 Ejemplo.hoy 300 (of_ascii "7") 7
                ltac:(discriminate) eq_refl ltac:(discriminate)) eq_refl)
      as (H1 & H2).
    split; [apply H1 | apply H2].
Defined.

